(** * Verification of [src/common/loki.cpp]

    The file embeds the three functions of [loki.cpp]:
    - [round]: round to nearest, ties away from zero (after gnulib);
    - [exp2]: base-2 exponential by range decomposition, a 257-entry table
      and a truncated series for tanh (after gnulib);
    - [base32z_encode] and [hex64_to_base32z]: the z-base-32 rendering of a
      hexadecimal key.

    Doubles are the kernel's binary64 numbers ([PrimFloat.float]); every
    arithmetic operation rounds to binary64 on its own, as the source's
    [static_assert] on [is_iec559] and the [volatile] temporaries of [round]
    ask for.  General statements about them go through [Prim2SF] and the
    executable specification [SpecFloat].  C++ [int] is a 32-bit
    two's-complement integer carried as a [Z] with the wrap-around written
    out; [size_t] counters are [nat], the bytes of a [std::vector<uint8_t>]
    are [Z] and characters are [ascii].  Operations the C++ standard leaves
    undefined (a read outside a container, a conversion of a double that does
    not fit [int], a C string without terminator) end the computation in
    [Undefined]. *)

From Stdlib Require Import ZArith Lia Bool Ascii String List.
From Stdlib Require Import Floats.
Import ListNotations.

Set Warnings "-inexact-float".

(** ** Outcomes of a C++ computation *)

Inductive fault : Type :=
| ReadOutOfBounds     (* [value[i]] or [table[i]] with [i] outside the object *)
| WriteOutOfBounds    (* [stack[i] = c] with [i] outside the buffer *)
| CastOutOfRange      (* [(int) d] for a NaN, an infinity or a value outside [int] *)
| NoTerminator.       (* a [const char*] read as a string with no NUL in the buffer *)

Inductive outcome (A : Type) : Type :=
| Ret (a : A)
| Undefined (f : fault)
| OutOfFuel.

Arguments Ret {A} a.
Arguments Undefined {A} f.
Arguments OutOfFuel {A}.

Definition bind {A B : Type} (c : outcome A) (k : A -> outcome B) : outcome B :=
  match c with
  | Ret a => k a
  | Undefined f => Undefined f
  | OutOfFuel => OutOfFuel
  end.

Notation "x <- c ;; k" := (bind c (fun x => k))
  (at level 61, c at next level, right associativity).

(** ** Machine integers *)

Definition INT_MIN : Z := - 2 ^ 31.
Definition INT_MAX : Z := 2 ^ 31 - 1.

(** Two's-complement wrap-around of a 32-bit [int], which is what the
    compilers in use (and C++20) give to [<<] and to the arithmetic of
    [int]. *)
Definition wrap_int (v : Z) : Z := (v + 2 ^ 31) mod 2 ^ 32 - 2 ^ 31.

Definition int_mul (a b : Z) : Z := wrap_int (a * b).
Definition int_sub (a b : Z) : Z := wrap_int (a - b).
Definition int_add (a b : Z) : Z := wrap_int (a + b).
Definition int_shl (a k : Z) : Z := wrap_int (Z.shiftl a k).
(** [>>] on a signed [int] is the arithmetic shift. *)
Definition int_shr (a k : Z) : Z := Z.shiftr a k.

(** ** Doubles *)

Open Scope float_scope.

Definition DBL_MANT_DIG : Z := 53.
Definition DBL_MAX_EXP : Z := 1024.
Definition DBL_MIN_EXP : Z := -1021.
Definition HUGE_VAL : float := infinity.

(** [(double) u] for an [unsigned] (or a non-negative [int]) value. *)
Definition double_of_unsigned (u : Z) : float := of_uint63 (Uint63.of_Z u).

(** [(double) i] for an [int]. *)
Definition double_of_int (i : Z) : float :=
  if (0 <=? i)%Z then double_of_unsigned i else - double_of_unsigned (- i).

(** [(int) d]: truncation toward zero; undefined when the truncated value is
    not an [int]. *)
Definition int_of_double (d : float) : outcome Z :=
  match Prim2SF d with
  | S754_zero _ => Ret 0%Z
  | S754_finite s m e =>
      let t := cond_Zopp s (Z.shiftl (Zpos m) e) in
      if ((INT_MIN <=? t) && (t <=? INT_MAX))%Z then Ret t
      else Undefined CastOutOfRange
  | _ => Undefined CastOutOfRange
  end.

(** *** [loki::round] *)

Definition MINUS_ZERO : float := -0.0.

Definition TWO_MANT_DIG : float :=
  double_of_unsigned (Z.shiftl 1 ((DBL_MANT_DIG - 1) / 5))
  * double_of_unsigned (Z.shiftl 1 ((DBL_MANT_DIG - 1 + 1) / 5))
  * double_of_unsigned (Z.shiftl 1 ((DBL_MANT_DIG - 1 + 2) / 5))
  * double_of_unsigned (Z.shiftl 1 ((DBL_MANT_DIG - 1 + 3) / 5))
  * double_of_unsigned (Z.shiftl 1 ((DBL_MANT_DIG - 1 + 4) / 5)).

Definition round (x : float) : float :=
  let y := x in
  let z := y in
  if 0.0 <? z then
    if z <? 0.5 then 0.0
    else if z <? TWO_MANT_DIG then
      let z := z + 0.5 in
      let y := z in
      let z := z + TWO_MANT_DIG in
      let z := z - TWO_MANT_DIG in
      if y <? z then z - 1.0 else z
    else z
  else if z <? 0.0 then
    if - 0.5 <? z then MINUS_ZERO
    else if - TWO_MANT_DIG <? z then
      let z := z - 0.5 in
      let y := z in
      let z := z - TWO_MANT_DIG in
      let z := z + TWO_MANT_DIG in
      if z <? y then z + 1.0 else z
    else z
  else z.

(** *** [loki::exp2] *)

Definition LOG2 : float := 0.693147180559945309417232121458176568075.
Definition LOG2_INVERSE : float := 1.44269504088896340735992468100189213743.
Definition LOG2_BY_256 : float := 0.00270760617406228636491106297444600221904.
Definition LOG2_BY_256_INVERSE : float := 369.329930467574632284140718336484387181.

Definition TANH_COEFF_1 : float := 1.0.
Definition TANH_COEFF_3 : float := -0.333333333333333333333333333333333333334.
Definition TANH_COEFF_5 : float := 0.133333333333333333333333333333333333334.

(** [exp_table[i] = exp((i - 128) * log(2)/256)], 257 entries. *)
Definition exp_table : list float :=
  [
    0.707106781186547524400844362104849039284;
    0.709023942160207598920563322257676190836;
    0.710946301084582779904674297352120049962;
    0.71287387205274715340350157671438300618;
    0.714806669195985005617532889137569953044;
    0.71674470668389442125974978427737336719;
    0.71868799872449116280161304224785251353;
    0.720636559564312831364255957304947586072;
    0.72259040348852331001850312073583545284;
    0.724549544821017490259402705487111270714;
    0.726513997924526282423036245842287293786;
    0.728483777200721910815451524818606761737;
    0.730458897090323494325651445155310766577;
    0.732439372073202913296664682112279175616;
    0.734425216668490963430822513132890712652;
    0.736416445434683797507470506133110286942;
    0.738413072969749655693453740187024961962;
    0.740415113911235885228829945155951253966;
    0.742422582936376250272386395864403155277;
    0.744435494762198532693663597314273242753;
    0.746453864145632424600321765743336770838;
    0.748477705883617713391824861712720862423;
    0.750507034813212760132561481529764324813;
    0.752541865811703272039672277899716132493;
    0.75458221379671136988300977551659676571;
    0.756628093726304951096818488157633113612;
    0.75867952059910734940489114658718937343;
    0.760736509454407291763130627098242426467;
    0.762799075372269153425626844758470477304;
    0.76486723347364351194254345936342587308;
    0.766940998920478000900300751753859329456;
    0.769020386915828464216738479594307884331;
    0.771105412703970411806145931045367420652;
    0.773196091570510777431255778146135325272;
    0.77529243884249997956151370535341912283;
    0.777394469888544286059157168801667390437;
    0.779502200118918483516864044737428940745;
    0.781615644985678852072965367573877941354;
    0.783734819982776446532455855478222575498;
    0.78585974064617068462428149076570281356;
    0.787990422553943243227635080090952504452;
    0.790126881326412263402248482007960521995;
    0.79226913262624686505993407346567890838;
    0.794417192158581972116898048814333564685;
    0.796571075671133448968624321559534367934;
    0.798730798954313549131410147104316569576;
    0.800896377841346676896923120795476813684;
    0.803067828208385462848443946517563571584;
    0.805245165974627154089760333678700291728;
    0.807428407102430320039984581575729114268;
    0.809617567597431874649880866726368203972;
    0.81181266350866441589760797777344082227;
    0.814013710928673883424109261007007338614;
    0.816220725993637535170713864466769240053;
    0.818433724883482243883852017078007231025;
    0.82065272382200311435413206848451310067;
    0.822877739076982422259378362362911222833;
    0.825108786960308875483586738272485101678;
    0.827345883828097198786118571797909120834;
    0.829589046080808042697824787210781231927;
    0.831838290163368217523168228488195222638;
    0.834093632565291253329796170708536192903;
    0.836355089820798286809404612069230711295;
    0.83862267850893927589613232455870870518;
    0.84089641525371454303112547623321489504;
    0.84317631672419664796432298771385230143;
    0.84546239963465259098692866759361830709;
    0.84775468074466634749045860363936420312;
    0.850053176859261734750681286748751167545;
    0.852357904829025611837203530384718316326;
    0.854668881550231413551897437515331498025;
    0.856986123964963019301812477839166009452;
    0.859309649061238957814672188228156252257;
    0.861639473873136948607517116872358729753;
    0.863975615480918781121524414614366207052;
    0.866318091011155532438509953514163469652;
    0.868666917636853124497101040936083380124;
    0.871022112577578221729056715595464682243;
    0.873383693099584470038708278290226842228;
    0.875751676515939078050995142767930296012;
    0.878126080186649741556080309687656610647;
    0.880506921518791912081045787323636256171;
    0.882894217966636410521691124969260937028;
    0.885287987031777386769987907431242017412;
    0.88768824626326062627527960009966160388;
    0.89009501325771220447985955243623523504;
    0.892508305659467490072110281986409916153;
    0.8949281411607004980029443898876582985;
    0.897354537501553593213851621063890907178;
    0.899787512470267546027427696662514569756;
    0.902227083903311940153838631655504844215;
    0.904673269685515934269259325789226871994;
    0.907126087750199378124917300181170171233;
    0.909585556079304284147971563828178746372;
    0.91205169270352665549806275316460097744;
    0.914524515702448671545983912696158354092;
    0.91700404320467123174354159479414442804;
    0.919490293387946858856304371174663918816;
    0.921983284479312962533570386670938449637;
    0.92448303475522546419252726694739603678;
    0.92698956254169278419622653516884831976;
    0.929502886214410192307650717745572682403;
    0.932023024198894522404814545597236289343;
    0.934549994970619252444512104439799143264;
    0.93708381705514995066499947497722326722;
    0.93962450902828008902058735120448448827;
    0.942172089516167224843810351983745154882;
    0.944726577195469551733539267378681531548;
    0.947287990793482820670109326713462307376;
    0.949856349088277632361251759806996099924;
    0.952431670908837101825337466217860725517;
    0.955013975135194896221170529572799135168;
    0.957603280698573646936305635147915443924;
    0.960199606581523736948607188887070611744;
    0.962802971818062464478519115091191368377;
    0.965413395493813583952272948264534783197;
    0.968030896746147225299027952283345762418;
    0.970655494764320192607710617437589705184;
    0.973287208789616643172102023321302921373;
    0.97592605811548914795551023340047499377;
    0.978572062087700134509161125813435745597;
    0.981225240104463713381244885057070325016;
    0.983885611616587889056366801238014683926;
    0.98655319612761715646797006813220671315;
    0.989228013193975484129124959065583667775;
    0.99191008242510968492991311132615581644;
    0.994599423483633175652477686222166314457;
    0.997296056085470126257659913847922601123;
    1.0;
    1.00271127505020248543074558845036204047;
    1.0054299011128028213513839559347998147;
    1.008155898118417515783094890817201039276;
    1.01088928605170046002040979056186052439;
    1.013630084951489438840258929063939929597;
    1.01637831491095303794049311378629406276;
    1.0191339960777379496848780958207928794;
    1.02189714865411667823448013478329943978;
    1.02466779289713564514828907627081492763;
    1.0274459491187636965388611939222137815;
    1.030231637686041012871707902453904567093;
    1.033024879021228422500108283970460918086;
    1.035825693601957120029983209018081371844;
    1.03863410196137879061243669795463973258;
    1.04145012468831614126454607901189312648;
    1.044273782427413840321966478739929008784;
    1.04710509587928986612990725022711224056;
    1.04994408580068726608203812651590790906;
    1.05279077300462632711989120298074630319;
    1.05564517836055715880834132515293865216;
    1.058507322794512690105772109683716645074;
    1.061377227289262080950567678003883726294;
    1.06425491288446454978861125700158022068;
    1.06714040067682361816952112099280916261;
    1.0700337118202417735424119367576235685;
    1.072934867525975551385035450873827585343;
    1.075843889062791037803228648476057074063;
    1.07876079775711979374068003743848295849;
    1.081685614993215201942115594422531125643;
    1.08461836221330923781610517190661434161;
    1.087559060917769665346797830944039707867;
    1.09050773266525765920701065576070797899;
    1.09346439907288585422822014625044716208;
    1.096429081816376823386138295859248481766;
    1.09940180263022198546369696823882990404;
    1.10238258330784094355641420942564685751;
    1.10537144570174125558827469625695031104;
    1.108368411723678638009423649426619850137;
    1.111373503344817603850149254228916637444;
    1.1143867425958925363088129569196030678;
    1.11740815156736919905457996308578026665;
    1.12043775240960668442900387986631301277;
    1.123475567333019800733729739775321431954;
    1.12652161860824189979479864378703477763;
    1.129575928566288145997264988840249825907;
    1.13263851959871922798707372367762308438;
    1.13570941415780551424039033067611701343;
    1.13878863475669165370383028384151125472;
    1.14187620396956162271229760828788093894;
    1.14497214443180421939441388822291589579;
    1.14807647884017900677879966269734268003;
    1.15118922995298270581775963520198253612;
    1.154310420590216039548221528724806960684;
    1.157440073633751029613085766293796821106;
    1.16057821202749874636945947257609098625;
    1.16372485877757751381357359909218531234;
    1.166880036952481570555516298414089287834;
    1.170043769683250188080259035792738573;
    1.17321608016363724753480435451324538889;
    1.176396991650281276284645728483848641054;
    1.17958652746287594548610056676944051898;
    1.182784710984341029924457204693850757966;
    1.18599156566099383137126564953421556374;
    1.18920711500272106671749997056047591529;
    1.19243138258315122214272755814543101148;
    1.195664392039827374583837049865451975705;
    1.19890616707438048177030255797630020695;
    1.202156731452703142096396957497765876003;
    1.205416109005123825604211432558411335666;
    1.208684323626581577354792255889216998484;
    1.21196139927680119446816891773249304545;
    1.215247359980468878116520251338798457624;
    1.218542229827408361758207148117394510724;
    1.221846032972757516903891841911570785836;
    1.225158793637145437709464594384845353707;
    1.22848053610687000569400895779278184036;
    1.2318112847340759358845566532127948166;
    1.235151063936933305692912507415415760294;
    1.238499898199816567833368865859612431545;
    1.24185781207348404859367746872659560551;
    1.24522483017525793277520496748615267417;
    1.24860097718920473662176609730249554519;
    1.25198627786631627006020603178920359732;
    1.255380757024691089579390657442301194595;
    1.25878443954971644307786044181516261876;
    1.26219735039425070801401025851841645967;
    1.265619514578806324196273999873453036296;
    1.26905095719173322255441908103233800472;
    1.27249170338940275123669204418460217677;
    1.27594177839639210038120243475928938891;
    1.27940120750566922691358797002785254596;
    1.28287001607877828072666978102151405111;
    1.286348229546025533601482208069738348355;
    1.28983587340666581223274729549155218968;
    1.293332973229089436725559789048704304684;
    1.296839554651009665933754117792451159835;
    1.30035564337965065101414056707091779129;
    1.30388126519193589857452364895199736833;
    1.30741644593467724479715157747196172848;
    1.310961211524764341922991786330755849366;
    1.314515587949354658485983613383997794965;
    1.318079601266063994690185647066116617664;
    1.32165327760315751432651181233060922616;
    1.32523664315974129462953709549872167411;
    1.32882972420595439547865089632866510792;
    1.33243254708316144935164337949073577407;
    1.33604513820414577344262790437186975929;
    1.33966752405330300536003066972435257602;
    1.34329973118683526382421714618163087542;
    1.346941786232945835788173713229537282075;
    1.35059371589203439140852219606013396004;
    1.35425554693689272829801474014070280434;
    1.357927306212901046494536695671766697446;
    1.36160902063822475558553593883194147464;
    1.36530071720401181543069836033754285543;
    1.36900242297459061192960113298219283217;
    1.37271416508766836928499785714471721579;
    1.37643597075453010021632280551868696026;
    1.380167867260238095581945274358283464697;
    1.383909881963831954872659527265192818;
    1.387662042298529159042861017950775988896;
    1.39142437577192618714983552956624344668;
    1.395196909966200178275574599249220994716;
    1.398979672538311140209528136715194969206;
    1.40277269122020470637471352433337881711;
    1.40657599381901544248361973255451684411;
    1.410389608217270704414375128268675481145;
    1.41421356237309504880168872420969807857
  ].

(** [exp_table[i]] for an [int] index. *)
Definition table_at (i : Z) : outcome float :=
  if (i <? 0)%Z then Undefined ReadOutOfBounds
  else match nth_error exp_table (Z.to_nat i) with
       | Some e => Ret e
       | None => Undefined ReadOutOfBounds
       end.

(** [for (int i = 0; i < n; i++) ret *= 2;] runs [n] times for [n > 0] and
    not at all otherwise: [k] is the number of iterations left. *)
Fixpoint scale_loop (k : nat) (ret : float) : float :=
  match k with
  | O => ret
  | S k' => scale_loop k' (ret * 2)
  end.

(** The integers [n] and [m] of the decomposition [x = n + m/256 + y/log(2)],
    from [nm = round (x * 256.0)]. *)
Definition decompose (nm : float) : outcome (Z * Z) :=
  n <- int_of_double (round (nm * (1.0 / 256.0))) ;;
  nm_int <- int_of_double nm ;;
  let m := int_sub nm_int (int_mul 256 n) in
  Ret (n, m).

Definition exp2 (x : float) : outcome float :=
  if double_of_int DBL_MAX_EXP <? x then Ret HUGE_VAL
  else if x <? double_of_int (DBL_MIN_EXP - 1 - DBL_MANT_DIG) then Ret 0.0
  else
    let nm := round (x * 256.0) in
    let z := (x * 256.0 - nm) * (LOG2_BY_256 * 0.5) in
    let z2 := z * z in
    let tanh_z :=
      ((TANH_COEFF_5 * z2 + TANH_COEFF_3) * z2 + TANH_COEFF_1) * z in
    let exp_y := (1.0 + tanh_z) / (1.0 - tanh_z) in
    nmi <- decompose nm ;;
    let '(n, m) := nmi in
    e <- table_at (int_add 128 m) ;;
    let ret := e * exp_y in
    Ret (scale_loop (Z.to_nat n) ret).

Close Scope float_scope.

(** ** The z-base-32 encoder *)

Definition zbase32_alpha : list ascii :=
  ["y"; "b"; "n"; "d"; "r"; "f"; "g"; "8";
   "e"; "j"; "k"; "m"; "c"; "p"; "q"; "x";
   "o"; "t"; "1"; "u"; "w"; "i"; "s"; "z";
   "a"; "3"; "4"; "5"; "h"; "7"; "6"; "9"]%char.

(** [sizeof(stack)] for the [char[64]] the caller passes. *)
Definition sizeof_stack : nat := 64.

(** [value[i]] on a [std::vector<uint8_t>]. *)
Definition byte_at (value : list Z) (i : nat) : outcome Z :=
  match nth_error value i with
  | Some b => Ret b
  | None => Undefined ReadOutOfBounds
  end.

(** [zbase32_alpha[ind]]. *)
Definition alpha_at (ind : Z) : outcome ascii :=
  if (ind <? 0)%Z then Undefined ReadOutOfBounds
  else match nth_error zbase32_alpha (Z.to_nat ind) with
       | Some c => Ret c
       | None => Undefined ReadOutOfBounds
       end.

(** [stack[i] = c]. *)
Fixpoint poke (stack : list ascii) (i : nat) (c : ascii) : outcome (list ascii) :=
  match stack, i with
  | [], _ => Undefined WriteOutOfBounds
  | _ :: rest, O => Ret (c :: rest)
  | a :: rest, S i' => rest' <- poke rest i' c ;; Ret (a :: rest')
  end.

(** The [if (bits < 5)] block at the head of the loop body: the new
    [tmp], [pos] and [bits]. *)
Definition refill (value : list Z) (pos : nat) (bits tmp : Z)
  : outcome (Z * nat * Z) :=
  if (bits <? 5)%Z then
    if (pos <? List.length value)%nat then
      b <- byte_at value pos ;;
      let tmp := int_shl tmp 8 in
      let tmp := Z.lor tmp (Z.land b 255) in
      Ret (tmp, S pos, int_add bits 8)
    else
      Ret (int_shl tmp (int_sub 5 bits), pos, 5%Z)
  else Ret (tmp, pos, bits).

(** The [while] loop of [base32z_encode].  [Some stack] is the return of
    [&stack[0]] with the buffer as the loop left it, [None] the return of
    [nullptr].  Every iteration increments [ret] and the guard asks for
    [ret < sizeof(stack)], so [sizeof(stack) + 1] units of fuel are enough
    (see [encode_loop_run]). *)
Fixpoint encode_loop (fuel : nat) (value : list Z) (ret pos : nat)
    (bits tmp : Z) (stack : list ascii) : outcome (option (list ascii)) :=
  match fuel with
  | O => OutOfFuel
  | S fuel' =>
      if (ret <? sizeof_stack)%nat
         && ((0 <? bits)%Z || (pos <? List.length value)%nat)
      then
        st <- refill value pos bits tmp ;;
        let '(tmp, pos, bits) := st in
        let bits := int_sub bits 5 in
        let ind := Z.land (int_shr tmp bits) 31 in
        if (ret <? sizeof_stack)%nat then
          c <- alpha_at ind ;;
          stack <- poke stack ret c ;;
          encode_loop fuel' value (S ret) pos bits tmp stack
        else Ret None
      else Ret (Some stack)
  end.

Definition base32z_encode (value : list Z) (stack : list ascii)
  : outcome (option (list ascii)) :=
  tmp <- byte_at value 0 ;;
  encode_loop (S sizeof_stack) value 0 1 8 tmp stack.

(** *** [loki::hex64_to_base32z] *)

(** The code of a [char].  The three range tests of the decoder fail for
    every code above 127 whether [char] is signed or not, so the unsigned
    code is used. *)
Definition char_code (ch : ascii) : Z := Z.of_N (N_of_ascii ch).

(** Conversion of an [int] to [uint8_t]. *)
Definition to_uint8 (v : Z) : Z := v mod 256.

(** The lambda handed to [std::transform]. *)
Definition hex_nibble (ch : ascii) : Z :=
  let c := char_code ch in
  if (char_code "0" <=? c)%Z && (c <=? char_code "9")%Z then to_uint8 (c - 48)
  else if (char_code "A" <=? c)%Z && (c <=? char_code "F")%Z then to_uint8 (c - 55)
  else if (char_code "a" <=? c)%Z && (c <=? char_code "f")%Z then to_uint8 (c - 87)
  else 0%Z.

(** [std::transform (src.begin (), src.end (), std::back_inserter (bin), ...)]. *)
Definition decode_hex (src : string) : list Z :=
  List.map hex_nibble (list_ascii_of_string src).

(** [char buf[64] = {0}]. *)
Definition zero_buf : list ascii := List.repeat Ascii.zero sizeof_stack.

(** The characters of a C string: those before the first NUL of the buffer.
    [strlen] on a buffer without a NUL reads past its end. *)
Fixpoint c_str (buf : list ascii) : outcome string :=
  match buf with
  | [] => Undefined NoTerminator
  | c :: rest =>
      if Ascii.eqb c Ascii.zero then Ret EmptyString
      else s <- c_str rest ;; Ret (String c s)
  end.

Inductive assertion : Type := AssertionFailed.

(** [assert (src.size () <= 64)] aborts the call; otherwise the body runs. *)
Definition hex64_to_base32z (src : string) : assertion + outcome string :=
  if (String.length src <=? 64)%nat then
    inr (let bin := decode_hex src in
         let buf := zero_buf in
         dest <- base32z_encode bin buf ;;
         match dest with
         | Some dest => c_str dest
         | None => Ret EmptyString
         end)
  else inl AssertionFailed.

(** [ceil (8 * N / 5)]. *)
Definition ceil_8N_over_5 (N : nat) : nat := (8 * N + 4) / 5.

(** The decoder in the words of its description: a digit is its value, a
    letter of [A-F] or [a-f] is ten plus its rank, anything else is zero. *)
Fixpoint rank_in (ch : ascii) (digits : list ascii) : option Z :=
  match digits with
  | [] => None
  | d :: rest =>
      if Ascii.eqb ch d then Some 0%Z
      else option_map Z.succ (rank_in ch rest)
  end.

Definition nibble_of_char (ch : ascii) : Z :=
  match rank_in ch (list_ascii_of_string "0123456789") with
  | Some v => v
  | None =>
      match rank_in ch (list_ascii_of_string "ABCDEF") with
      | Some v => (10 + v)%Z
      | None =>
          match rank_in ch (list_ascii_of_string "abcdef") with
          | Some v => (10 + v)%Z
          | None => 0%Z
          end
      end
  end.

(** [2.0^n] as a double, for [n] in the normal range. *)
Definition pow2 (n : Z) : float := Z.ldexp 1%float n.

(** ** Auxiliary definitions of the proofs *)

Open Scope Z_scope.

(** The integers from [lo] upwards, [k] of them. *)
Fixpoint int_range (lo : Z) (k : nat) : list Z :=
  match k with
  | O => []
  | S k' => lo :: int_range (lo + 1) k'
  end.

(** The bits still to be encoded at the head of the loop: those left in
    [tmp] and those of the bytes not yet read. *)
Definition bits_left (value : list Z) (pos : nat) (bits : Z) : Z :=
  bits + 8 * Z.of_nat (List.length value - pos).

(** The 5-bit groups the loop still emits with [room] free characters. *)
Definition groups_left (value : list Z) (pos : nat) (bits : Z) (room : nat) : nat :=
  Z.to_nat (Z.min ((bits_left value pos bits + 4) / 5) (Z.of_nat room)).

(** The symbols [base32z_encode] writes for [N] input bytes: one per 5-bit
    group, up to the capacity of the buffer. *)
Definition symbols_written (N : nat) : nat :=
  Nat.min (ceil_8N_over_5 N) sizeof_stack.

(** The key of 64 zero digits, the longest argument the assertion admits. *)
Definition zero_key : string := string_of_list_ascii (List.repeat "0"%char 64).

(** [fexp] of binary64. *)
Definition fexp64 (e : Z) : Z := Z.max (e - 53) (-1074).

(** The last step of [binary_round_aux]. *)
Definition finish (s : bool) (m e : Z) : spec_float :=
  match m with
  | Z0 => S754_zero s
  | Zpos p => if e <=? 971 then S754_finite s p e else S754_infinity s
  | Zneg _ => S754_nan
  end.

(** The double of the integer [K], with the sign [s]. *)
Definition int_sf (s : bool) (K : Z) : spec_float :=
  binary_normalize prec emax (cond_Zopp s K) 0 false.

Definition sf_half : spec_float := S754_finite false 4503599627370496 (-53).
Definition sf_one : spec_float := S754_finite false 4503599627370496 (-52).
Definition sf_two52 : spec_float := S754_finite false 4503599627370496 0.

(** Adding the positive constant [c] to the magnitude of [x]: [x + c] for a
    positive [x] and [x - c] for a negative one. *)
Definition sf_away (s : bool) (x c : spec_float) : spec_float :=
  if s then SF64sub x c else SF64add x c.

(** Taking [c] from the magnitude of [x]. *)
Definition sf_toward (s : bool) (x c : spec_float) : spec_float :=
  if s then SF64add x c else SF64sub x c.

(** The integer nearest to [k / 256], ties away from zero. *)
Definition nearest_away (k : Z) : Z :=
  if 0 <=? k then (k + 128) / 256 else - ((- k + 128) / 256).

(** [m1 * 2^e1 < m2 * 2^e2] for two 53-bit mantissas. *)
Definition magnitude_lt (m1 : positive) (e1 : Z) (m2 : positive) (e2 : Z) : Prop :=
  e1 < e2 \/ (e1 = e2 /\ Zpos m1 < Zpos m2).

(** *** The encoding in the words of z-base-32 *)

(** A [uint8_t]. *)
Definition is_byte (b : Z) : Prop := 0 <= b < 256.

(** The bytes of a vector read as one big-endian number, behind the digits
    of [acc]. *)
Fixpoint be_number (acc : Z) (value : list Z) : Z :=
  match value with
  | [] => acc
  | b :: rest => be_number (acc * 256 + b) rest
  end.

(** The [j]-th group of five bits of the bit string of [value], counted from
    the most significant bit of [value[0]].  The last group ends [r] bits
    before the end of the string; when the string ends inside the group,
    [r] is negative, [Z.shiftr] by [r] shifts left and the group is filled
    with zero bits. *)
Definition group (value : list Z) (j : nat) : Z :=
  Z.land (Z.shiftr (be_number 0 value)
            (8 * Z.of_nat (List.length value) - 5 * (Z.of_nat j + 1))) 31.

Definition symbol (value : list Z) (j : nat) : ascii :=
  nth (Z.to_nat (group value j)) zbase32_alpha "y"%char.

(** The z-base-32 encoding of a byte vector: one symbol for each group of
    five bits. *)
Definition zbase32 (value : list Z) : list ascii :=
  List.map (symbol value) (seq 0 (ceil_8N_over_5 (List.length value))).

(** Two values of [tmp] with the same 32 bits. *)
Definition agree32 (x y : Z) : Prop :=
  forall i, 0 <= i < 32 -> Z.testbit x i = Z.testbit y i.

(** The invariant of the loop of [base32z_encode] before the last, padded
    group: [pos] bytes are read, [bits] of their bits are still to be
    written, and [tmp] holds the bytes read. *)
Definition live (value : list Z) (ret pos : nat) (bits tmp : Z) : Prop :=
  (pos <= List.length value)%nat /\
  5 * Z.of_nat ret + bits = 8 * Z.of_nat pos /\
  agree32 tmp (be_number 0 (firstn pos value)).

(** *** The value of [round] *)

(** The integer nearest to [m * 2^e], ties upwards:
    [floor (m * 2^e + 1/2)]. *)
Definition half_away (m : positive) (e : Z) : Z :=
  if 0 <=? e then Zpos m * 2 ^ e else (Zpos m + 2 ^ (- e - 1)) / 2 ^ (- e).

(** Rounding to the nearest integer, ties away from zero, on the values of
    binary64: the magnitude of a finite number is rounded by [half_away] and
    the sign is kept, also on a zero result; the other values stay. *)
Definition round_value (x : spec_float) : spec_float :=
  match x with
  | S754_finite s m e =>
      if half_away m e =? 0 then S754_zero s else int_sf s (half_away m e)
  | _ => x
  end.

(** Whether [exp2] maps the integer [n] to [2^n], or to [1.0] when [n] is
    negative. *)
Definition exact_on_integer (n : Z) : bool :=
  match exp2 (double_of_int n) with
  | Ret r => Leibniz.eqb r (pow2 (Z.max n 0))
  | _ => false
  end.

(** *** Magnitudes and signs *)

(** [|x| < 2^k], for a zero or a finite [x]. *)
Definition below_pow2 (k : Z) (x : spec_float) : Prop :=
  match x with
  | S754_zero _ => True
  | S754_finite _ m e => Zpos (digits2_pos m) + e <= k
  | _ => False
  end.

(** A zero, a positive number or plus infinity. *)
Definition nonnegative (x : spec_float) : Prop :=
  match x with
  | S754_zero _ => True
  | S754_infinity s => s = false
  | S754_finite s _ _ => s = false
  | S754_nan => False
  end.

(** A positive [x] with [2^k <= x]: a number of that size, or plus
    infinity. *)
Definition at_least (k : Z) (x : spec_float) : Prop :=
  match x with
  | S754_infinity s => s = false
  | S754_finite s m e => s = false /\ k + 1 <= Zpos (digits2_pos m) + e
  | _ => False
  end.

Close Scope Z_scope.

(** * Machine integers *)

Section MachineIntegers.
Open Scope Z_scope.

Lemma wrap_int_small (v : Z) : INT_MIN <= v <= INT_MAX -> wrap_int v = v.
Proof.
  unfold INT_MIN, INT_MAX, wrap_int. intro H.
  rewrite Z.mod_small; lia.
Qed.

Lemma small_int_arith (a b : Z) :
  -64 <= a <= 64 -> -64 <= b <= 64 ->
  int_add a b = a + b /\ int_sub a b = a - b.
Proof.
  intros Ha Hb. unfold int_add, int_sub.
  split; apply wrap_int_small; unfold INT_MIN, INT_MAX; lia.
Qed.

End MachineIntegers.

(** * Binary64 arithmetic

    What the proofs need of [SpecFloat]: the digits of a mantissa, the right
    shifts of [binary_round_aux], exact and rounded results of [binary_round],
    and from them the additions, subtractions and comparisons [round]
    performs. *)

Section Binary64.
Open Scope Z_scope.

Ltac same_power :=
  match goal with
  | |- _ * 2 ^ ?a = _ * 2 ^ ?b => replace a with b by lia; reflexivity
  end.

Lemma fexp64_eq (e : Z) : fexp prec emax e = fexp64 e.
Proof. reflexivity. Qed.

(** *** Number of binary digits *)

Lemma digits2_pos_bounds (p : positive) :
  2 ^ (Zpos (digits2_pos p) - 1) <= Zpos p < 2 ^ Zpos (digits2_pos p).
Proof.
  induction p as [p IH | p IH |]; cbn [digits2_pos].
  - rewrite Pos2Z.inj_succ.
    replace (Z.succ (Zpos (digits2_pos p)) - 1) with (Z.succ (Zpos (digits2_pos p) - 1)) by lia.
    rewrite !Z.pow_succ_r by lia. lia.
  - rewrite Pos2Z.inj_succ.
    replace (Z.succ (Zpos (digits2_pos p)) - 1) with (Z.succ (Zpos (digits2_pos p) - 1)) by lia.
    rewrite !Z.pow_succ_r by lia. lia.
  - cbn. lia.
Qed.

Lemma digits2_pos_unique (p : positive) (d : Z) :
  2 ^ (d - 1) <= Zpos p < 2 ^ d -> Zpos (digits2_pos p) = d.
Proof.
  intros [Hlo Hhi]. destruct (digits2_pos_bounds p) as [Hlo' Hhi'].
  assert (Hd : 0 < d).
  { destruct (Z_lt_le_dec 0 d) as [H | H]; [exact H |].
    assert (2 ^ d <= 2 ^ 0) by (apply Z.pow_le_mono_r; lia).
    change (2 ^ 0) with 1 in *. lia. }
  assert (H1 : d - 1 < Zpos (digits2_pos p)).
  { apply (Z.pow_lt_mono_r_iff 2); lia. }
  assert (H2 : Zpos (digits2_pos p) - 1 < d).
  { apply (Z.pow_lt_mono_r_iff 2); lia. }
  lia.
Qed.

Lemma digits2_shift (p q : positive) (k : Z) :
  0 <= k -> Zpos q = Zpos p * 2 ^ k ->
  Zpos (digits2_pos q) = Zpos (digits2_pos p) + k.
Proof.
  intros Hk Hq. apply digits2_pos_unique.
  destruct (digits2_pos_bounds p) as [Hlo Hhi]. rewrite Hq.
  replace (Zpos (digits2_pos p) + k - 1) with (Zpos (digits2_pos p) - 1 + k) by lia.
  rewrite !Z.pow_add_r by lia.
  assert (0 < 2 ^ k) by (apply Z.pow_pos_nonneg; lia).
  split; [apply Z.mul_le_mono_nonneg_r | apply Z.mul_lt_mono_pos_r]; lia.
Qed.

(** *** Shifts *)

Lemma iter_pos_nat {A : Type} (f : A -> A) (p : positive) (x : A) :
  iter_pos f p x = Nat.iter (Pos.to_nat p) f x.
Proof.
  revert x. induction p as [p IH | p IH |]; intro x; cbn [iter_pos].
  - rewrite !IH. rewrite Pos2Nat.inj_xI.
    replace (S (2 * Pos.to_nat p)) with (Pos.to_nat p + Pos.to_nat p + 1)%nat by lia.
    rewrite !Nat.iter_add. reflexivity.
  - rewrite !IH. rewrite Pos2Nat.inj_xO.
    replace (2 * Pos.to_nat p)%nat with (Pos.to_nat p + Pos.to_nat p)%nat by lia.
    rewrite Nat.iter_add. reflexivity.
  - reflexivity.
Qed.

Lemma shr_1_fields (r : shr_record) :
  0 <= shr_m r ->
  shr_m (shr_1 r) = shr_m r / 2 /\
  shr_r (shr_1 r) = Z.odd (shr_m r) /\
  shr_s (shr_1 r) = shr_r r || shr_s r.
Proof.
  destruct r as [m b s]. cbn [shr_m shr_r shr_s]. intro Hm.
  destruct m as [| [p | p |] | p]; try lia; cbn [shr_1 shr_m shr_r shr_s].
  - repeat split.
  - repeat split. rewrite Pos2Z.inj_xI.
    apply Z.div_unique with (r := 1); lia.
  - repeat split. rewrite Pos2Z.inj_xO.
    apply Z.div_unique with (r := 0); lia.
  - repeat split.
Qed.

(** [k] right shifts of an exact record divide the mantissa by [2^k], and
    leave the record exact when nothing is shifted out. *)
Lemma shr_iter (M : Z) (k : nat) :
  0 <= M ->
  let r := Nat.iter k shr_1 (Build_shr_record M false false) in
  shr_m r = M / 2 ^ Z.of_nat k /\
  (M mod 2 ^ Z.of_nat k = 0 -> shr_r r = false /\ shr_s r = false).
Proof.
  intro HM. induction k as [| k IH]; cbn zeta.
  - cbn. split; [rewrite Z.div_1_r; reflexivity | auto].
  - rewrite Nat.iter_succ. cbn zeta in IH. destruct IH as [IHm IHx].
    set (r := Nat.iter k shr_1 {| shr_m := M; shr_r := false; shr_s := false |}) in *.
    assert (Hpow : 0 < 2 ^ Z.of_nat k) by (apply Z.pow_pos_nonneg; lia).
    assert (Hr : 0 <= shr_m r) by (rewrite IHm; apply Z.div_pos; lia).
    destruct (shr_1_fields r Hr) as (Hm1 & Hr1 & Hs1).
    rewrite Nat2Z.inj_succ, Z.pow_succ_r by lia.
    split.
    + rewrite Hm1, IHm. rewrite Z.div_div by lia. f_equal. lia.
    + intro Hdiv.
      assert (Hq : M = 2 ^ Z.of_nat k * (2 * (M / (2 * 2 ^ Z.of_nat k)))).
      { pose proof (Z.div_mod M (2 * 2 ^ Z.of_nat k)). lia. }
      assert (Hmod : M mod 2 ^ Z.of_nat k = 0).
      { rewrite Hq. rewrite Z.mul_comm. apply Z.mod_mul. lia. }
      destruct (IHx Hmod) as [Er Es].
      rewrite Hr1, Hs1, Er, Es, IHm. split; [| reflexivity].
      rewrite Hq at 1. rewrite Z.mul_comm, Z.div_mul by lia.
      rewrite Z.odd_mul. reflexivity.
Qed.

Lemma shr_nonpositive (r : shr_record) (e n : Z) : n <= 0 -> shr r e n = (r, e).
Proof. destruct n; [reflexivity | lia | reflexivity]. Qed.

Lemma shr_of_exact (M e n : Z) :
  0 <= M -> 0 <= n ->
  exists r,
    shr (Build_shr_record M false false) e n = (r, e + n) /\
    shr_m r = M / 2 ^ n /\
    (M mod 2 ^ n = 0 -> loc_of_shr_record r = loc_Exact).
Proof.
  intros HM Hn. destruct n as [| p | p]; [| | lia].
  - exists (Build_shr_record M false false). rewrite Z.add_0_r.
    cbn [shr shr_m loc_of_shr_record]. rewrite Z.div_1_r. auto.
  - cbn [shr]. rewrite iter_pos_nat.
    destruct (shr_iter M (Pos.to_nat p) HM) as [Hm Hx].
    rewrite positive_nat_Z in Hm, Hx.
    eexists. split; [reflexivity |]. split; [exact Hm |].
    intro Hdiv. destruct (Hx Hdiv) as [Er Es].
    destruct (Nat.iter (Pos.to_nat p) shr_1 _) as [m b c].
    cbn [shr_r shr_s] in Er, Es. subst b c. reflexivity.
Qed.

Lemma round_nearest_even_cases (m : Z) (l : location) :
  (round_nearest_even m l = m \/ round_nearest_even m l = m + 1) /\
  (l = loc_Exact -> round_nearest_even m l = m).
Proof.
  split; [| intros ->; reflexivity].
  destruct l as [| []]; cbn [round_nearest_even]; auto.
  destruct (Z.even m); auto.
Qed.

(** [binary_round_aux] on an exact positive mantissa that has to be shifted
    right by [n >= 0]: the quotient, or the quotient plus one, renormalised. *)
Lemma binary_round_aux_shape (s : bool) (M E : Z) :
  0 < M ->
  let ex := fexp64 (Zdigits2 M + E) in
  E <= ex ->
  exists m2,
    (m2 = M / 2 ^ (ex - E) \/ m2 = M / 2 ^ (ex - E) + 1) /\
    (M mod 2 ^ (ex - E) = 0 -> m2 = M / 2 ^ (ex - E)) /\
    binary_round_aux prec emax s M E loc_Exact
    = let n2 := fexp64 (Zdigits2 m2 + ex) - ex in
      if 0 <? n2 then finish s (m2 / 2 ^ n2) (ex + n2) else finish s m2 ex.
Proof.
  intros HM ex Hex.
  unfold binary_round_aux, shr_fexp. rewrite !fexp64_eq. fold ex.
  cbn [shr_record_of_loc].
  destruct (shr_of_exact M E (ex - E)) as (r1 & Hshr & Hm1 & Hx1); [lia | lia |].
  rewrite Hshr. replace (E + (ex - E)) with ex by lia.
  set (m2 := round_nearest_even (shr_m r1) (loc_of_shr_record r1)).
  destruct (round_nearest_even_cases (shr_m r1) (loc_of_shr_record r1)) as [Hcases Hexact].
  fold m2 in Hcases, Hexact. rewrite Hm1 in Hcases, Hexact.
  assert (Hm2 : 0 <= m2).
  { assert (0 <= M / 2 ^ (ex - E)) by (apply Z.div_pos; [lia | apply Z.pow_pos_nonneg; lia]).
    lia. }
  exists m2. split; [exact Hcases |]. split; [intro Hdiv; apply Hexact, Hx1, Hdiv |].
  rewrite !fexp64_eq. cbn zeta.
  set (n2 := fexp64 (Zdigits2 m2 + ex) - ex).
  destruct (0 <? n2) eqn:En2.
  - apply Z.ltb_lt in En2.
    destruct (shr_of_exact m2 ex n2) as (r2 & Hshr2 & Hm2' & _); [lia | lia |].
    rewrite Hshr2, Hm2'. reflexivity.
  - apply Z.ltb_ge in En2. rewrite shr_nonpositive by exact En2.
    cbn [shr_m]. reflexivity.
Qed.

Lemma Zdigits2_pos (p : positive) : Zdigits2 (Zpos p) = Zpos (digits2_pos p).
Proof. reflexivity. Qed.

Lemma digits_of_quotient (M q n : Z) :
  0 < M -> 0 <= n -> M = q * 2 ^ n -> Zdigits2 q = Zdigits2 M - n.
Proof.
  intros HM Hn HMq.
  assert (Hpow : 0 < 2 ^ n) by (apply Z.pow_pos_nonneg; lia).
  assert (Hq : 0 < q) by nia.
  destruct M as [| pm | pm]; try lia. destruct q as [| pq | pq]; try lia.
  rewrite !Zdigits2_pos. rewrite (digits2_shift pq pm n Hn HMq). lia.
Qed.

(** An exact result: the mantissa is a multiple of the power of two that is
    shifted out. *)
Lemma binary_round_aux_exact (s : bool) (M E : Z) :
  0 < M ->
  let ex := fexp64 (Zdigits2 M + E) in
  E <= ex -> ex <= 971 -> M mod 2 ^ (ex - E) = 0 ->
  exists p,
    binary_round_aux prec emax s M E loc_Exact = S754_finite s p ex /\
    M = Zpos p * 2 ^ (ex - E).
Proof.
  intros HM ex Hex Hmax Hdiv.
  destruct (binary_round_aux_shape s M E HM Hex) as (m2 & _ & Hexact & Hres).
  fold ex in Hexact, Hres. specialize (Hexact Hdiv).
  assert (Hpow : 0 < 2 ^ (ex - E)) by (apply Z.pow_pos_nonneg; lia).
  assert (HMq : M = m2 * 2 ^ (ex - E)).
  { subst m2. pose proof (Z.div_mod M (2 ^ (ex - E))). lia. }
  assert (Hd : Zdigits2 m2 = Zdigits2 M - (ex - E))
    by (apply digits_of_quotient; [exact HM | lia | exact HMq]).
  cbn zeta in Hres. rewrite Hd in Hres.
  replace (Zdigits2 M - (ex - E) + ex) with (Zdigits2 M + E) in Hres by lia.
  fold ex in Hres. replace (ex - ex) with 0 in Hres by lia.
  cbn [Z.ltb Z.compare] in Hres.
  assert (Hm2 : 0 < m2) by nia.
  destruct m2 as [| p | p]; try lia.
  exists p. split; [| exact HMq].
  rewrite Hres. unfold finish.
  replace (ex <=? 971) with true by (symmetry; apply Z.leb_le; exact Hmax).
  reflexivity.
Qed.

(** A rounded result in the normal range: the mantissa has more than 53
    digits, the quotient has exactly 53, and the result is the quotient or its
    successor. *)
Lemma binary_round_aux_normal (s : bool) (M E : Z) :
  0 < M ->
  let ex := Zdigits2 M + E - 53 in
  -1074 <= ex -> E <= ex -> ex + 1 <= 971 ->
  let q := M / 2 ^ (ex - E) in
  2 ^ 52 <= q < 2 ^ 53 /\
  exists p e,
    binary_round_aux prec emax s M E loc_Exact = S754_finite s p e /\
    ((e = ex /\ (Zpos p = q \/ Zpos p = q + 1) /\ Zpos p < 2 ^ 53) \/
     (e = ex + 1 /\ Zpos p = 2 ^ 52 /\ q + 1 = 2 ^ 53)).
Proof.
  intros HM ex Hmin Hex Hmax q.
  assert (Hfexp : fexp64 (Zdigits2 M + E) = ex) by (unfold fexp64; lia).
  assert (Eex : ex = Zdigits2 M + E - 53) by reflexivity.
  clearbody ex.
  destruct (binary_round_aux_shape s M E HM) as (m2 & Hcases & _ & Hres);
    rewrite Hfexp in *; [exact Hex |].
  fold q in Hcases.
  assert (Hpow : 0 < 2 ^ (ex - E)) by (apply Z.pow_pos_nonneg; lia).
  assert (Hq : 2 ^ 52 <= q < 2 ^ 53).
  { destruct M as [| pm | pm]; try lia.
    destruct (digits2_pos_bounds pm) as [Hlo Hhi].
    rewrite Zdigits2_pos in *.
    assert (Ed : Zpos (digits2_pos pm) = 53 + (ex - E)) by lia.
    rewrite Ed in Hlo, Hhi.
    replace (53 + (ex - E) - 1) with (52 + (ex - E)) in Hlo by lia.
    rewrite Z.pow_add_r in Hlo, Hhi by lia.
    unfold q. split.
    - apply Z.div_le_lower_bound; lia.
    - apply Z.div_lt_upper_bound; lia. }
  split; [exact Hq |].
  cbn zeta in Hres.
  assert (Hm2 : 2 ^ 52 <= m2 <= 2 ^ 53) by lia.
  destruct (Z.eq_dec m2 (2 ^ 53)) as [Ecarry | Hno].
  - rewrite Ecarry in Hres.
    change (Zdigits2 (2 ^ 53)) with 54 in Hres.
    replace (fexp64 (54 + ex) - ex) with 1 in Hres by (unfold fexp64; lia).
    cbn [Z.ltb Z.compare] in Hres.
    change (2 ^ 53 / 2 ^ 1) with (Zpos 4503599627370496) in Hres.
    unfold finish in Hres.
    replace (ex + 1 <=? 971) with true in Hres by (symmetry; apply Z.leb_le; lia).
    exists 4503599627370496%positive, (ex + 1). split; [exact Hres |].
    right. split; [reflexivity |]. split; [reflexivity |]. lia.
  - destruct m2 as [| p | p]; try lia.
    assert (Hd : Zdigits2 (Zpos p) = 53).
    { rewrite Zdigits2_pos. apply digits2_pos_unique. change (53 - 1) with 52. lia. }
    rewrite Hd in Hres.
    replace (fexp64 (53 + ex) - ex) with 0 in Hres by (unfold fexp64; lia).
    cbn [Z.ltb Z.compare] in Hres. unfold finish in Hres.
    replace (ex <=? 971) with true in Hres by (symmetry; apply Z.leb_le; lia).
    exists p, ex. split; [exact Hres |].
    left. split; [reflexivity |]. split; [exact Hcases | lia].
Qed.

Lemma pos_iter_xO (m d : positive) : Zpos (Pos.iter xO m d) = Zpos m * 2 ^ Zpos d.
Proof.
  induction d as [| d IH] using Pos.peano_ind.
  - cbn [Pos.iter]. rewrite Pos2Z.inj_xO. change (2 ^ 1) with 2. lia.
  - rewrite Pos.iter_succ, Pos2Z.inj_xO, IH, Pos2Z.inj_succ, Z.pow_succ_r by lia. lia.
Qed.

Lemma shl_align_spec (mx : positive) (ex ex' : Z) :
  exists pz ez,
    shl_align mx ex ex' = (pz, ez) /\ ez = Z.min ex ex' /\
    Zpos pz = Zpos mx * 2 ^ (ex - ez).
Proof.
  unfold shl_align. destruct (ex' - ex) as [| d | d] eqn:Ed.
  - exists mx, ex. split; [reflexivity |]. split; [lia |].
    rewrite Z.sub_diag. cbn. lia.
  - exists mx, ex. split; [reflexivity |]. split; [lia |].
    rewrite Z.sub_diag. cbn. lia.
  - exists (Pos.iter xO mx d), ex'. split; [reflexivity |]. split; [lia |].
    rewrite pos_iter_xO. f_equal. f_equal. lia.
Qed.

(** [binary_round] when the value fits the format exactly. *)
Lemma binary_round_exact (s : bool) (mx : positive) (E : Z) :
  let ex := fexp64 (Zpos (digits2_pos mx) + E) in
  ex <= 971 ->
  (E <= ex -> Zpos mx mod 2 ^ (ex - E) = 0) ->
  exists p,
    binary_round prec emax s mx E = S754_finite s p ex /\
    (ex <= E -> Zpos p = Zpos mx * 2 ^ (E - ex)) /\
    (E <= ex -> Zpos mx = Zpos p * 2 ^ (ex - E)).
Proof.
  intros ex Hmax Hdiv. unfold binary_round. rewrite fexp64_eq. fold ex.
  destruct (shl_align_spec mx E ex) as (pz & ez & Hal & Hez & Hpz). rewrite Hal.
  destruct (Z_le_gt_dec E ex) as [Hle | Hgt].
  - replace ez with E in * by lia. rewrite Z.sub_diag in Hpz.
    change (2 ^ 0) with 1 in Hpz. rewrite Z.mul_1_r in Hpz.
    injection Hpz as ->.
    assert (HM : 0 < Zpos mx) by lia.
    assert (H1 : E <= fexp64 (Zdigits2 (Zpos mx) + E)) by exact Hle.
    assert (H2 : fexp64 (Zdigits2 (Zpos mx) + E) <= 971) by exact Hmax.
    assert (H3 : Zpos mx mod 2 ^ (fexp64 (Zdigits2 (Zpos mx) + E) - E) = 0)
      by exact (Hdiv Hle).
    destruct (binary_round_aux_exact s (Zpos mx) E HM H1 H2 H3) as (p & Hres & Hp).
    change (fexp64 (Zdigits2 (Zpos mx) + E)) with ex in Hres, Hp.
    exists p. split; [exact Hres |]. split; [| intros _; exact Hp].
    intro H. replace ex with E in * by lia. rewrite Z.sub_diag in *.
    change (2 ^ 0) with 1 in *. lia.
  - replace ez with ex in * by lia.
    assert (Hd : Zpos (digits2_pos pz) = Zpos (digits2_pos mx) + (E - ex))
      by (apply digits2_shift; [lia | exact Hpz]).
    assert (Hfe : fexp64 (Zdigits2 (Zpos pz) + ex) = ex).
    { rewrite Zdigits2_pos, Hd.
      replace (Zpos (digits2_pos mx) + (E - ex) + ex)
        with (Zpos (digits2_pos mx) + E) by lia.
      reflexivity. }
    assert (HM : 0 < Zpos pz) by lia.
    assert (H1 : ex <= fexp64 (Zdigits2 (Zpos pz) + ex)) by lia.
    assert (H2 : fexp64 (Zdigits2 (Zpos pz) + ex) <= 971) by lia.
    assert (H3 : Zpos pz mod 2 ^ (fexp64 (Zdigits2 (Zpos pz) + ex) - ex) = 0).
    { rewrite Hfe, Z.sub_diag. apply Z.mod_1_r. }
    destruct (binary_round_aux_exact s (Zpos pz) ex HM H1 H2 H3) as (p & Hres & Hp).
    rewrite Hfe in Hres, Hp. rewrite Z.sub_diag in Hp.
    change (2 ^ 0) with 1 in Hp.
    exists p. split; [exact Hres |]. split; [intros _; lia | intro; lia].
Qed.

(** [binary_round] when the mantissa has more than 53 digits (or exactly 53)
    and the result is normal. *)
Lemma binary_round_normal (s : bool) (mx : positive) (E : Z) :
  let ex := Zpos (digits2_pos mx) + E - 53 in
  -1074 <= ex -> E <= ex -> ex + 1 <= 971 ->
  let q := Zpos mx / 2 ^ (ex - E) in
  2 ^ 52 <= q < 2 ^ 53 /\
  exists p e,
    binary_round prec emax s mx E = S754_finite s p e /\
    ((e = ex /\ (Zpos p = q \/ Zpos p = q + 1) /\ Zpos p < 2 ^ 53) \/
     (e = ex + 1 /\ Zpos p = 2 ^ 52 /\ q + 1 = 2 ^ 53)).
Proof.
  intros ex Hmin Hex Hmax q. unfold binary_round. rewrite fexp64_eq.
  assert (Hfexp : fexp64 (Zpos (digits2_pos mx) + E) = ex) by (unfold fexp64; lia).
  rewrite Hfexp.
  destruct (shl_align_spec mx E ex) as (pz & ez & Hal & Hez & Hpz). rewrite Hal.
  replace ez with E in * by lia. rewrite Z.sub_diag in Hpz.
  change (2 ^ 0) with 1 in Hpz. rewrite Z.mul_1_r in Hpz. injection Hpz as ->.
  assert (HM : 0 < Zpos mx) by lia.
  exact (binary_round_aux_normal s (Zpos mx) E HM Hmin Hex Hmax).
Qed.

Lemma SFopp_binary_round (s : bool) (mx : positive) (E : Z) :
  SFopp (binary_round prec emax s mx E) = binary_round prec emax (negb s) mx E.
Proof.
  unfold binary_round.
  destruct (shl_align mx E _) as [mz ez].
  unfold binary_round_aux.
  destruct (shr_fexp prec emax (Zpos mz) ez loc_Exact) as [r1 e1].
  destruct (shr_fexp prec emax _ e1 loc_Exact) as [r2 e2].
  destruct (shr_m r2) as [| p | p]; [reflexivity | | reflexivity].
  destruct (e2 <=? emax - prec); reflexivity.
Qed.

Lemma pow2_le (a b : Z) : 0 <= a <= b -> 2 ^ a <= 2 ^ b.
Proof. intro H. apply Z.pow_le_mono_r; lia. Qed.

Lemma pow2_pos (a : Z) : 0 <= a -> 0 < 2 ^ a.
Proof. intro H. apply Z.pow_pos_nonneg; lia. Qed.

Lemma valid_mantissa_bound (s : bool) (m : positive) (e : Z) :
  valid_binary (S754_finite s m e) = true ->
  Zpos m < 2 ^ 53 /\ -1074 <= e <= 971 /\ (-1074 < e -> 2 ^ 52 <= Zpos m).
Proof.
  cbn [SpecFloat.valid_binary]. unfold bounded, canonical_mantissa.
  rewrite fexp64_eq. intro H. apply andb_true_iff in H. destruct H as [Hc He].
  apply Z.eqb_eq in Hc. apply Z.leb_le in He. change (emax - prec) with 971 in He.
  destruct (digits2_pos_bounds m) as [Hlo Hhi].
  unfold fexp64 in Hc.
  assert (Hd : Zpos (digits2_pos m) <= 53) by lia.
  split; [| split; [lia |]].
  - pose proof (pow2_le (Zpos (digits2_pos m)) 53). lia.
  - intro Hn. assert (Zpos (digits2_pos m) = 53) by lia.
    replace (Zpos (digits2_pos m) - 1) with 52 in Hlo by lia. exact Hlo.
Qed.

(** *** Integers as doubles *)

Lemma int_sf_zero (s : bool) : int_sf s 0 = S754_zero false.
Proof. destruct s; reflexivity. Qed.

Lemma int_sf_pos (s : bool) (pk : positive) :
  int_sf s (Zpos pk) = binary_round prec emax s pk 0.
Proof. destruct s; reflexivity. Qed.

Lemma digits_below_2_53 (pk : positive) :
  Zpos pk < 2 ^ 53 -> 1 <= Zpos (digits2_pos pk) <= 53.
Proof.
  intro H. destruct (digits2_pos_bounds pk) as [Hlo Hhi].
  split; [lia |].
  assert (Zpos (digits2_pos pk) - 1 < 53); [| lia].
  apply (Z.pow_lt_mono_r_iff 2); lia.
Qed.

Lemma int_sf_shape (s : bool) (pk : positive) :
  Zpos pk < 2 ^ 53 ->
  let d := Zpos (digits2_pos pk) in
  exists p,
    int_sf s (Zpos pk) = S754_finite s p (d - 53) /\
    Zpos p = Zpos pk * 2 ^ (53 - d) /\ 1 <= d <= 53.
Proof.
  intros HK d. pose proof (digits_below_2_53 pk HK) as Hd. fold d in Hd.
  rewrite int_sf_pos.
  assert (Hex : fexp64 (Zpos (digits2_pos pk) + 0) = d - 53)
    by (fold d; unfold fexp64; lia).
  destruct (binary_round_exact s pk 0) as (p & Hres & Hp & _); rewrite ?Hex; try lia.
  { intro H. replace (d - 53 - 0) with 0 by lia. apply Z.mod_1_r. }
  rewrite Hex in Hres, Hp. exists p. split; [exact Hres |]. split; [| exact Hd].
  rewrite Hp by lia. f_equal. f_equal. lia.
Qed.

(** The same integer given with [j] trailing zero bits. *)
Lemma int_sf_scaled (s : bool) (pk pm : positive) (j : Z) :
  Zpos pk < 2 ^ 53 -> 0 <= j -> Zpos pm = Zpos pk * 2 ^ j ->
  binary_round prec emax s pm (- j) = int_sf s (Zpos pk).
Proof.
  intros HK Hj Hpm.
  destruct (int_sf_shape s pk HK) as (p0 & Hres0 & Hp0 & Hd).
  set (d := Zpos (digits2_pos pk)) in *.
  assert (Hdm : Zpos (digits2_pos pm) = d + j) by (apply digits2_shift; assumption).
  assert (Hex : fexp64 (Zpos (digits2_pos pm) + - j) = d - 53).
  { rewrite Hdm. unfold fexp64. lia. }
  destruct (binary_round_exact s pm (- j)) as (p & Hres & Hup & Hdown);
    rewrite ?Hex; try lia.
  { intro Hle. rewrite Hpm.
    replace j with ((53 - d) + (d - 53 - - j)) at 1 by lia.
    rewrite Z.pow_add_r, Z.mul_assoc by lia. apply Z.mod_mul.
    pose proof (pow2_pos (d - 53 - - j)). lia. }
  rewrite Hex in Hres, Hup, Hdown. rewrite Hres, Hres0. f_equal.
  apply Pos2Z.inj. rewrite Hp0.
  destruct (Z_le_gt_dec (d - 53) (- j)) as [Hle | Hgt].
  - rewrite Hup, Hpm by exact Hle. rewrite <- Z.mul_assoc, <- Z.pow_add_r by lia.
    f_equal. f_equal. lia.
  - assert (Hdn : Zpos pm = Zpos p * 2 ^ (d - 53 - - j)) by (apply Hdown; lia).
    rewrite Hpm in Hdn.
    replace j with ((53 - d) + (d - 53 - - j)) in Hdn at 1 by lia.
    rewrite Z.pow_add_r, Z.mul_assoc in Hdn by lia.
    pose proof (pow2_pos (d - 53 - - j)).
    apply Z.mul_reg_r in Hdn; lia.
Qed.

(** *** Additions and subtractions of [round] *)

Lemma sf_away_pos (x c : spec_float) : SF64add x c = sf_away false x c.
Proof. reflexivity. Qed.

Lemma sf_away_neg (x c : spec_float) : SF64sub x c = sf_away true x c.
Proof. reflexivity. Qed.

Lemma sf_toward_pos (x c : spec_float) : SF64sub x c = sf_toward false x c.
Proof. reflexivity. Qed.

Lemma sf_toward_neg (x c : spec_float) : SF64add x c = sf_toward true x c.
Proof. reflexivity. Qed.

Lemma sf_away_finite (s : bool) (m mc : positive) (e ec : Z) :
  sf_away s (S754_finite s m e) (S754_finite false mc ec)
  = binary_round prec emax s
      (fst (shl_align m e (Z.min e ec)) + fst (shl_align mc ec (Z.min e ec)))
      (Z.min e ec).
Proof. destruct s; reflexivity. Qed.

Lemma sf_toward_finite (s : bool) (m mc : positive) (e ec : Z) :
  sf_toward s (S754_finite s m e) (S754_finite false mc ec)
  = binary_normalize prec emax
      (cond_Zopp s (Zpos (fst (shl_align m e (Z.min e ec)))
                    - Zpos (fst (shl_align mc ec (Z.min e ec)))))
      (Z.min e ec) false.
Proof.
  destruct s; [| reflexivity].
  unfold sf_toward, SF64add, SFadd, cond_Zopp.
  f_equal. symmetry. apply Z.opp_sub_distr.
Qed.

Lemma fst_shl_align (mx : positive) (ex ez : Z) :
  ez <= ex -> Zpos (fst (shl_align mx ex ez)) = Zpos mx * 2 ^ (ex - ez).
Proof.
  intro H. destruct (shl_align_spec mx ex ez) as (pz & ez' & Hal & Hez & Hpz).
  rewrite Hal. cbn [fst]. rewrite Hpz. same_power.
Qed.

(** Step 1: [z += 0.5] on a [z] of magnitude in [[0.5, 2^19)]. *)
Lemma away_half (s : bool) (mv : positive) (ev : Z) :
  Zpos mv < 2 ^ 53 -> -53 <= ev <= -34 ->
  exists m1 e1,
    sf_away s (S754_finite s mv ev) sf_half = S754_finite s m1 e1 /\
    -53 <= e1 <= -32 /\ Zpos m1 < 2 ^ 53.
Proof.
  intros Hmv Hev. unfold sf_half. rewrite sf_away_finite.
  replace (Z.min ev (-53)) with (-53) by lia.
  set (a := fst (shl_align mv ev (-53))).
  set (b := fst (shl_align 4503599627370496 (-53) (-53))).
  assert (Ha : Zpos a = Zpos mv * 2 ^ (ev + 53)).
  { unfold a. rewrite fst_shl_align by lia. same_power. }
  assert (Hb : Zpos b = 2 ^ 52) by reflexivity.
  assert (HM : 2 ^ 52 < Zpos (a + b) < 2 ^ 73).
  { rewrite Pos2Z.inj_add, Ha, Hb.
    pose proof (pow2_pos (ev + 53)). pose proof (pow2_le (ev + 53) 19).
    change (2 ^ 73) with (2 ^ 53 * 2 ^ 19 + 2 ^ 72). nia. }
  destruct (digits2_pos_bounds (a + b)) as [Hlo Hhi].
  set (d := Zpos (digits2_pos (a + b))) in *.
  assert (Hd : 53 <= d <= 73).
  { split.
    - assert (52 < d); [apply (Z.pow_lt_mono_r_iff 2); lia | lia].
    - assert (d - 1 < 73); [apply (Z.pow_lt_mono_r_iff 2); lia | lia]. }
  destruct (binary_round_normal s (a + b) (-53)) as (_ & p & e & Hres & Hcases);
    fold d; try lia.
  exists p, e. split; [exact Hres |].
  destruct Hcases as [(He & _ & Hp) | (He & Hp & _)]; rewrite He.
  - split; [lia | exact Hp].
  - split; [lia |]. rewrite Hp. reflexivity.
Qed.

(** Step 2: [z += TWO_MANT_DIG] lands on an integer of [[2^52, 2^52 + 2^21]]. *)
Lemma away_two52 (s : bool) (m1 : positive) (e1 : Z) :
  Zpos m1 < 2 ^ 53 -> -53 <= e1 <= -32 ->
  exists m2,
    sf_away s (S754_finite s m1 e1) sf_two52 = S754_finite s m2 0 /\
    2 ^ 52 <= Zpos m2 <= 2 ^ 52 + 2 ^ 21 /\
    (Zpos m2 = 2 ^ 52 + Zpos m1 / 2 ^ (- e1) \/
     Zpos m2 = 2 ^ 52 + Zpos m1 / 2 ^ (- e1) + 1).
Proof.
  intros Hm1 He1. unfold sf_two52. rewrite sf_away_finite.
  replace (Z.min e1 0) with e1 by lia.
  set (a := fst (shl_align m1 e1 e1)).
  set (b := fst (shl_align 4503599627370496 0 e1)).
  assert (Ha : Zpos a = Zpos m1).
  { unfold a. rewrite fst_shl_align by lia. rewrite Z.sub_diag. cbn. lia. }
  assert (Hb : Zpos b = 2 ^ 52 * 2 ^ (- e1)).
  { unfold b. rewrite fst_shl_align by lia. same_power. }
  pose proof (pow2_pos (- e1)) as Hpow. pose proof (pow2_le 32 (- e1)) as Hpow32.
  assert (HM : 2 ^ (52 - e1) <= Zpos (a + b) < 2 ^ (53 - e1)).
  { rewrite Pos2Z.inj_add, Ha, Hb.
    replace (52 - e1) with (52 + - e1) by lia.
    replace (53 - e1) with (53 + - e1) by lia.
    rewrite !Z.pow_add_r by lia.
    change (2 ^ 53) with 9007199254740992 in *.
    change (2 ^ 52) with 4503599627370496 in *.
    change (2 ^ 32) with 4294967296 in *. lia. }
  assert (Hd : Zpos (digits2_pos (a + b)) = 53 - e1).
  { apply digits2_pos_unique. replace (53 - e1 - 1) with (52 - e1) by lia. exact HM. }
  destruct (binary_round_normal s (a + b) e1) as (_ & p & e & Hres & Hcases);
    rewrite ?Hd; try lia.
  rewrite Hd in Hcases.
  replace (53 - e1 + e1 - 53) with 0 in Hcases by lia.
  replace (0 - e1) with (- e1) in Hcases by lia.
  assert (Hq : Zpos (a + b) / 2 ^ (- e1) = Zpos m1 / 2 ^ (- e1) + 2 ^ 52).
  { rewrite Pos2Z.inj_add, Ha, Hb. apply Z.div_add. lia. }
  assert (Hfl : 0 <= Zpos m1 / 2 ^ (- e1) < 2 ^ 21).
  { split; [apply Z.div_pos; lia |].
    apply Z.div_lt_upper_bound; [lia |].
    change (2 ^ 53) with (2 ^ 32 * 2 ^ 21) in Hm1.
    change (2 ^ 21) with 2097152 in *. nia. }
  rewrite Hq in Hcases.
  destruct Hcases as [(He & Hp & _) | (_ & _ & Hcarry)].
  - subst e. exists p. split; [exact Hres |]. split; lia.
  - change (2 ^ 53) with (2 ^ 52 + 2 ^ 52) in Hcarry.
    change (2 ^ 52) with 4503599627370496 in *. change (2 ^ 21) with 2097152 in *. lia.
Qed.

(** Step 3: [z -= TWO_MANT_DIG] is exact. *)
Lemma toward_two52 (s : bool) (m2 : positive) :
  sf_toward s (S754_finite s m2 0) sf_two52 = int_sf s (Zpos m2 - 2 ^ 52).
Proof. unfold sf_two52. rewrite sf_toward_finite. reflexivity. Qed.

(** Step 4: [z -= 1.0] on a positive integer is exact. *)
Lemma toward_one (s : bool) (K : Z) :
  1 <= K < 2 ^ 53 -> sf_toward s (int_sf s K) sf_one = int_sf s (K - 1).
Proof.
  intro HK. destruct K as [| pk | pk]; try lia.
  destruct (int_sf_shape s pk) as (p & Hres & Hp & Hd); [lia |].
  set (d := Zpos (digits2_pos pk)) in *.
  rewrite Hres. unfold sf_one. rewrite sf_toward_finite.
  replace (Z.min (d - 53) (-52)) with (-52) by lia.
  rewrite !fst_shl_align by lia.
  rewrite Hp, <- Z.mul_assoc, <- Z.pow_add_r by lia.
  replace (53 - d + (d - 53 - -52)) with 52 by lia.
  replace (-52 - -52) with 0 by lia. change (2 ^ 0) with 1.
  replace (Zpos pk * 2 ^ 52 - 4503599627370496 * 1)
    with ((Zpos pk - 1) * 2 ^ 52) by (change (2 ^ 52) with 4503599627370496; lia).
  destruct (Zpos pk - 1) as [| pj | pj] eqn:Ej; try lia.
  - rewrite int_sf_zero. destruct s; reflexivity.
  - assert (Hpj : Zpos pj < 2 ^ 53) by lia.
    assert (Hmul : Zpos (pj * 4503599627370496) = Zpos pj * 2 ^ 52) by reflexivity.
    rewrite <- (int_sf_scaled s pj (pj * 4503599627370496) 52 Hpj ltac:(lia) Hmul).
    destruct s; reflexivity.
Qed.

(** *** Doubles of dyadic numbers [J * 2^c] *)

Lemma dyadic_shape (s : bool) (pk : positive) (c : Z) :
  Zpos pk < 2 ^ 53 ->
  let d := Zpos (digits2_pos pk) in
  -1074 <= d - 53 + c <= 971 ->
  exists p,
    binary_round prec emax s pk c = S754_finite s p (d - 53 + c) /\
    Zpos p = Zpos pk * 2 ^ (53 - d) /\ 1 <= d <= 53.
Proof.
  intros HK d Hc. pose proof (digits_below_2_53 pk HK) as Hd. fold d in Hd.
  assert (Hex : fexp64 (Zpos (digits2_pos pk) + c) = d - 53 + c)
    by (fold d; unfold fexp64; lia).
  assert (H1 : fexp64 (Zpos (digits2_pos pk) + c) <= 971) by (rewrite Hex; lia).
  assert (H2 : c <= fexp64 (Zpos (digits2_pos pk) + c) ->
               Zpos pk mod 2 ^ (fexp64 (Zpos (digits2_pos pk) + c) - c) = 0).
  { intro H. rewrite Hex. replace (d - 53 + c - c) with 0 by lia. apply Z.mod_1_r. }
  destruct (binary_round_exact s pk c H1 H2) as (p & Hres & Hp & _).
  rewrite Hex in Hres, Hp. exists p. split; [exact Hres |]. split; [| exact Hd].
  rewrite Hp by lia. same_power.
Qed.

(** The same number given with [j] trailing zero bits. *)
Lemma dyadic_scaled (s : bool) (pk pm : positive) (j c : Z) :
  Zpos pk < 2 ^ 53 -> 0 <= j -> Zpos pm = Zpos pk * 2 ^ j ->
  -1074 <= Zpos (digits2_pos pk) - 53 + c <= 971 ->
  binary_round prec emax s pm (c - j) = binary_round prec emax s pk c.
Proof.
  intros HK Hj Hpm Hc.
  destruct (dyadic_shape s pk c HK Hc) as (p0 & Hres0 & Hp0 & Hd).
  set (d := Zpos (digits2_pos pk)) in *.
  assert (Hdm : Zpos (digits2_pos pm) = d + j) by (apply digits2_shift; assumption).
  assert (Hex : fexp64 (Zpos (digits2_pos pm) + (c - j)) = d - 53 + c).
  { rewrite Hdm. unfold fexp64. lia. }
  assert (H1 : fexp64 (Zpos (digits2_pos pm) + (c - j)) <= 971) by (rewrite Hex; lia).
  assert (H2 : c - j <= fexp64 (Zpos (digits2_pos pm) + (c - j)) ->
               Zpos pm mod 2 ^ (fexp64 (Zpos (digits2_pos pm) + (c - j)) - (c - j)) = 0).
  { intro Hle. rewrite Hex in *. rewrite Hpm.
    replace j with ((53 - d) + (d - 53 + c - (c - j))) at 1 by lia.
    rewrite Z.pow_add_r, Z.mul_assoc by lia. apply Z.mod_mul.
    pose proof (pow2_pos (d - 53 + c - (c - j))). lia. }
  destruct (binary_round_exact s pm (c - j) H1 H2) as (p & Hres & Hup & Hdown).
  rewrite Hex in Hres, Hup, Hdown. rewrite Hres, Hres0. f_equal.
  apply Pos2Z.inj. rewrite Hp0.
  destruct (Z_le_gt_dec (d - 53 + c) (c - j)) as [Hle | Hgt].
  - rewrite Hup, Hpm by exact Hle. rewrite <- Z.mul_assoc, <- Z.pow_add_r by lia.
    same_power.
  - assert (Hdn : Zpos pm = Zpos p * 2 ^ (d - 53 + c - (c - j))) by (apply Hdown; lia).
    rewrite Hpm in Hdn.
    replace j with ((53 - d) + (d - 53 + c - (c - j))) in Hdn at 1 by lia.
    rewrite Z.pow_add_r, Z.mul_assoc in Hdn by lia.
    pose proof (pow2_pos (d - 53 + c - (c - j))).
    apply Z.mul_reg_r in Hdn; lia.
Qed.

(** *** Order of two doubles of the same sign *)

Lemma SFltb_positive (m1 m2 : positive) (e1 e2 : Z) :
  SFltb (S754_finite false m1 e1) (S754_finite false m2 e2) = true
  <-> magnitude_lt m1 e1 m2 e2.
Proof.
  unfold SFltb, SFcompare, magnitude_lt.
  destruct (Z.compare_spec e1 e2) as [He | He | He].
  - change (Pos.compare_cont Eq m1 m2) with (Pos.compare m1 m2).
    destruct (Pos.compare_spec m1 m2) as [Hm | Hm | Hm]; split; intro H;
      try discriminate H; try reflexivity; lia.
  - split; [intros _; left; exact He | reflexivity].
  - split; [discriminate | lia].
Qed.

Lemma SFltb_negative (m1 m2 : positive) (e1 e2 : Z) :
  SFltb (S754_finite true m2 e2) (S754_finite true m1 e1) = true
  <-> magnitude_lt m1 e1 m2 e2.
Proof.
  unfold SFltb, SFcompare, magnitude_lt.
  destruct (Z.compare_spec e2 e1) as [He | He | He].
  - change (Pos.compare_cont Eq m2 m1) with (Pos.compare m2 m1).
    destruct (Pos.compare_spec m2 m1) as [Hm | Hm | Hm]; cbn [CompOpp]; split; intro H;
      try discriminate H; try reflexivity; lia.
  - split; [discriminate | lia].
  - split; [intros _; left; lia | reflexivity].
Qed.

(** [J / 2^8] against the integer [G], on their normalised mantissas. *)
Lemma magnitude_lt_dyadic (pj pg p1 p3 : positive) :
  let dj := Zpos (digits2_pos pj) in
  let dg := Zpos (digits2_pos pg) in
  dj <= 53 -> dg <= 53 ->
  Zpos p1 = Zpos pj * 2 ^ (53 - dj) -> Zpos p3 = Zpos pg * 2 ^ (53 - dg) ->
  magnitude_lt p1 (dj - 53 + -8) p3 (dg - 53 + 0) <-> Zpos pj < 256 * Zpos pg.
Proof.
  intros dj dg Hdj Hdg Hp1 Hp3. unfold magnitude_lt.
  destruct (digits2_pos_bounds pj) as [Hjlo Hjhi].
  destruct (digits2_pos_bounds pg) as [Hglo Hghi].
  fold dj in Hjlo, Hjhi. fold dg in Hglo, Hghi.
  assert (Hdj1 : 1 <= dj) by (unfold dj; lia).
  assert (Hdg1 : 1 <= dg) by (unfold dg; lia).
  split.
  - intros [Hlt | [Heq Hm]].
    + assert (Hle : 2 ^ dj <= 2 ^ (dg - 1 + 8)) by (apply pow2_le; lia).
      rewrite Z.pow_add_r in Hle by lia. change (2 ^ 8) with 256 in Hle. lia.
    + rewrite Hp1, Hp3 in Hm.
      replace (53 - dg) with (53 - dj + 8) in Hm by lia.
      rewrite Z.pow_add_r in Hm by lia. change (2 ^ 8) with 256 in Hm.
      pose proof (pow2_pos (53 - dj)). nia.
  - intro Hlt.
    assert (Hdd : dj - 1 < dg + 8).
    { apply (Z.pow_lt_mono_r_iff 2); [lia | lia |].
      rewrite Z.pow_add_r by lia. change (2 ^ 8) with 256. lia. }
    destruct (Z.eq_dec dj (dg + 8)) as [Heq | Hne]; [right | left; lia].
    split; [lia |]. rewrite Hp1, Hp3.
    replace (53 - dg) with (53 - dj + 8) by lia.
    rewrite Z.pow_add_r by lia. change (2 ^ 8) with 256.
    pose proof (pow2_pos (53 - dj)). nia.
Qed.

(** *** [round] on [k / 256] *)

(** The arithmetic path of [round] on the double of [K / 256], for
    [128 <= K]: the result is the double of [floor ((K + 128) / 256)]. *)
Lemma round_core (s : bool) (pk : positive) :
  128 <= Zpos pk <= 2 ^ 22 ->
  let q := binary_round prec emax s pk (-8) in
  let z1 := sf_away s q sf_half in
  let z2 := sf_away s z1 sf_two52 in
  let z3 := sf_toward s z2 sf_two52 in
  let test := if s then SFltb z3 z1 else SFltb z1 z3 in
  (if test then sf_toward s z3 sf_one else z3) = int_sf s ((Zpos pk + 128) / 256).
Proof.
  intros HK q z1 z2 z3 test.
  assert (HK53 : Zpos pk < 2 ^ 53) by (change (2 ^ 53) with (2 ^ 22 * 2 ^ 31); lia).
  destruct (digits2_pos_bounds pk) as [Hklo Hkhi].
  pose proof (digits_below_2_53 pk HK53) as Hdk.
  set (d := Zpos (digits2_pos pk)) in *.
  assert (Hd8 : 8 <= d).
  { assert (7 < d); [apply (Z.pow_lt_mono_r_iff 2); [lia | lia |] | lia].
    change (2 ^ 7) with 128. lia. }
  (* q *)
  destruct (dyadic_shape s pk (-8) HK53) as (p & Hq & Hp & _); [fold d; lia |].
  fold d in Hq, Hp. fold q in Hq.
  (* z1 = (K + 128) / 256 *)
  set (pj := (pk + 128)%positive).
  assert (Hpj : Zpos pj = Zpos pk + 128) by reflexivity.
  assert (HJ53 : Zpos pj < 2 ^ 53) by (change (2 ^ 53) with (2 ^ 22 * 2 ^ 31); lia).
  destruct (digits2_pos_bounds pj) as [Hjlo Hjhi].
  pose proof (digits_below_2_53 pj HJ53) as Hdj.
  set (dj := Zpos (digits2_pos pj)) in *.
  assert (Hdj9 : 9 <= dj <= 23).
  { split.
    - assert (8 < dj); [apply (Z.pow_lt_mono_r_iff 2); [lia | lia |] | lia].
      change (2 ^ 8) with 256. lia.
    - assert (dj - 1 < 23); [apply (Z.pow_lt_mono_r_iff 2); [lia | lia |] | lia].
      change (2 ^ 23) with (2 ^ 22 + 2 ^ 22). lia. }
  assert (Hz1 : z1 = binary_round prec emax s pj (-8)).
  { unfold z1. rewrite Hq. unfold sf_half. rewrite sf_away_finite.
    replace (Z.min (d - 53 + -8) (-53)) with (-53) by lia.
    set (a := fst (shl_align p (d - 53 + -8) (-53))).
    set (b := fst (shl_align 4503599627370496 (-53) (-53))).
    assert (Ha : Zpos a = Zpos p * 2 ^ (d - 8)).
    { unfold a. rewrite fst_shl_align by lia. same_power. }
    assert (Hb : Zpos b = 2 ^ 52) by reflexivity.
    assert (Hab : Zpos (a + b) = Zpos pj * 2 ^ 45).
    { rewrite Pos2Z.inj_add, Ha, Hb, Hp, Hpj, <- Z.mul_assoc, <- Z.pow_add_r by lia.
      replace (53 - d + (d - 8)) with 45 by lia.
      change (2 ^ 52) with (128 * 2 ^ 45). lia. }
    change (-53) with (-8 - 45).
    apply (dyadic_scaled s pj (a + b) 45 (-8) HJ53); [lia | exact Hab | fold dj; lia]. }
  destruct (dyadic_shape s pj (-8) HJ53) as (p1 & Hz1s & Hp1 & _); [fold dj; lia |].
  fold dj in Hz1s, Hp1. rewrite <- Hz1 in Hz1s.
  assert (Hp1b : Zpos p1 < 2 ^ 53).
  { rewrite Hp1. replace 53 with (dj + (53 - dj)) at 2 by lia.
    rewrite Z.pow_add_r by lia. pose proof (pow2_pos (53 - dj)). nia. }
  (* z2 and z3 *)
  destruct (away_two52 s p1 (dj - 53 + -8) Hp1b) as (m2 & Hz2 & _ & Hm2); [lia |].
  rewrite <- Hz1s in Hz2. fold z2 in Hz2.
  assert (Hfl : Zpos p1 / 2 ^ (- (dj - 53 + -8)) = Zpos pj / 256).
  { rewrite Hp1. replace (- (dj - 53 + -8)) with (8 + (53 - dj)) by lia.
    rewrite Z.pow_add_r by lia. change (2 ^ 8) with 256.
    apply Z.div_mul_cancel_r; [lia |]. pose proof (pow2_pos (53 - dj)). lia. }
  rewrite Hfl in Hm2.
  set (F := Zpos pj / 256) in *.
  assert (HF : 256 * F <= Zpos pj < 256 * (F + 1)).
  { unfold F. pose proof (Z.div_mod (Zpos pj) 256).
    pose proof (Z.mod_pos_bound (Zpos pj) 256). lia. }
  assert (HF1 : 1 <= F <= 2 ^ 15).
  { change (2 ^ 22) with (256 * 2 ^ 14) in HK. change (2 ^ 15) with (2 ^ 14 + 2 ^ 14).
    change (2 ^ 14) with 16384 in *. lia. }
  assert (Hz3 : z3 = int_sf s (Zpos m2 - 2 ^ 52)).
  { unfold z3. rewrite Hz2. apply toward_two52. }
  replace ((Zpos pk + 128) / 256) with F by reflexivity.
  (* the comparison *)
  assert (Htest : forall pg : positive,
             Zpos pg <= 2 ^ 16 -> z3 = int_sf s (Zpos pg) ->
             (test = true <-> Zpos pj < 256 * Zpos pg)).
  { intros pg Hpg Hz3g.
    assert (Hg53 : Zpos pg < 2 ^ 53) by (change (2 ^ 53) with (2 ^ 16 * 2 ^ 37); lia).
    destruct (int_sf_shape s pg Hg53) as (p3 & Hsh & Hp3 & Hdg).
    rewrite <- Hz3g in Hsh.
    rewrite <- (magnitude_lt_dyadic pj pg p1 p3) by (fold dj; try lia; assumption).
    fold dj. replace (Zpos (digits2_pos pg) - 53 + 0) with (Zpos (digits2_pos pg) - 53) by lia.
    unfold test. rewrite Hz1s, Hsh.
    destruct s; [apply SFltb_negative | apply SFltb_positive]. }
  destruct Hm2 as [Hm2 | Hm2].
  - (* z3 = F *)
    assert (Hz3F : z3 = int_sf s F) by (rewrite Hz3; f_equal; lia).
    destruct F as [| pf | pf] eqn:EF; try lia.
    destruct (Htest pf) as [Hyes _]; [change (2 ^ 16) with (2 ^ 15 + 2 ^ 15); lia | exact Hz3F |].
    destruct test; [specialize (Hyes eq_refl); lia | exact Hz3F].
  - (* z3 = F + 1 *)
    assert (Hz3F : z3 = int_sf s (F + 1)) by (rewrite Hz3; f_equal; lia).
    destruct (F + 1) as [| pf | pf] eqn:EF; try lia.
    destruct (Htest pf) as [_ Hyes]; [change (2 ^ 16) with (2 ^ 15 + 2 ^ 15); lia | exact Hz3F |].
    rewrite Hyes by lia. rewrite Hz3F, <- EF.
    replace F with (F + 1 - 1) at 2 by lia.
    apply toward_one. change (2 ^ 53) with (2 ^ 15 * 2 ^ 38). lia.
Qed.

(** The thresholds of [round] on the double of [K / 256]. *)
Lemma quotient_against_half (s : bool) (pk : positive) :
  Zpos pk <= 2 ^ 22 ->
  exists p e,
    binary_round prec emax s pk (-8) = S754_finite s p e /\ e < 0 /\
    (Zpos pk < 128 -> e < -53) /\
    (128 <= Zpos pk -> ~ magnitude_lt p e 4503599627370496 (-53)).
Proof.
  intro HK.
  assert (HK53 : Zpos pk < 2 ^ 53) by (change (2 ^ 53) with (2 ^ 22 * 2 ^ 31); lia).
  destruct (digits2_pos_bounds pk) as [Hklo Hkhi].
  pose proof (digits_below_2_53 pk HK53) as Hdk.
  destruct (dyadic_shape s pk (-8) HK53) as (p & Hq & Hp & _); [lia |].
  set (d := Zpos (digits2_pos pk)) in *.
  exists p, (d - 53 + -8). split; [exact Hq |]. split; [lia |]. split.
  - intro Hlt. assert (d - 1 < 7); [| lia].
    apply (Z.pow_lt_mono_r_iff 2); [lia | lia |]. change (2 ^ 7) with 128. lia.
  - intros Hge [Hlt | [Heq Hm]].
    + assert (7 < d); [| lia].
      apply (Z.pow_lt_mono_r_iff 2); [lia | lia |]. change (2 ^ 7) with 128. lia.
    + assert (Hd : d = 8) by lia. rewrite Hp, Hd in Hm.
      change (2 ^ (53 - 8)) with (2 ^ 45) in Hm.
      change (Zpos 4503599627370496) with (128 * 2 ^ 45) in Hm.
      change (2 ^ 45) with 35184372088832 in Hm. lia.
Qed.

(** *** [round] on any magnitude of [[0.5, 2^52)] *)

(** On normalised mantissas the order of [SFcompare] is the order of the
    values. *)
Lemma magnitude_lt_normal (m1 m2 : positive) (e1 e2 c : Z) :
  2 ^ 52 <= Zpos m1 < 2 ^ 53 -> 2 ^ 52 <= Zpos m2 < 2 ^ 53 ->
  c <= e1 -> c <= e2 ->
  magnitude_lt m1 e1 m2 e2 <-> Zpos m1 * 2 ^ (e1 - c) < Zpos m2 * 2 ^ (e2 - c).
Proof.
  intros H1 H2 Hc1 Hc2. unfold magnitude_lt.
  change (2 ^ 53) with (2 * 2 ^ 52) in *.
  set (W := 2 ^ 52) in *. assert (HW : 0 < W) by reflexivity.
  destruct (Z.lt_trichotomy e1 e2) as [Hlt | [Heq | Hgt]].
  - replace (e2 - c) with ((e2 - e1 - 1) + 1 + (e1 - c)) by lia.
    rewrite !Z.pow_add_r by lia. change (2 ^ 1) with 2.
    pose proof (pow2_pos (e1 - c)). pose proof (pow2_pos (e2 - e1 - 1)).
    split; [intros _ | intros _; left; exact Hlt].
    assert (Zpos m1 * 2 ^ (e1 - c) < 2 * W * 2 ^ (e1 - c)) by nia.
    assert (2 * W * 2 ^ (e1 - c) <= W * (2 ^ (e2 - e1 - 1) * 2 * 2 ^ (e1 - c))) by nia.
    nia.
  - subst e2. pose proof (pow2_pos (e1 - c)).
    split; [intros [Hlt | [_ Hm]]; [lia | nia] | intro Hm; right; split; [reflexivity | nia]].
  - replace (e1 - c) with ((e1 - e2 - 1) + 1 + (e2 - c)) by lia.
    rewrite !Z.pow_add_r by lia. change (2 ^ 1) with 2.
    pose proof (pow2_pos (e2 - c)). pose proof (pow2_pos (e1 - e2 - 1)).
    split; [intros [Hlt | [Heq _]]; lia |].
    intro Hm. exfalso.
    assert (Zpos m2 * 2 ^ (e2 - c) < 2 * W * 2 ^ (e2 - c)) by nia.
    assert (2 * W * 2 ^ (e2 - c) <= W * (2 ^ (e1 - e2 - 1) * 2 * 2 ^ (e2 - c))) by nia.
    nia.
Qed.

(** The double of an integer of [[1, 2^53)] has a normalised mantissa. *)
Lemma int_sf_normal (s : bool) (G : Z) :
  1 <= G < 2 ^ 53 ->
  exists p e,
    int_sf s G = S754_finite s p e /\ -52 <= e <= 0 /\
    2 ^ 52 <= Zpos p < 2 ^ 53 /\ Zpos p * 2 ^ (e + 53) = G * 2 ^ 53.
Proof.
  intro HG. destruct G as [| pg | pg]; try lia.
  destruct (int_sf_shape s pg) as (p & Hsh & Hp & Hd); [lia |].
  destruct (digits2_pos_bounds pg) as [Hlo Hhi].
  set (d := Zpos (digits2_pos pg)) in *.
  exists p, (d - 53). split; [exact Hsh |]. split; [lia |].
  pose proof (pow2_pos (53 - d)) as Hc.
  split.
  - rewrite Hp. split.
    + replace 52 with ((d - 1) + (53 - d)) by lia. rewrite Z.pow_add_r by lia. nia.
    + replace 53 with (d + (53 - d)) at 2 by lia. rewrite Z.pow_add_r by lia. nia.
  - rewrite Hp, <- Z.mul_assoc, <- Z.pow_add_r by lia. same_power.
Qed.

(** The comparison of [round] between [z1] and the integer [z3 = G]. *)
Lemma compare_with_integer (s : bool) (m1 : positive) (e1 G : Z) :
  2 ^ 52 <= Zpos m1 < 2 ^ 53 -> -53 <= e1 <= 0 -> 1 <= G < 2 ^ 53 ->
  (if s then SFltb (int_sf s G) (S754_finite s m1 e1)
   else SFltb (S754_finite s m1 e1) (int_sf s G)) = true
  <-> Zpos m1 * 2 ^ (e1 + 53) < G * 2 ^ 53.
Proof.
  intros Hm1 He1 HG.
  destruct (int_sf_normal s G HG) as (p & e & Hsh & He & Hp & Hval).
  rewrite Hsh, <- Hval.
  replace (e1 + 53) with (e1 - -53) by lia. replace (e + 53) with (e - -53) by lia.
  rewrite <- (magnitude_lt_normal m1 p e1 e (-53)) by (assumption || lia).
  destruct s; [apply SFltb_negative | apply SFltb_positive].
Qed.

(** Step 1 for any magnitude of [[0.5, 2^52)]: [z + 0.5] is rounded to a
    double that has the same integer part as the exact sum. *)
Lemma away_half_floor (s : bool) (mv : positive) (u : Z) :
  2 ^ 52 <= Zpos mv < 2 ^ 53 -> 1 <= u <= 53 ->
  let F := (Zpos mv + 2 ^ (u - 1)) / 2 ^ u in
  1 <= F <= 2 ^ 52 /\
  exists m1 e1,
    sf_away s (S754_finite s mv (- u)) sf_half = S754_finite s m1 e1 /\
    -53 <= e1 <= 0 /\ 2 ^ 52 <= Zpos m1 < 2 ^ 53 /\
    F * 2 ^ 53 <= Zpos m1 * 2 ^ (e1 + 53) < (F + 1) * 2 ^ 53.
Proof.
  intros Hmv Hu F.
  set (U := 2 ^ (53 - u)). set (V := 2 ^ (u - 1)).
  assert (HU : 1 <= U) by (pose proof (pow2_pos (53 - u)); unfold U; lia).
  assert (HV : 1 <= V) by (pose proof (pow2_pos (u - 1)); unfold V; lia).
  assert (HUV : V * U = 2 ^ 52).
  { unfold U, V. rewrite <- Z.pow_add_r by lia. f_equal. lia. }
  assert (H2V : 2 ^ u = 2 * V).
  { unfold V. replace u with (1 + (u - 1)) at 1 by lia.
    rewrite Z.pow_add_r by lia. reflexivity. }
  set (M := (Zpos mv + V) * U).
  assert (HF : F * 2 ^ 53 <= M < (F + 1) * 2 ^ 53).
  { assert (EF : F = M / 2 ^ 53).
    { unfold F, M. fold V. rewrite H2V.
      change (2 ^ 53) with (2 * 2 ^ 52). rewrite <- HUV.
      replace (2 * (V * U)) with (2 * V * U) by ring.
      symmetry. apply Z.div_mul_cancel_r; lia. }
    rewrite EF. pose proof (Z.div_mod M (2 ^ 53) ltac:(lia)).
    pose proof (Z.mod_pos_bound M (2 ^ 53) ltac:(lia)). lia. }
  assert (HMlo : 2 ^ 52 * U + 2 ^ 52 <= M) by (unfold M; nia).
  assert (HMhi : M < 2 ^ 53 * U + 2 ^ 52) by (unfold M; nia).
  assert (HF1 : 1 <= F <= 2 ^ 52).
  { change (2 ^ 53) with (2 * 2 ^ 52) in *.
    assert (HU52 : U <= 2 ^ 52) by (unfold U; apply pow2_le; lia).
    change (2 ^ 52) with 4503599627370496 in *. nia. }
  split; [exact HF1 |].
  unfold sf_half. rewrite sf_away_finite.
  replace (Z.min (- u) (-53)) with (-53) by lia.
  set (a := fst (shl_align mv (- u) (-53))).
  set (b := fst (shl_align 4503599627370496 (-53) (-53))).
  assert (Ha : Zpos a = Zpos mv * U).
  { unfold a, U. rewrite fst_shl_align by lia. same_power. }
  assert (Hb : Zpos b = 2 ^ 52) by reflexivity.
  assert (Hab : Zpos (a + b) = M).
  { rewrite Pos2Z.inj_add, Ha, Hb, <- HUV. unfold M. ring. }
  assert (HU2 : 2 ^ (105 - u) = 2 ^ 52 * U).
  { unfold U. rewrite <- Z.pow_add_r by lia. f_equal. lia. }
  destruct (digits2_pos_bounds (a + b)) as [Hlo Hhi].
  set (d := Zpos (digits2_pos (a + b))) in *. rewrite Hab in Hlo, Hhi.
  assert (Hd : d = 106 - u \/ d = 107 - u).
  { assert (105 - u < d).
    { apply (Z.pow_lt_mono_r_iff 2); [lia | lia |]. rewrite HU2. lia. }
    assert (d - 1 < 107 - u).
    { apply (Z.pow_lt_mono_r_iff 2); [lia | lia |].
      replace (107 - u) with (2 + (105 - u)) by lia.
      rewrite Z.pow_add_r, HU2 by lia. change (2 ^ 2) with 4.
      change (2 ^ 53) with (2 * 2 ^ 52) in HMhi. nia. }
    lia. }
  assert (Hexact : forall e1, e1 = d - 106 -> M mod 2 ^ (e1 + 53) = 0 ->
             exists m1,
               binary_round prec emax s (a + b) (-53) = S754_finite s m1 e1 /\
               2 ^ 52 <= Zpos m1 < 2 ^ 53 /\ Zpos m1 * 2 ^ (e1 + 53) = M).
  { intros e1 He1 Hmod.
    assert (Hex : fexp64 (Zpos (digits2_pos (a + b)) + -53) = e1)
      by (fold d; unfold fexp64; lia).
    destruct (binary_round_exact s (a + b) (-53)) as (p & Hres & _ & Hdown);
      rewrite ?Hex; try lia.
    { intros _. rewrite Hab. replace (e1 - -53) with (e1 + 53) by lia. exact Hmod. }
    rewrite Hex in Hres, Hdown. specialize (Hdown ltac:(lia)).
    replace (e1 - -53) with (e1 + 53) in Hdown by lia. rewrite Hab in Hdown.
    exists p. split; [exact Hres |]. split; [| lia].
    assert (Hpw : 2 ^ (d - 1) = 2 ^ 52 * 2 ^ (e1 + 53)).
    { rewrite <- Z.pow_add_r by lia. f_equal. lia. }
    assert (Hpw' : 2 ^ d = 2 ^ 53 * 2 ^ (e1 + 53)).
    { rewrite <- Z.pow_add_r by lia. f_equal. lia. }
    rewrite Hpw in Hlo. rewrite Hpw' in Hhi. rewrite Hdown in Hlo, Hhi.
    pose proof (pow2_pos (e1 + 53) ltac:(lia)). nia. }
  destruct Hd as [Hd | Hd].
  - (* the sum stays in the binade of [z] *)
    destruct (Hexact (- u)) as (m1 & Hres & Hm1 & Hval); [lia | |].
    { replace (- u + 53) with (53 - u) by lia. fold U. unfold M. apply Z.mod_mul. lia. }
    exists m1, (- u). split; [exact Hres |]. split; [lia |]. split; [exact Hm1 |].
    rewrite Hval. exact HF.
  - destruct (Z.eq_dec u 1) as [Hu1 | Hu2].
    + (* z = 2^52 - 0.5 *)
      assert (EU : U = 2 ^ 52) by (unfold U; rewrite Hu1; reflexivity).
      assert (EM : M = 2 ^ 105).
      { assert (2 ^ (d - 1) = 2 ^ 105) by (f_equal; lia).
        change (2 ^ 105) with (2 ^ 53 * 2 ^ 52) in *. nia. }
      destruct (Hexact 0) as (m1 & Hres & Hm1 & Hval); [lia | rewrite EM; reflexivity |].
      exists m1, 0. split; [exact Hres |]. split; [lia |]. split; [exact Hm1 |].
      rewrite Hval. exact HF.
    + (* the sum reaches the next binade *)
      destruct (binary_round_normal s (a + b) (-53)) as (Hq & p & e & Hres & Hcases);
        fold d; try lia.
      fold d in Hq, Hcases. rewrite Hab in Hq, Hcases.
      replace (d + -53 - 53 - -53) with (54 - u) in Hq, Hcases by lia.
      replace (d + -53 - 53) with (1 - u) in Hcases by lia.
      assert (H2U : 2 ^ (54 - u) = 2 * U).
      { unfold U. replace (54 - u) with (1 + (53 - u)) by lia.
        rewrite Z.pow_add_r by lia. reflexivity. }
      rewrite H2U in Hq, Hcases.
      set (q := M / (2 * U)) in *.
      assert (Hqm : q * (2 * U) <= M < (q + 1) * (2 * U)).
      { unfold q. pose proof (Z.div_mod M (2 * U) ltac:(lia)).
        pose proof (Z.mod_pos_bound M (2 * U) ltac:(lia)). lia. }
      assert (HU51 : 2 * U <= 2 ^ 52).
      { unfold U. change (2 ^ 52) with (2 * 2 ^ 51).
        assert (2 ^ (53 - u) <= 2 ^ 51) by (apply pow2_le; lia). lia. }
      assert (HFU : F = U).
      { assert (Hd1 : 2 ^ (d - 1) = 2 ^ 53 * U).
        { unfold U. rewrite <- Z.pow_add_r by lia. f_equal. lia. }
        rewrite Hd1 in Hlo.
        change (2 ^ 53) with (2 * 2 ^ 52) in *.
        change (2 ^ 52) with 4503599627370496 in *. nia. }
      exists p, e. split; [exact Hres |].
      change (2 ^ 53) with (2 * 2 ^ 52) in *.
      destruct Hcases as [(He & Hp & Hp53) | (He & Hp & Hcarry)]; subst e.
      * split; [lia |]. split; [lia |].
        replace (1 - u + 53) with (54 - u) by lia. rewrite H2U, HFU.
        change (2 ^ 52) with 4503599627370496 in *. nia.
      * split; [lia |]. split; [rewrite Hp; lia |].
        replace (1 - u + 1 + 53) with (1 + (54 - u)) by lia.
        rewrite Z.pow_add_r, H2U, Hp, HFU by lia. change (2 ^ 1) with 2.
        change (2 ^ 52) with 4503599627370496 in *. nia.
Qed.

Lemma two53_less_two52 (s : bool) :
  sf_toward s (S754_finite s 4503599627370496 1) sf_two52 = int_sf s (2 ^ 52).
Proof. destruct s; reflexivity. Qed.

Lemma two52_twice (s : bool) :
  sf_away s (S754_finite s 4503599627370496 0) sf_two52
  = S754_finite s 4503599627370496 1.
Proof. destruct s; reflexivity. Qed.

(** Steps 2 and 3 for any [z] of [[0.5, 2^52]]: adding and subtracting
    [TWO_MANT_DIG] leaves the integer part of [z], or the integer above. *)
Lemma through_two52 (s : bool) (m1 : positive) (e1 : Z) :
  2 ^ 52 <= Zpos m1 < 2 ^ 53 -> -53 <= e1 <= 0 ->
  Zpos m1 / 2 ^ (- e1) <= 2 ^ 52 ->
  exists G,
    sf_toward s (sf_away s (S754_finite s m1 e1) sf_two52) sf_two52 = int_sf s G /\
    (G = Zpos m1 / 2 ^ (- e1) \/ G = Zpos m1 / 2 ^ (- e1) + 1).
Proof.
  intros Hm1 He1 Hfl.
  destruct (Z.eq_dec e1 0) as [He0 | Hneg].
  - subst e1. change (2 ^ (- 0)) with 1 in *. rewrite Z.div_1_r in *.
    assert (Em : m1 = 4503599627370496%positive).
    { apply Pos2Z.inj. change (Zpos 4503599627370496) with (2 ^ 52). lia. }
    subst m1. exists (2 ^ 52). split; [| left; reflexivity].
    rewrite two52_twice. apply two53_less_two52.
  - unfold sf_two52 at 1. rewrite sf_away_finite.
    replace (Z.min e1 0) with e1 by lia.
    set (a := fst (shl_align m1 e1 e1)).
    set (b := fst (shl_align 4503599627370496 0 e1)).
    assert (Ha : Zpos a = Zpos m1).
    { unfold a. rewrite fst_shl_align by lia. rewrite Z.sub_diag. cbn. lia. }
    assert (Hb : Zpos b = 2 ^ 52 * 2 ^ (- e1)).
    { unfold b. rewrite fst_shl_align by lia. same_power. }
    pose proof (pow2_pos (- e1) ltac:(lia)) as Hpow.
    assert (Hpow2 : 2 <= 2 ^ (- e1)).
    { change 2 with (2 ^ 1) at 1. apply pow2_le. lia. }
    assert (HM : 2 ^ (52 - e1) <= Zpos (a + b) < 2 ^ (53 - e1)).
    { rewrite Pos2Z.inj_add, Ha, Hb.
      replace (52 - e1) with (52 + - e1) by lia.
      replace (53 - e1) with (53 + - e1) by lia.
      rewrite !Z.pow_add_r by lia.
      change (2 ^ 53) with 9007199254740992 in *.
      change (2 ^ 52) with 4503599627370496 in *. nia. }
    assert (Hd : Zpos (digits2_pos (a + b)) = 53 - e1).
    { apply digits2_pos_unique. replace (53 - e1 - 1) with (52 - e1) by lia. exact HM. }
    destruct (binary_round_normal s (a + b) e1) as (_ & p & e & Hres & Hcases);
      rewrite ?Hd; try lia.
    rewrite Hd in Hcases.
    replace (53 - e1 + e1 - 53) with 0 in Hcases by lia.
    replace (0 - e1) with (- e1) in Hcases by lia.
    assert (Hq : Zpos (a + b) / 2 ^ (- e1) = Zpos m1 / 2 ^ (- e1) + 2 ^ 52).
    { rewrite Pos2Z.inj_add, Ha, Hb. apply Z.div_add. lia. }
    rewrite Hq in Hcases. rewrite Hres.
    destruct Hcases as [(He & Hp & _) | (He & Hp & Hcarry)]; subst e.
    + exists (Zpos p - 2 ^ 52). split; [apply toward_two52 | lia].
    + assert (Ep : p = 4503599627370496%positive).
      { apply Pos2Z.inj. rewrite Hp. reflexivity. }
      subst p. exists (2 ^ 52). split; [apply two53_less_two52 |].
      right. change (2 ^ 53) with (2 ^ 52 + 2 ^ 52) in Hcarry. lia.
Qed.

(** The arithmetic path of [round] on any double of magnitude in
    [[0.5, 2^52)]: the result is the double of [floor (|z| + 1/2)], with the
    sign of [z]. *)
Lemma round_arith (s : bool) (mv : positive) (u : Z) :
  2 ^ 52 <= Zpos mv < 2 ^ 53 -> 1 <= u <= 53 ->
  let z1 := sf_away s (S754_finite s mv (- u)) sf_half in
  let z2 := sf_away s z1 sf_two52 in
  let z3 := sf_toward s z2 sf_two52 in
  let test := if s then SFltb z3 z1 else SFltb z1 z3 in
  (if test then sf_toward s z3 sf_one else z3)
  = int_sf s ((Zpos mv + 2 ^ (u - 1)) / 2 ^ u).
Proof.
  intros Hmv Hu z1 z2 z3 test.
  destruct (away_half_floor s mv u Hmv Hu) as (HF & m1 & e1 & Hz1 & He1 & Hm1 & Hval).
  set (F := (Zpos mv + 2 ^ (u - 1)) / 2 ^ u) in *.
  fold z1 in Hz1.
  assert (Hfl : Zpos m1 / 2 ^ (- e1) = F).
  { pose proof (pow2_pos (e1 + 53) ltac:(lia)) as Hc.
    pose proof (pow2_pos (- e1) ltac:(lia)) as Hc'.
    assert (E53 : 2 ^ 53 = 2 ^ (- e1) * 2 ^ (e1 + 53)).
    { rewrite <- Z.pow_add_r by lia. f_equal. lia. }
    rewrite E53 in Hval.
    symmetry. apply (Z.div_unique _ _ _ (Zpos m1 - F * 2 ^ (- e1))); nia. }
  destruct (through_two52 s m1 e1 Hm1 He1) as (G & Hz3 & HG); [lia |].
  rewrite <- Hz1 in Hz3. fold z2 in Hz3. fold z3 in Hz3. rewrite Hfl in HG.
  assert (HG53 : 1 <= G < 2 ^ 53).
  { change (2 ^ 53) with (2 ^ 52 + 2 ^ 52). change (2 ^ 52) with 4503599627370496 in *.
    lia. }
  pose proof (compare_with_integer s m1 e1 G Hm1 He1 HG53) as Htest.
  rewrite <- Hz1, <- Hz3 in Htest. fold test in Htest.
  destruct HG as [EG | EG]; subst G.
  - destruct test; [| exact Hz3].
    destruct Htest as [Hyes _]. specialize (Hyes eq_refl). lia.
  - destruct Htest as [_ Hyes]. rewrite Hyes by lia.
    rewrite Hz3. replace F with (F + 1 - 1) at 2 by lia.
    apply toward_one. exact HG53.
Qed.

(** *** The function [round_value] *)

(** A double of magnitude [2^52] or more is the double of an integer. *)
Lemma int_sf_large (s : bool) (m : positive) (e : Z) :
  valid_binary (S754_finite s m e) = true -> 0 <= e ->
  int_sf s (Zpos m * 2 ^ e) = S754_finite s m e.
Proof.
  intros Hvalid He.
  destruct (valid_mantissa_bound _ _ _ Hvalid) as (Hm & He971 & Hnormal).
  specialize (Hnormal ltac:(lia)).
  pose proof (pow2_pos e He) as Hpow.
  destruct (Zpos m * 2 ^ e) as [| pk | pk] eqn:Epk; try lia.
  rewrite int_sf_pos.
  assert (Hdm : Zpos (digits2_pos m) = 53) by (apply digits2_pos_unique; exact (conj Hnormal Hm)).
  assert (Hdk : Zpos (digits2_pos pk) = 53 + e).
  { rewrite (digits2_shift m pk e He); [lia | lia]. }
  assert (Hex : fexp64 (Zpos (digits2_pos pk) + 0) = e)
    by (rewrite Hdk; unfold fexp64; lia).
  destruct (binary_round_exact s pk 0) as (p & Hres & _ & Hdown); rewrite ?Hex; try lia.
  { intros _. rewrite Z.sub_0_r, <- Epk. apply Z.mod_mul. lia. }
  rewrite Hex in Hres, Hdown. specialize (Hdown He). rewrite Z.sub_0_r in Hdown.
  rewrite Hres. f_equal. apply Pos2Z.inj. nia.
Qed.

Lemma half_away_small (m : positive) (e : Z) :
  Zpos m < 2 ^ 53 -> e < -53 -> half_away m e = 0.
Proof.
  intros Hm He. unfold half_away.
  replace (0 <=? e) with false by (symmetry; apply Z.leb_gt; lia).
  apply Z.div_small. split; [pose proof (pow2_pos (- e - 1) ltac:(lia)); lia |].
  replace (- e) with (1 + (- e - 1)) at 2 by lia. rewrite Z.pow_add_r by lia.
  assert (2 ^ 53 <= 2 ^ (- e - 1)) by (apply pow2_le; lia).
  change (2 ^ 1) with 2. lia.
Qed.

Lemma half_away_below_one (m : positive) (u : Z) :
  1 <= u -> half_away m (- u) = (Zpos m + 2 ^ (u - 1)) / 2 ^ u.
Proof.
  intro Hu. unfold half_away.
  replace (0 <=? - u) with false by (symmetry; apply Z.leb_gt; lia).
  rewrite Z.opp_involutive. reflexivity.
Qed.

Lemma half_away_large (m : positive) (e : Z) :
  0 <= e -> half_away m e = Zpos m * 2 ^ e /\ half_away m e <> 0.
Proof.
  intro He. unfold half_away.
  replace (0 <=? e) with true by (symmetry; apply Z.leb_le; lia).
  split; [reflexivity |]. pose proof (pow2_pos e He). nia.
Qed.

Lemma half_away_nonneg (m : positive) (e : Z) : 0 <= half_away m e.
Proof.
  unfold half_away. destruct (0 <=? e) eqn:E.
  - apply Z.leb_le in E. pose proof (pow2_pos e E). nia.
  - apply Z.leb_gt in E. apply Z.div_pos.
    + pose proof (pow2_pos (- e - 1) ltac:(lia)). lia.
    + apply pow2_pos. lia.
Qed.

Lemma half_away_bound (m : positive) (e : Z) :
  Zpos m < 2 ^ 53 -> e < 0 -> half_away m e <= 2 ^ 52.
Proof.
  intros Hm He. unfold half_away.
  replace (0 <=? e) with false by (symmetry; apply Z.leb_gt; lia).
  pose proof (pow2_pos (- e - 1) ltac:(lia)) as Hc.
  assert (E2 : 2 ^ (- e) = 2 * 2 ^ (- e - 1)).
  { replace (- e) with (1 + (- e - 1)) at 1 by lia. rewrite Z.pow_add_r by lia. reflexivity. }
  rewrite E2.
  assert ((Zpos m + 2 ^ (- e - 1)) / (2 * 2 ^ (- e - 1)) < 2 ^ 52 + 1); [| lia].
  apply Z.div_lt_upper_bound; [lia |].
  change (2 ^ 53) with (2 * 2 ^ 52) in Hm. nia.
Qed.


(** [round_value] leaves the double of an integer as it is. *)
Lemma round_value_of_integer (s : bool) (G : Z) :
  0 <= G < 2 ^ 53 -> round_value (int_sf s G) = int_sf s G.
Proof.
  intro HG. destruct (Z.eq_dec G 0) as [-> | Hne].
  { rewrite int_sf_zero. reflexivity. }
  destruct (int_sf_normal s G ltac:(lia)) as (p & e & Hsh & He & Hp & Hval).
  rewrite Hsh. cbn [round_value].
  assert (Hh : half_away p e = G).
  { destruct (Z.eq_dec e 0) as [-> | Hneg].
    - destruct (half_away_large p 0 ltac:(lia)) as [Eh _]. rewrite Eh.
      change (2 ^ (0 + 53)) with (2 ^ 53) in Hval. change (2 ^ 0) with 1. lia.
    - replace e with (- (- e)) by lia. rewrite half_away_below_one by lia.
      pose proof (pow2_pos (- e - 1) ltac:(lia)) as Hc.
      assert (E2 : 2 ^ (- e) = 2 * 2 ^ (- e - 1)).
      { replace (- e) with (1 + (- e - 1)) at 1 by lia.
        rewrite Z.pow_add_r by lia. reflexivity. }
      assert (E53 : 2 ^ 53 = 2 ^ (- e) * 2 ^ (e + 53)).
      { rewrite <- Z.pow_add_r by lia. f_equal. lia. }
      pose proof (pow2_pos (e + 53) ltac:(lia)) as Hc'.
      assert (Ep : Zpos p = G * 2 ^ (- e)).
      { rewrite E53 in Hval. apply (Z.mul_reg_r _ _ (2 ^ (e + 53))); lia. }
      rewrite Ep. symmetry.
      apply (Z.div_unique _ _ _ (2 ^ (- e - 1))); lia. }
  rewrite Hh. replace (G =? 0) with false by (symmetry; apply Z.eqb_neq; exact Hne).
  rewrite <- Hsh. reflexivity.
Qed.

Lemma round_value_idempotent (x : spec_float) :
  valid_binary x = true -> round_value (round_value x) = round_value x.
Proof.
  intro Hvalid. destruct x as [s | s | | s m e]; try reflexivity.
  cbn [round_value].
  destruct (half_away m e =? 0) eqn:E0; [reflexivity |].
  destruct (valid_mantissa_bound _ _ _ Hvalid) as (Hm & _ & _).
  destruct (Z_lt_le_dec e 0) as [Hneg | Hhi].
  - apply round_value_of_integer.
    pose proof (half_away_nonneg m e). pose proof (half_away_bound m e Hm Hneg).
    change (2 ^ 53) with (2 ^ 52 + 2 ^ 52). change (2 ^ 52) with 4503599627370496 in *. lia.
  - destruct (half_away_large m e Hhi) as [Eh Hne].
    rewrite Eh, (int_sf_large s m e Hvalid Hhi). cbn [round_value].
    rewrite E0. rewrite Eh, (int_sf_large s m e Hvalid Hhi). reflexivity.
Qed.

Lemma int_sf_opp (s : bool) (G : Z) :
  0 < G -> int_sf (negb s) G = SFopp (int_sf s G).
Proof.
  intro HG. destruct G as [| pg | pg]; try lia.
  rewrite !int_sf_pos. symmetry. apply SFopp_binary_round.
Qed.

Lemma round_value_opp (x : spec_float) :
  round_value (SFopp x) = SFopp (round_value x).
Proof.
  destruct x as [s | s | | s m e]; try reflexivity.
  cbn [SFopp round_value].
  destruct (half_away m e =? 0) eqn:E0; [reflexivity |].
  apply Z.eqb_neq in E0. pose proof (half_away_nonneg m e).
  apply int_sf_opp. lia.
Qed.


(** *** Bounds and signs of rounded numbers *)

Lemma below_pow2_le (k k' : Z) (x : spec_float) :
  below_pow2 k x -> k <= k' -> below_pow2 k' x.
Proof. destruct x as [s | s | | s m e]; cbn; intros; try assumption; lia. Qed.

Lemma digits_at_most (p : positive) (j : Z) :
  Zpos p < 2 ^ j -> Zpos (digits2_pos p) <= j.
Proof.
  intro H. destruct (digits2_pos_bounds p) as [Hlo _].
  assert (0 <= j).
  { destruct (Z_lt_le_dec j 0) as [Hneg | Hpos]; [| exact Hpos].
    rewrite Z.pow_neg_r in H by exact Hneg. lia. }
  assert (Zpos (digits2_pos p) - 1 < j); [| lia].
  apply (Z.pow_lt_mono_r_iff 2); lia.
Qed.

Lemma below_pow2_finish (s : bool) (m e k : Z) :
  0 <= m -> m < 2 ^ (k - e) -> e <= 971 ->
  below_pow2 k (finish s m e).
Proof.
  intros Hm Hlt He. destruct m as [| p | p]; cbn [finish]; [exact I | | lia].
  replace (e <=? 971) with true by (symmetry; apply Z.leb_le; exact He).
  cbn [below_pow2]. pose proof (digits_at_most p (k - e) Hlt). lia.
Qed.

(** A rounded number exceeds no power of two that the exact one is
    below. *)
Lemma binary_round_aux_below (s : bool) (M E k : Z) :
  0 < M -> E <= fexp64 (Zdigits2 M + E) ->
  Zdigits2 M + E <= k -> -1074 <= k <= 970 ->
  below_pow2 (k + 1) (binary_round_aux prec emax s M E loc_Exact).
Proof.
  intros HM HE Hd Hk.
  destruct (binary_round_aux_shape s M E HM HE) as (m2 & Hm2 & _ & Hres).
  cbv zeta in Hres. rewrite Hres. clear Hres.
  set (ex := fexp64 (Zdigits2 M + E)) in *.
  assert (Hex : ex <= k) by (unfold ex, fexp64; lia).
  assert (Hex' : -1074 <= ex) by (unfold ex, fexp64; lia).
  assert (HMd : M < 2 ^ Zdigits2 M).
  { destruct M as [| p | p]; try lia. rewrite Zdigits2_pos. apply digits2_pos_bounds. }
  assert (Hdpos : 0 <= Zdigits2 M).
  { destruct M as [| p | p]; try lia. rewrite Zdigits2_pos. lia. }
  assert (Hq : 0 <= M / 2 ^ (ex - E) < 2 ^ (k - ex)).
  { pose proof (pow2_pos (ex - E) ltac:(lia)).
    split; [apply Z.div_pos; lia |].
    apply Z.div_lt_upper_bound; [lia |].
    rewrite <- Z.pow_add_r by lia.
    assert (2 ^ Zdigits2 M <= 2 ^ (ex - E + (k - ex))) by (apply pow2_le; lia).
    lia. }
  assert (Hm2b : 0 <= m2 <= 2 ^ (k - ex)) by lia.
  assert (Hm2lt : m2 < 2 ^ (k + 1 - ex)).
  { replace (k + 1 - ex) with (1 + (k - ex)) by lia. rewrite Z.pow_add_r by lia.
    pose proof (pow2_pos (k - ex) ltac:(lia)). change (2 ^ 1) with 2. lia. }
  set (n2 := fexp64 (Zdigits2 m2 + ex) - ex).
  destruct (0 <? n2) eqn:En.
  - apply Z.ltb_lt in En.
    assert (Hd2 : Zdigits2 m2 + ex <= k + 1).
    { destruct m2 as [| p | p]; [cbn [Zdigits2]; lia | | lia].
      rewrite Zdigits2_pos.
      pose proof (digits_at_most p (k + 1 - ex) Hm2lt). lia. }
    assert (Hn2 : ex + n2 <= k + 1 /\ ex + n2 <= 971) by (unfold n2, fexp64; lia).
    apply below_pow2_finish.
    + apply Z.div_pos; [lia | apply pow2_pos; lia].
    + apply Z.div_lt_upper_bound; [apply pow2_pos; lia |].
      rewrite <- Z.pow_add_r by lia.
      replace (n2 + (k + 1 - (ex + n2))) with (k + 1 - ex) by lia. exact Hm2lt.
    + lia.
  - apply below_pow2_finish; [lia | exact Hm2lt | lia].
Qed.

Lemma shr_iter_nonneg (k : nat) (r : shr_record) :
  0 <= shr_m r -> 0 <= shr_m (Nat.iter k shr_1 r).
Proof.
  intro H. induction k as [| k IH]; [exact H |].
  rewrite Nat.iter_succ.
  destruct (shr_1_fields _ IH) as (Hm & _). rewrite Hm. apply Z.div_pos; lia.
Qed.

Lemma shr_fexp_nonneg (m e : Z) (l : location) :
  0 <= m -> 0 <= shr_m (fst (shr_fexp prec emax m e l)).
Proof.
  intro Hm. unfold shr_fexp, shr.
  assert (H0 : 0 <= shr_m (shr_record_of_loc m l)).
  { destruct l as [| []]; exact Hm. }
  destruct (fexp prec emax (Zdigits2 m + e) - e) as [| p | p]; cbn [fst]; try exact H0.
  rewrite iter_pos_nat. apply shr_iter_nonneg. exact H0.
Qed.

(** The sign of a rounded number is the sign it was given; rounding yields
    no NaN. *)
Lemma binary_round_aux_sign (s : bool) (m e : Z) (l : location) :
  0 <= m ->
  match binary_round_aux prec emax s m e l with
  | S754_zero s' | S754_infinity s' | S754_finite s' _ _ => s' = s
  | S754_nan => False
  end.
Proof.
  intro Hm. unfold binary_round_aux.
  pose proof (shr_fexp_nonneg m e l Hm) as H1.
  destruct (shr_fexp prec emax m e l) as [mrs' e']. cbn [fst] in H1.
  assert (H2 : 0 <= round_nearest_even (shr_m mrs') (loc_of_shr_record mrs')).
  { destruct (round_nearest_even_cases (shr_m mrs') (loc_of_shr_record mrs')) as [[-> | ->] _];
      lia. }
  pose proof (shr_fexp_nonneg _ e' loc_Exact H2) as H3.
  destruct (shr_fexp prec emax _ e' loc_Exact) as [mrs'' e'']. cbn [fst] in H3.
  destruct (shr_m mrs'') as [| p | p]; [reflexivity | | lia].
  destruct (e'' <=? emax - prec); reflexivity.
Qed.

Lemma below_digits (p : positive) : Zpos p < 2 ^ Zpos (digits2_pos p).
Proof. apply digits2_pos_bounds. Qed.

(** The bound of a product. *)
Lemma SF64mul_below (a b : spec_float) (i j : Z) :
  valid_binary a = true -> valid_binary b = true ->
  below_pow2 i a -> below_pow2 j b -> -1074 <= i + j <= 970 ->
  below_pow2 (i + j + 1) (SF64mul a b).
Proof.
  intros Va Vb Ha Hb Hk.
  destruct a as [sa | sa | | sa ma ea]; destruct b as [sb | sb | | sb mb eb];
    cbn [below_pow2] in Ha, Hb; try contradiction; try exact I.
  unfold SF64mul, SFmul.
  destruct (valid_mantissa_bound _ _ _ Va) as (Hma & (Hea & _) & Hna).
  destruct (valid_mantissa_bound _ _ _ Vb) as (Hmb & (Heb & _) & Hnb).
  pose proof (below_digits ma) as Hda. pose proof (below_digits mb) as Hdb.
  set (da := Zpos (digits2_pos ma)) in *. set (db := Zpos (digits2_pos mb)) in *.
  assert (HM : Zpos (ma * mb) < 2 ^ (da + db)).
  { rewrite Pos2Z.inj_mul, Z.pow_add_r by (unfold da, db; lia). nia. }
  pose proof (digits_at_most _ _ HM) as HdM.
  apply binary_round_aux_below; [lia | | rewrite Zdigits2_pos; lia | exact Hk].
  rewrite Zdigits2_pos. unfold fexp64.
  destruct (Z.eq_dec ea (-1074)) as [Ea | Na].
  - destruct (Z.eq_dec eb (-1074)) as [Eb | Nb]; [lia |].
    specialize (Hnb ltac:(lia)).
    assert (53 <= Zpos (digits2_pos (ma * mb))); [| lia].
    assert (52 < Zpos (digits2_pos (ma * mb))); [| lia].
    apply (Z.pow_lt_mono_r_iff 2); [lia | lia |].
    pose proof (below_digits (ma * mb)). rewrite Pos2Z.inj_mul in *. nia.
  - specialize (Hna ltac:(lia)).
    assert (52 < Zpos (digits2_pos (ma * mb))); [| lia].
    apply (Z.pow_lt_mono_r_iff 2); [lia | lia |].
    pose proof (below_digits (ma * mb)). rewrite Pos2Z.inj_mul in *. nia.
Qed.

(** The bound of a number given by an integer and an exponent. *)
Lemma binary_normalize_below (D ez k : Z) :
  Z.abs D < 2 ^ (k - ez) -> -1074 <= k <= 970 ->
  below_pow2 (k + 1) (binary_normalize prec emax D ez false).
Proof.
  intros HD Hk.
  assert (Hround : forall (s : bool) (pd : positive),
             Zpos pd < 2 ^ (k - ez) ->
             below_pow2 (k + 1) (binary_round prec emax s pd ez)).
  { intros s pd Hpd. unfold binary_round.
    destruct (shl_align_spec pd ez (fexp prec emax (Zpos (digits2_pos pd) + ez)))
      as (mz & ez' & Hal & Hez & Hmz).
    rewrite Hal. rewrite fexp64_eq in Hez.
    pose proof (digits_at_most pd (k - ez) Hpd) as Hd.
    assert (Hdz : Zpos (digits2_pos mz) = Zpos (digits2_pos pd) + (ez - ez')).
    { apply digits2_shift; [lia | exact Hmz]. }
    apply binary_round_aux_below; [lia | | rewrite Zdigits2_pos; lia | exact Hk].
    rewrite Zdigits2_pos, Hdz.
    replace (Zpos (digits2_pos pd) + (ez - ez') + ez') with (Zpos (digits2_pos pd) + ez)
      by lia.
    lia. }
  destruct D as [| pd | pd]; cbn [binary_normalize]; [exact I | |];
    apply Hround; cbn [Z.abs] in HD; exact HD.
Qed.

Lemma aligned_below (m : positive) (e ez i : Z) :
  ez <= e -> Zpos (digits2_pos m) + e <= i ->
  Zpos (fst (shl_align m e ez)) < 2 ^ (i - ez).
Proof.
  intros Hez Hd. rewrite fst_shl_align by exact Hez.
  pose proof (below_digits m) as Hm. pose proof (pow2_pos (e - ez) ltac:(lia)).
  assert (2 ^ Zpos (digits2_pos m) * 2 ^ (e - ez) <= 2 ^ (i - ez)).
  { rewrite <- Z.pow_add_r by lia. apply pow2_le. lia. }
  nia.
Qed.

(** The bound of a sum and of a difference. *)
Lemma SF64add_below (a b : spec_float) (i : Z) :
  below_pow2 i a -> below_pow2 i b -> -1075 <= i <= 969 ->
  below_pow2 (i + 2) (SF64add a b) /\ below_pow2 (i + 2) (SF64sub a b).
Proof.
  intros Ha Hb Hk.
  destruct a as [sa | sa | | sa ma ea]; destruct b as [sb | sb | | sb mb eb];
    cbn [below_pow2] in Ha, Hb; try contradiction.
  - split; destruct sa, sb; exact I.
  - split; unfold SF64add, SFadd, SF64sub, SFsub; cbn [below_pow2]; lia.
  - split; unfold SF64add, SFadd, SF64sub, SFsub; cbn [below_pow2]; lia.
  - unfold SF64add, SFadd, SF64sub, SFsub.
    set (ez := Z.min ea eb).
    pose proof (aligned_below ma ea ez i ltac:(unfold ez; lia) Ha) as HA.
    pose proof (aligned_below mb eb ez i ltac:(unfold ez; lia) Hb) as HB.
    set (A := Zpos (fst (shl_align ma ea ez))) in *.
    set (B := Zpos (fst (shl_align mb eb ez))) in *.
    assert (HAB : 0 < A /\ 0 < B) by (unfold A, B; lia).
    assert (Hpow : 2 ^ (i + 1 - ez) = 2 * 2 ^ (i - ez)).
    { assert (0 <= i - ez).
      { destruct (Z_lt_le_dec (i - ez) 0) as [Hneg | Hpos]; [| exact Hpos].
        rewrite Z.pow_neg_r in HA by exact Hneg. lia. }
      replace (i + 1 - ez) with (1 + (i - ez)) by lia.
      rewrite Z.pow_add_r by lia. reflexivity. }
    replace (i + 2) with (i + 1 + 1) by lia.
    split; apply binary_normalize_below; try lia; rewrite Hpow;
      destruct sa, sb; cbn [cond_Zopp]; lia.
Qed.

(** [1.0 + t] and [1.0 - t] for [|t| < 1/2]: positive numbers. *)
Lemma one_and_small (t : spec_float) :
  valid_binary t = true -> below_pow2 (-1) t ->
  (exists m e, SF64add sf_one t = S754_finite false m e /\
               0 <= Zpos (digits2_pos m) + e <= 2) /\
  (exists m e, SF64sub sf_one t = S754_finite false m e /\
               0 <= Zpos (digits2_pos m) + e <= 2).
Proof.
  intros Vt Ht. destruct t as [st | st | | st mt et]; cbn [below_pow2] in Ht; try contradiction.
  { split; do 2 eexists; (split; [reflexivity | cbn; lia]). }
  destruct (valid_mantissa_bound _ _ _ Vt) as (Hmt & (Het & _) & Hnt).
  pose proof (below_digits mt) as Hdt. destruct (digits2_pos_bounds mt) as [Hdlo _].
  set (dt := Zpos (digits2_pos mt)) in *.
  assert (Het2 : et <= -54).
  { destruct (Z.eq_dec et (-1074)) as [E | N]; [lia |].
    specialize (Hnt ltac:(lia)).
    assert (52 < dt); [| lia].
    apply (Z.pow_lt_mono_r_iff 2); [lia | lia |]. lia. }
  unfold SF64add, SFadd, SF64sub, SFsub, sf_one.
  replace (Z.min (-52) et) with et by lia.
  set (A := fst (shl_align 4503599627370496 (-52) et)).
  set (B := fst (shl_align mt et et)).
  assert (HA : Zpos A = 2 ^ (- et)).
  { unfold A. rewrite fst_shl_align by lia.
    change (Zpos 4503599627370496) with (2 ^ 52). rewrite <- Z.pow_add_r by lia.
    f_equal. lia. }
  assert (HB : Zpos B = Zpos mt).
  { unfold B. rewrite fst_shl_align by lia. rewrite Z.sub_diag. cbn. lia. }
  assert (Hsmall : 2 * Zpos mt < 2 ^ (- et)).
  { assert (2 ^ dt <= 2 ^ (- et - 1)) by (apply pow2_le; unfold dt; lia).
    replace (- et) with (1 + (- et - 1)) by lia. rewrite Z.pow_add_r by lia.
    change (2 ^ 1) with 2. lia. }
  assert (Hround : forall S : Z,
             2 ^ (- et - 1) < S < 2 ^ (- et + 1) ->
             exists m e, binary_normalize prec emax S et false = S754_finite false m e /\
                         0 <= Zpos (digits2_pos m) + e <= 2).
  { intros S HS. pose proof (pow2_pos (- et - 1) ltac:(lia)).
    destruct S as [| pS | pS]; try lia.
    cbn [binary_normalize].
    destruct (digits2_pos_bounds pS) as [HSlo HShi].
    set (dS := Zpos (digits2_pos pS)) in *.
    assert (HdS : - et <= dS <= - et + 1).
    { split.
      - assert (- et - 1 < dS); [| lia]. apply (Z.pow_lt_mono_r_iff 2); lia.
      - assert (dS - 1 < - et + 1); [| lia]. apply (Z.pow_lt_mono_r_iff 2); lia. }
    destruct (binary_round_normal false pS et) as (Hq & p & e & Hres & Hcases);
      fold dS; try lia.
    fold dS in Hq, Hcases.
    exists p, e. split; [exact Hres |].
    assert (Hdp : Zpos (digits2_pos p) = 53).
    { apply digits2_pos_unique. change (2 ^ (53 - 1)) with (2 ^ 52).
      destruct Hcases as [(_ & [Hp | Hp] & Hp53) | (_ & Hp & _)]; rewrite ?Hp; lia. }
    rewrite Hdp. destruct Hcases as [(He & _) | (He & _)]; lia. }
  assert (Hhalf : 2 ^ (- et) = 2 * 2 ^ (- et - 1)).
  { replace (- et) with (1 + (- et - 1)) at 1 by lia. rewrite Z.pow_add_r by lia.
    reflexivity. }
  assert (Hdbl : 2 ^ (- et + 1) = 2 * 2 ^ (- et)).
  { replace (- et + 1) with (1 + - et) by lia. rewrite Z.pow_add_r by lia. reflexivity. }
  split; apply Hround; cbn [cond_Zopp]; rewrite HA, HB, Hdbl;
    destruct st; cbn [cond_Zopp]; lia.
Qed.

(** Products and quotients of non-negative numbers. *)
Lemma SF64mul_nonnegative (m : positive) (e : Z) (y : spec_float) :
  nonnegative y -> nonnegative (SF64mul y (S754_finite false m e)).
Proof.
  intro Hy. destruct y as [s | s | | s my ey]; cbn in Hy; try contradiction.
  - exact I.
  - subst s. reflexivity.
  - subst s. unfold SF64mul, SFmul. cbn [xorb].
    pose proof (binary_round_aux_sign false (Zpos (my * m)) (ey + e) loc_Exact ltac:(lia)) as H.
    destruct (binary_round_aux _ _ _ _ _ _); cbn; try exact H; exact I.
Qed.

Lemma SF64mul_nonnegative_l (m : positive) (e : Z) (y : spec_float) :
  nonnegative y -> nonnegative (SF64mul (S754_finite false m e) y).
Proof.
  intro Hy. destruct y as [s | s | | s my ey]; cbn [nonnegative] in Hy; try contradiction.
  - exact I.
  - subst s. reflexivity.
  - subst s. unfold SF64mul, SFmul. cbn [xorb].
    pose proof (binary_round_aux_sign false (Zpos (m * my)) (e + ey) loc_Exact ltac:(lia)) as H.
    destruct (binary_round_aux _ _ _ _ _ _); cbn [nonnegative]; try exact H; exact I.
Qed.

Lemma SF64div_nonnegative (m1 m2 : positive) (e1 e2 : Z) :
  nonnegative (SF64div (S754_finite false m1 e1) (S754_finite false m2 e2)).
Proof.
  unfold SF64div, SFdiv, SFdiv_core_binary. cbn [xorb].
  set (s := e1 - e2 - Z.min _ _).
  set (m' := match s with 0 => Zpos m1 | Zpos _ => Z.shiftl (Zpos m1) s | Zneg _ => 0 end).
  assert (Hm' : 0 <= m').
  { unfold m'. destruct s as [| p | p] eqn:Es; try lia.
    rewrite Z.shiftl_mul_pow2 by lia. pose proof (pow2_pos (Zpos p) ltac:(lia)). lia. }
  pose proof (Z.div_eucl_eq m' (Zpos m2) ltac:(lia)) as Heq.
  pose proof (Z.div_pos m' (Zpos m2) Hm' ltac:(lia)) as Hq.
  unfold Z.div in Hq.
  destruct (Z.div_eucl m' (Zpos m2)) as [q r]. cbn [fst] in Hq.
  pose proof (binary_round_aux_sign false q (Z.min (fexp prec emax
      (Zdigits2 (Zpos m1) + e1 - (Zdigits2 (Zpos m2) + e2))) (e1 - e2))
      (new_location (Zpos m2) r) Hq) as H.
  destruct (binary_round_aux _ _ _ _ _ _); cbn; try exact H; exact I.
Qed.

(** The distance of a number below [2^52] to its rounding is below 1. *)
Lemma SF64sub_round_value (x : spec_float) :
  valid_binary x = true ->
  match x with
  | S754_zero _ => True
  | S754_finite _ _ e => e < 0
  | _ => False
  end ->
  below_pow2 1 (SF64sub x (round_value x)).
Proof.
  intros Vx Hx. destruct x as [s | s | | s mv ev]; try contradiction.
  { destruct s; exact I. }
  destruct (valid_mantissa_bound _ _ _ Vx) as (Hmv & _ & Hnormal).
  cbn [round_value].
  destruct (Z_lt_le_dec ev (-53)) as [Hsmall | Hlo].
  { rewrite (half_away_small mv ev Hmv Hsmall). cbn [Z.eqb].
    unfold SF64sub, SFsub. cbn [below_pow2].
    pose proof (digits_at_most mv 53 Hmv). lia. }
  specialize (Hnormal ltac:(lia)).
  set (u := - ev). assert (Hu : 1 <= u <= 53) by (unfold u; lia).
  replace ev with (- u) in * by (unfold u; lia).
  rewrite half_away_below_one by lia.
  destruct (away_half_floor s mv u (conj Hnormal Hmv) Hu) as (HF & _). cbv zeta in HF.
  set (F := (Zpos mv + 2 ^ (u - 1)) / 2 ^ u) in *.
  replace (F =? 0) with false by (symmetry; apply Z.eqb_neq; lia).
  destruct (int_sf_normal s F) as (pF & eF & Hsh & HeF & HpF & Hval).
  { change (2 ^ 53) with (2 ^ 52 + 2 ^ 52). pose proof (pow2_pos 52). lia. }
  rewrite Hsh. unfold SF64sub, SFsub.
  set (ez := Z.min (- u) eF).
  assert (Hez : -53 <= ez <= - u /\ ez <= eF) by (unfold ez; lia).
  rewrite !fst_shl_align by lia.
  set (c := 2 ^ (- u - ez)).
  assert (Hc : 0 < c) by (apply pow2_pos; lia).
  assert (HW : 2 ^ (0 - ez) = 2 ^ u * c).
  { unfold c. rewrite <- Z.pow_add_r by lia. f_equal. lia. }
  assert (HB : Zpos pF * 2 ^ (eF - ez) = F * (2 ^ u * c)).
  { rewrite <- HW.
    assert (E1 : 2 ^ (eF + 53) = 2 ^ (eF - ez) * 2 ^ (ez + 53)).
    { rewrite <- Z.pow_add_r by lia. f_equal. lia. }
    assert (E2 : 2 ^ 53 = 2 ^ (0 - ez) * 2 ^ (ez + 53)).
    { rewrite <- Z.pow_add_r by lia. f_equal. lia. }
    rewrite E1, E2 in Hval. pose proof (pow2_pos (ez + 53) ltac:(lia)).
    apply (Z.mul_reg_r _ _ (2 ^ (ez + 53))); lia. }
  assert (HR : 0 <= Zpos mv + 2 ^ (u - 1) - F * 2 ^ u < 2 ^ u).
  { unfold F. pose proof (pow2_pos u ltac:(lia)).
    pose proof (Z.div_mod (Zpos mv + 2 ^ (u - 1)) (2 ^ u) ltac:(lia)).
    pose proof (Z.mod_pos_bound (Zpos mv + 2 ^ (u - 1)) (2 ^ u) ltac:(lia)). lia. }
  assert (H2 : 2 ^ u = 2 * 2 ^ (u - 1)).
  { replace u with (1 + (u - 1)) at 1 by lia. rewrite Z.pow_add_r by lia. reflexivity. }
  apply (binary_normalize_below _ ez 0); [| lia].
  rewrite HW, HB. fold c.
  pose proof (pow2_pos (u - 1) ltac:(lia)).
  destruct s; cbn [cond_Zopp]; nia.
Qed.

Lemma at_least_le (k k' : Z) (x : spec_float) :
  at_least k x -> k' <= k -> at_least k' x.
Proof.
  destruct x as [s | s | | s m e]; cbn [at_least]; intros H Hk; try assumption.
  split; [apply H | lia].
Qed.

Lemma shr_iter_m (k : nat) (r : shr_record) :
  0 <= shr_m r -> shr_m (Nat.iter k shr_1 r) = shr_m r / 2 ^ Z.of_nat k.
Proof.
  intro H. induction k as [| k IH].
  - cbn. rewrite Z.div_1_r. reflexivity.
  - rewrite Nat.iter_succ.
    pose proof (shr_iter_nonneg k r H) as Hk.
    destruct (shr_1_fields _ Hk) as (Hm & _). rewrite Hm, IH.
    rewrite Nat2Z.inj_succ, Z.pow_succ_r by lia.
    rewrite Z.div_div by (try apply pow2_pos; lia). f_equal. lia.
Qed.

Lemma shr_m_of (r : shr_record) (e n : Z) :
  0 <= shr_m r -> 0 <= n ->
  exists r', shr r e n = (r', e + n) /\ shr_m r' = shr_m r / 2 ^ n.
Proof.
  intros Hr Hn. destruct n as [| p | p]; [| | lia].
  - exists r. rewrite Z.add_0_r, Z.div_1_r. split; reflexivity.
  - cbn [shr]. rewrite iter_pos_nat. eexists. split; [reflexivity |].
    rewrite shr_iter_m by exact Hr. rewrite positive_nat_Z. reflexivity.
Qed.

(** The size of a rounded number in the normal range, whatever is known of
    the digits that were cut: it is not below that of the number given. *)
Lemma binary_round_aux_at_least (s : bool) (M E : Z) (l : location) :
  0 < M -> E <= fexp64 (Zdigits2 M + E) -> -1021 <= Zdigits2 M + E ->
  match binary_round_aux prec emax s M E l with
  | S754_infinity s' => s' = s
  | S754_finite s' p e => s' = s /\ Zdigits2 M + E <= Zpos (digits2_pos p) + e
  | _ => False
  end.
Proof.
  intros HM HE Hnormal.
  destruct M as [| pM | pM]; try lia. rewrite Zdigits2_pos in *.
  destruct (digits2_pos_bounds pM) as [HMlo HMhi].
  set (dM := Zpos (digits2_pos pM)) in *.
  assert (Hex : fexp64 (dM + E) = dM + E - 53) by (unfold fexp64; lia).
  rewrite Hex in HE.
  unfold binary_round_aux, shr_fexp. rewrite !fexp64_eq, Zdigits2_pos. fold dM.
  rewrite Hex.
  destruct (shr_m_of (shr_record_of_loc (Zpos pM) l) E (dM + E - 53 - E))
    as (r1 & Hshr & Hm1).
  { destruct l as [| []]; cbn; lia. }
  { lia. }
  rewrite Hshr. replace (E + (dM + E - 53 - E)) with (dM + E - 53) by lia.
  assert (Hm0 : shr_m (shr_record_of_loc (Zpos pM) l) = Zpos pM)
    by (destruct l as [| []]; reflexivity).
  rewrite Hm0 in Hm1. replace (dM + E - 53 - E) with (dM - 53) in Hm1 by lia.
  assert (Hq : 2 ^ 52 <= shr_m r1 < 2 ^ 53).
  { rewrite Hm1. pose proof (pow2_pos (dM - 53) ltac:(lia)).
    assert (E1 : 2 ^ (dM - 1) = 2 ^ 52 * 2 ^ (dM - 53)).
    { rewrite <- Z.pow_add_r by lia. f_equal. lia. }
    assert (E2 : 2 ^ dM = 2 ^ 53 * 2 ^ (dM - 53)).
    { rewrite <- Z.pow_add_r by lia. f_equal. lia. }
    split; [apply Z.div_le_lower_bound; lia | apply Z.div_lt_upper_bound; lia]. }
  set (m2 := round_nearest_even (shr_m r1) (loc_of_shr_record r1)).
  assert (Hm2 : 2 ^ 52 <= m2 <= 2 ^ 53).
  { destruct (round_nearest_even_cases (shr_m r1) (loc_of_shr_record r1)) as [[H | H] _];
      fold m2 in H; lia. }
  destruct m2 as [| p2 | p2] eqn:Em2; try lia.
  rewrite Zdigits2_pos.
  destruct (Z.eq_dec (Zpos p2) (2 ^ 53)) as [Hcarry | Hno].
  - assert (Hd2 : Zpos (digits2_pos p2) = 54).
    { apply digits2_pos_unique. rewrite Hcarry. split; [reflexivity | reflexivity]. }
    rewrite Hd2, ?fexp64_eq.
    replace (fexp64 (54 + (dM + E - 53)) - (dM + E - 53)) with 1 by (unfold fexp64; lia).
    assert (Ep : p2 = 9007199254740992%positive) by (apply Pos2Z.inj; exact Hcarry).
    subst p2. cbn [shr iter_pos shr_1 shr_record_of_loc shr_m].
    destruct (dM + E - 53 + 1 <=? emax - prec); [| reflexivity].
    split; [reflexivity |].
    change (Zpos (digits2_pos 4503599627370496)) with 53. lia.
  - assert (Hd2 : Zpos (digits2_pos p2) = 53).
    { apply digits2_pos_unique. change (2 ^ (53 - 1)) with (2 ^ 52). lia. }
    rewrite Hd2, ?fexp64_eq.
    replace (fexp64 (53 + (dM + E - 53)) - (dM + E - 53)) with 0 by (unfold fexp64; lia).
    cbn [shr shr_record_of_loc shr_m].
    destruct (dM + E - 53 <=? emax - prec); [| reflexivity].
    split; [reflexivity |]. rewrite Hd2. lia.
Qed.

Lemma digits_above (p : positive) (j : Z) :
  2 ^ j <= Zpos p -> j + 1 <= Zpos (digits2_pos p).
Proof.
  intro H. pose proof (below_digits p) as Hp.
  assert (j < Zpos (digits2_pos p)); [| lia].
  destruct (Z_lt_le_dec j 0) as [Hneg | Hpos]; [lia |].
  apply (Z.pow_lt_mono_r_iff 2); lia.
Qed.

(** The size of a product of positive numbers. *)
Lemma SF64mul_at_least (a b : spec_float) (i j : Z) :
  valid_binary a = true -> valid_binary b = true ->
  at_least i a -> at_least j b -> -1022 <= i + j ->
  at_least (i + j) (SF64mul a b).
Proof.
  intros Va Vb Ha Hb Hk.
  destruct a as [sa | sa | | sa ma ea]; destruct b as [sb | sb | | sb mb eb];
    cbn [at_least] in Ha, Hb; try contradiction.
  - subst sa sb. reflexivity.
  - destruct Hb as [-> _]. subst sa. reflexivity.
  - destruct Ha as [-> _]. subst sb. reflexivity.
  - destruct Ha as [-> Ha]. destruct Hb as [-> Hb].
    unfold SF64mul, SFmul. cbn [xorb].
    destruct (valid_mantissa_bound _ _ _ Va) as (Hma & (Hea & _) & Hna).
    destruct (valid_mantissa_bound _ _ _ Vb) as (Hmb & (Heb & _) & Hnb).
    destruct (digits2_pos_bounds ma) as [Hla _].
    destruct (digits2_pos_bounds mb) as [Hlb _].
    pose proof (Pos2Z.is_pos (digits2_pos ma)) as Hpa.
    pose proof (Pos2Z.is_pos (digits2_pos mb)) as Hpb.
    set (da := Zpos (digits2_pos ma)) in *. set (db := Zpos (digits2_pos mb)) in *.
    assert (HM : 2 ^ (da + db - 2) <= Zpos (ma * mb)).
    { replace (da + db - 2) with ((da - 1) + (db - 1)) by lia.
      rewrite Pos2Z.inj_mul, Z.pow_add_r by lia.
      pose proof (pow2_pos (da - 1) ltac:(lia)). pose proof (pow2_pos (db - 1) ltac:(lia)).
      nia. }
    pose proof (digits_above _ _ HM) as HdM.
    pose proof (binary_round_aux_at_least false (Zpos (ma * mb)) (ea + eb) loc_Exact) as H.
    rewrite Zdigits2_pos in H.
    assert (Hfexp : ea + eb <= fexp64 (Zpos (digits2_pos (ma * mb)) + (ea + eb))).
    { unfold fexp64.
      destruct (Z.eq_dec ea (-1074)) as [Ea | Na].
      - destruct (Z.eq_dec eb (-1074)) as [Eb | Nb]; [lia |].
        specialize (Hnb ltac:(lia)).
        assert (52 < Zpos (digits2_pos (ma * mb))); [| lia].
        apply (Z.pow_lt_mono_r_iff 2); [lia | lia |].
        pose proof (below_digits (ma * mb)). rewrite Pos2Z.inj_mul in *. nia.
      - specialize (Hna ltac:(lia)).
        assert (52 < Zpos (digits2_pos (ma * mb))); [| lia].
        apply (Z.pow_lt_mono_r_iff 2); [lia | lia |].
        pose proof (below_digits (ma * mb)). rewrite Pos2Z.inj_mul in *. nia. }
    specialize (H ltac:(lia) Hfexp ltac:(lia)).
    destruct (binary_round_aux prec emax false (Zpos (ma * mb)) (ea + eb) loc_Exact)
      as [s | s | | s p e]; cbn [at_least]; try contradiction.
    + exact H.
    + destruct H as [-> H]. split; [reflexivity | lia].
Qed.

(** The size of a quotient of positive numbers. *)
Lemma SF64div_at_least (m1 m2 : positive) (e1 e2 k : Z) :
  k + 1 <= Zpos (digits2_pos m1) + e1 - (Zpos (digits2_pos m2) + e2) ->
  -1022 <= k ->
  at_least k (SF64div (S754_finite false m1 e1) (S754_finite false m2 e2)).
Proof.
  intros Hk Hnormal.
  unfold SF64div, SFdiv, SFdiv_core_binary. cbn [xorb]. rewrite !Zdigits2_pos, fexp64_eq.
  destruct (digits2_pos_bounds m1) as [Hl1 _]. pose proof (below_digits m2) as Hh2.
  pose proof (Pos2Z.is_pos (digits2_pos m1)) as Hp1.
  pose proof (Pos2Z.is_pos (digits2_pos m2)) as Hp2.
  set (d1 := Zpos (digits2_pos m1)) in *. set (d2 := Zpos (digits2_pos m2)) in *.
  set (e' := Z.min (fexp64 (d1 + e1 - (d2 + e2))) (e1 - e2)).
  assert (He' : e' <= d1 + e1 - (d2 + e2) - 53 /\ e' <= e1 - e2).
  { unfold e', fexp64. lia. }
  set (s := e1 - e2 - e').
  assert (Hs : 0 <= s /\ 53 <= d1 + s - d2) by (unfold s; lia).
  set (m' := match s with 0 => Zpos m1 | Zpos _ => Z.shiftl (Zpos m1) s | Zneg _ => 0 end).
  assert (Hm' : m' = Zpos m1 * 2 ^ s).
  { unfold m'. destruct s as [| p | p] eqn:Es; try lia.
    rewrite Z.shiftl_mul_pow2 by lia. reflexivity. }
  pose proof (Z.div_eucl_eq m' (Zpos m2) ltac:(lia)) as Heq.
  assert (Hq : 2 ^ (d1 + s - d2 - 1) <= m' / Zpos m2).
  { apply Z.div_le_lower_bound; [lia |].
    rewrite Hm'.
    assert (E1 : 2 ^ (d1 - 1) * 2 ^ s = 2 ^ d2 * 2 ^ (d1 + s - d2 - 1)).
    { rewrite <- !Z.pow_add_r by lia. f_equal. lia. }
    pose proof (pow2_pos (d1 + s - d2 - 1) ltac:(lia)).
    pose proof (pow2_pos s ltac:(lia)). nia. }
  unfold Z.div in Hq.
  destruct (Z.div_eucl m' (Zpos m2)) as [q r]. cbn [fst] in Hq.
  pose proof (pow2_pos (d1 + s - d2 - 1) ltac:(lia)) as Hpos.
  destruct q as [| pq | pq]; try lia.
  pose proof (digits_above _ _ Hq) as Hdq.
  pose proof (binary_round_aux_at_least false (Zpos pq) e'
                (new_location (Zpos m2) r)) as H.
  rewrite Zdigits2_pos in H.
  assert (Hsum : d1 + e1 - (d2 + e2) <= Zpos (digits2_pos pq) + e') by (unfold s in *; lia).
  specialize (H ltac:(lia) ltac:(unfold fexp64; lia) ltac:(lia)).
  destruct (binary_round_aux prec emax false (Zpos pq) e' _)
    as [s' | s' | | s' p e]; cbn [at_least]; try contradiction.
  - exact H.
  - destruct H as [-> H]. split; [reflexivity | lia].
Qed.

End Binary64.

(** * Properties of [round] *)

Section Round.
Open Scope Z_scope.

(** *** Comparisons with the constants of [round] *)

Lemma ltb_half_false (m : positive) (e : Z) :
  SFltb (S754_finite false m e) sf_half = false -> -53 <= e.
Proof.
  unfold SFltb, SFcompare, sf_half.
  destruct (Z.compare_spec e (-53)) as [H | H | H]; [lia | discriminate | lia].
Qed.

Lemma ltb_neg_half_false (m : positive) (e : Z) :
  SFltb (SFopp sf_half) (S754_finite true m e) = false -> -53 <= e.
Proof.
  unfold SFltb, SFcompare, sf_half, SFopp, negb.
  destruct (Z.compare_spec (-53) e) as [H | H | H]; [lia | lia | discriminate].
Qed.

Lemma ltb_two52_true (m : positive) (e : Z) :
  e < 0 -> SFltb (S754_finite false m e) sf_two52 = true.
Proof.
  intro H. unfold SFltb, SFcompare, sf_two52.
  destruct (Z.compare_spec e 0) as [H0 | H0 | H0]; [lia | reflexivity | lia].
Qed.

Lemma ltb_neg_two52_true (m : positive) (e : Z) :
  e < 0 -> SFltb (SFopp sf_two52) (S754_finite true m e) = true.
Proof.
  intro H. unfold SFltb, SFcompare, sf_two52, SFopp, negb.
  destruct (Z.compare_spec 0 e) as [H0 | H0 | H0]; [lia | lia | reflexivity].
Qed.

(** *** [round] on a double of magnitude below [2^19] *)

Open Scope float_scope.

Lemma round_positive_path (v : float) :
  (0 <? v) = true -> (v <? 0.5) = false -> (v <? TWO_MANT_DIG) = true ->
  round v = if v + 0.5 <? v + 0.5 + TWO_MANT_DIG - TWO_MANT_DIG
            then v + 0.5 + TWO_MANT_DIG - TWO_MANT_DIG - 1
            else v + 0.5 + TWO_MANT_DIG - TWO_MANT_DIG.
Proof. intros H0 H1 H2. unfold round. cbv zeta. rewrite H0, H1, H2. reflexivity. Qed.

Lemma round_negative_path (v : float) :
  (0 <? v) = false -> (v <? 0) = true -> (-0.5 <? v) = false ->
  (- TWO_MANT_DIG <? v) = true ->
  round v = if v - 0.5 - TWO_MANT_DIG + TWO_MANT_DIG <? v - 0.5
            then v - 0.5 - TWO_MANT_DIG + TWO_MANT_DIG + 1
            else v - 0.5 - TWO_MANT_DIG + TWO_MANT_DIG.
Proof.
  intros H0 H1 H2 H3. unfold round. cbv zeta. rewrite H0, H1, H2, H3. reflexivity.
Qed.

Lemma Prim2SF_constants :
  Prim2SF 0 = S754_zero false /\ Prim2SF 0.5 = sf_half /\
  Prim2SF (-0.5) = SFopp sf_half /\ Prim2SF TWO_MANT_DIG = sf_two52 /\
  Prim2SF (- TWO_MANT_DIG) = SFopp sf_two52 /\ Prim2SF 1 = sf_one.
Proof. repeat split. Qed.

(** [round] on a positive double below [2^19]: an integer of [[0, 2^21]]. *)
Lemma round_of_positive (v : float) (mv : positive) (ev : Z) :
  Prim2SF v = S754_finite false mv ev -> (ev <= -34)%Z ->
  exists K : Z, (0 <= K <= 2 ^ 21)%Z /\ Prim2SF (round v) = int_sf false K.
Proof.
  intros Hv Hev.
  destruct Prim2SF_constants as (C0 & Chalf & _ & Ctwo & _ & Cone).
  pose proof (Prim2SF_valid v) as Hvalid. rewrite Hv in Hvalid.
  destruct (valid_mantissa_bound _ _ _ Hvalid) as (Hmv & _ & _).
  assert (H0 : (0 <? v) = true) by (rewrite ltb_spec, Hv, C0; reflexivity).
  destruct (v <? 0.5) eqn:Hhalf.
  { exists 0%Z. split; [lia |]. unfold round. cbv zeta. rewrite H0, Hhalf. exact C0. }
  assert (Hlo : (-53 <= ev)%Z).
  { rewrite ltb_spec, Hv, Chalf in Hhalf. exact (ltb_half_false mv ev Hhalf). }
  assert (H2 : (v <? TWO_MANT_DIG) = true).
  { rewrite ltb_spec, Hv, Ctwo. apply ltb_two52_true. lia. }
  rewrite (round_positive_path v H0 Hhalf H2).
  destruct (away_half false mv ev Hmv) as (m1 & e1 & Hz1 & He1 & Hm1); [lia |].
  destruct (away_two52 false m1 e1 Hm1 He1) as (m2 & Hz2 & Hm2 & _).
  assert (E1 : Prim2SF (v + 0.5) = S754_finite false m1 e1).
  { rewrite add_spec, Hv, Chalf, sf_away_pos. exact Hz1. }
  assert (E2 : Prim2SF (v + 0.5 + TWO_MANT_DIG) = S754_finite false m2 0).
  { rewrite add_spec, E1, Ctwo, sf_away_pos. exact Hz2. }
  assert (E3 : Prim2SF (v + 0.5 + TWO_MANT_DIG - TWO_MANT_DIG)
               = int_sf false (Zpos m2 - 2 ^ 52)).
  { rewrite sub_spec, E2, Ctwo, sf_toward_pos. exact (toward_two52 false m2). }
  set (K := (Zpos m2 - 2 ^ 52)%Z) in *.
  assert (HK : (0 <= K <= 2 ^ 21)%Z) by (unfold K; lia).
  destruct (Z.eq_dec K 0) as [EK | HKpos].
  - exists 0%Z. split; [lia |].
    rewrite ltb_spec, E1, E3, EK, int_sf_zero. cbn [SFltb SFcompare].
    rewrite E3, EK. reflexivity.
  - destruct (v + 0.5 <? v + 0.5 + TWO_MANT_DIG - TWO_MANT_DIG).
    + exists (K - 1)%Z. split; [lia |].
      rewrite sub_spec, E3, Cone, sf_toward_pos. apply (toward_one false K).
      change (2 ^ 53)%Z with 9007199254740992%Z.
      change (2 ^ 21)%Z with 2097152%Z in HK. lia.
    + exists K. split; [exact HK | exact E3].
Qed.

(** [round] on a negative double above [-2^19]: minus zero, or minus an
    integer of [[0, 2^21]]. *)
Lemma round_of_negative (v : float) (mv : positive) (ev : Z) :
  Prim2SF v = S754_finite true mv ev -> (ev <= -34)%Z ->
  round v = MINUS_ZERO \/
  exists K : Z, (0 <= K <= 2 ^ 21)%Z /\ Prim2SF (round v) = int_sf true K.
Proof.
  intros Hv Hev.
  destruct Prim2SF_constants as (C0 & Chalf & Cnhalf & Ctwo & Cntwo & Cone).
  pose proof (Prim2SF_valid v) as Hvalid. rewrite Hv in Hvalid.
  destruct (valid_mantissa_bound _ _ _ Hvalid) as (Hmv & _ & _).
  assert (H0 : (0 <? v) = false) by (rewrite ltb_spec, Hv, C0; reflexivity).
  assert (H1 : (v <? 0) = true) by (rewrite ltb_spec, Hv, C0; reflexivity).
  destruct (-0.5 <? v) eqn:Hhalf.
  { left. unfold round. cbv zeta. rewrite H0, H1, Hhalf. reflexivity. }
  right.
  assert (Hlo : (-53 <= ev)%Z).
  { rewrite ltb_spec, Hv, Cnhalf in Hhalf. exact (ltb_neg_half_false mv ev Hhalf). }
  assert (H2 : (- TWO_MANT_DIG <? v) = true).
  { rewrite ltb_spec, Hv, Cntwo. apply ltb_neg_two52_true. lia. }
  rewrite (round_negative_path v H0 H1 Hhalf H2).
  destruct (away_half true mv ev Hmv) as (m1 & e1 & Hz1 & He1 & Hm1); [lia |].
  destruct (away_two52 true m1 e1 Hm1 He1) as (m2 & Hz2 & Hm2 & _).
  assert (E1 : Prim2SF (v - 0.5) = S754_finite true m1 e1).
  { rewrite sub_spec, Hv, Chalf, sf_away_neg. exact Hz1. }
  assert (E2 : Prim2SF (v - 0.5 - TWO_MANT_DIG) = S754_finite true m2 0).
  { rewrite sub_spec, E1, Ctwo, sf_away_neg. exact Hz2. }
  assert (E3 : Prim2SF (v - 0.5 - TWO_MANT_DIG + TWO_MANT_DIG)
               = int_sf true (Zpos m2 - 2 ^ 52)).
  { rewrite add_spec, E2, Ctwo, sf_toward_neg. exact (toward_two52 true m2). }
  set (K := (Zpos m2 - 2 ^ 52)%Z) in *.
  assert (HK : (0 <= K <= 2 ^ 21)%Z) by (unfold K; lia).
  destruct (Z.eq_dec K 0) as [EK | HKpos].
  - exists 0%Z. split; [lia |].
    rewrite ltb_spec, E1, E3, EK, int_sf_zero. cbn [SFltb SFcompare].
    rewrite E3, EK. reflexivity.
  - destruct (v - 0.5 - TWO_MANT_DIG + TWO_MANT_DIG <? v - 0.5).
    + exists (K - 1)%Z. split; [lia |].
      rewrite add_spec, E3, Cone, sf_toward_neg. apply (toward_one true K).
      change (2 ^ 53)%Z with 9007199254740992%Z.
      change (2 ^ 21)%Z with 2097152%Z in HK. lia.
    + exists K. split; [exact HK | exact E3].
Qed.

Close Scope float_scope.

(** *** Doubles of integers *)

Lemma double_of_unsigned_sf (K : Z) :
  0 <= K < 2 ^ 53 -> Prim2SF (double_of_unsigned K) = int_sf false K.
Proof.
  intro HK. unfold double_of_unsigned. rewrite of_uint63_spec.
  rewrite Uint63.of_Z_spec. rewrite Z.mod_small; [reflexivity |].
  change Uint63Axioms.wB with (2 ^ 53 * 2 ^ 10). lia.
Qed.

Lemma double_of_int_sf (s : bool) (K : Z) :
  0 <= K < 2 ^ 53 -> Prim2SF (double_of_int (cond_Zopp s K)) = int_sf s K.
Proof.
  intro HK. destruct K as [| pk | pk]; [| | lia].
  - rewrite int_sf_zero. destruct s; reflexivity.
  - destruct s; cbn [cond_Zopp Z.opp]; unfold double_of_int.
    + replace (0 <=? Zneg pk) with false by reflexivity.
      rewrite opp_spec. cbn [Z.opp]. rewrite double_of_unsigned_sf by exact HK.
      rewrite !int_sf_pos. apply SFopp_binary_round.
    + replace (0 <=? Zpos pk) with true by reflexivity.
      apply double_of_unsigned_sf. exact HK.
Qed.

Lemma int_of_double_of_int (k : Z) :
  - 2 ^ 30 <= k <= 2 ^ 30 -> int_of_double (double_of_int k) = Ret k.
Proof.
  intro Hk.
  assert (Hsk : exists s K, k = cond_Zopp s K /\ 0 <= K <= 2 ^ 30).
  { destruct (Z_le_gt_dec 0 k) as [H | H].
    - exists false, k. split; [reflexivity | lia].
    - exists true, (- k). split; [cbn; lia | lia]. }
  destruct Hsk as (s & K & -> & HK).
  unfold int_of_double. rewrite double_of_int_sf
    by (change (2 ^ 53) with (2 ^ 30 * 2 ^ 23); lia).
  destruct K as [| pk | pk]; [| | lia].
  - rewrite int_sf_zero. destruct s; reflexivity.
  - destruct (int_sf_shape s pk) as (p & Hres & Hp & Hd).
    { change (2 ^ 53) with (2 ^ 30 * 2 ^ 23). lia. }
    set (d := Zpos (digits2_pos pk)) in *. rewrite Hres.
    rewrite Z.shiftl_div_pow2 by lia. rewrite Hp.
    replace (- (d - 53)) with (53 - d) by lia.
    rewrite Z.div_mul by (pose proof (pow2_pos (53 - d)); lia).
    assert (Hrange : (INT_MIN <=? cond_Zopp s (Zpos pk)) && (cond_Zopp s (Zpos pk) <=? INT_MAX) = true).
    { apply andb_true_iff. unfold INT_MIN, INT_MAX.
      change (2 ^ 31) with (2 ^ 30 + 2 ^ 30).
      split; [apply Z.leb_le | apply Z.leb_le]; destruct s; cbn [cond_Zopp]; lia. }
    rewrite Hrange. reflexivity.
Qed.

(** *** The quotient [nm * (1.0 / 256.0)] and its rounding *)

Lemma mul_inv_256 (nm : float) (s : bool) (pk : positive) :
  Prim2SF nm = int_sf s (Zpos pk) -> Zpos pk < 2 ^ 53 ->
  Prim2SF (nm * (1.0 / 256.0))%float = binary_round prec emax s pk (-8).
Proof.
  intros Hnm HK.
  destruct (int_sf_shape s pk HK) as (p & Hsh & Hp & Hd).
  destruct (dyadic_shape s pk (-8) HK) as (p0 & Hq & Hp0 & _); [lia |].
  set (d := Zpos (digits2_pos pk)) in *.
  assert (Epp : p0 = p) by (apply Pos2Z.inj; rewrite Hp0, Hp; reflexivity).
  subst p0. rewrite Hq.
  rewrite mul_spec, Hnm, Hsh.
  replace (Prim2SF (1.0 / 256.0)%float) with (S754_finite false 4503599627370496 (-60))
    by reflexivity.
  unfold SF64mul, SFmul. rewrite xorb_false_r.
  set (M := Zpos (p * 4503599627370496)).
  assert (HMv : M = Zpos p * 2 ^ 52) by reflexivity.
  assert (Hdp : Zpos (digits2_pos p) = 53).
  { rewrite (digits2_shift pk p (53 - d)); [fold d; lia | lia | exact Hp]. }
  assert (HdM : Zdigits2 M = 105).
  { unfold M. rewrite Zdigits2_pos, (digits2_shift p _ 52); [lia | lia | exact HMv]. }
  assert (Her : fexp64 (Zdigits2 M + (d - 53 + -60)) = d - 53 + -8)
    by (rewrite HdM; unfold fexp64; lia).
  assert (HM : 0 < M) by (unfold M; lia).
  assert (H1 : d - 53 + -60 <= fexp64 (Zdigits2 M + (d - 53 + -60))) by (rewrite Her; lia).
  assert (H2 : fexp64 (Zdigits2 M + (d - 53 + -60)) <= 971) by (rewrite Her; lia).
  assert (H3 : M mod 2 ^ (fexp64 (Zdigits2 M + (d - 53 + -60)) - (d - 53 + -60)) = 0).
  { rewrite Her. replace (d - 53 + -8 - (d - 53 + -60)) with 52 by lia.
    rewrite HMv. apply Z.mod_mul. lia. }
  destruct (binary_round_aux_exact s M (d - 53 + -60) HM H1 H2 H3) as (p' & Hres & Hp').
  rewrite Her in Hres, Hp'. replace (d - 53 + -8 - (d - 53 + -60)) with 52 in Hp' by lia.
  rewrite Hres. f_equal. apply Pos2Z.inj. lia.
Qed.

Open Scope float_scope.

(** [round (nm * (1.0 / 256.0))] for the double [nm] of [K] or [- K]: a zero
    of the sign of [nm] below 128, the double of [floor ((K + 128) / 256)]
    with that sign from 128 on. *)
Lemma round_of_quotient (nm : float) (s : bool) (pk : positive) :
  Prim2SF nm = int_sf s (Zpos pk) -> (Zpos pk <= 2 ^ 22)%Z ->
  let q := nm * (1.0 / 256.0) in
  ((Zpos pk < 128)%Z -> round q = if s then MINUS_ZERO else 0) /\
  ((128 <= Zpos pk)%Z -> Prim2SF (round q) = int_sf s ((Zpos pk + 128) / 256)).
Proof.
  intros Hnm HK q.
  assert (HK53 : (Zpos pk < 2 ^ 53)%Z) by (change (2 ^ 53)%Z with (2 ^ 22 * 2 ^ 31)%Z; lia).
  pose proof (mul_inv_256 nm s pk Hnm HK53) as Hq. fold q in Hq.
  destruct Prim2SF_constants as (C0 & Chalf & Cnhalf & Ctwo & Cntwo & Cone).
  destruct (quotient_against_half s pk HK) as (p & e & Hsh & He & Hsmall & Hlarge).
  pose proof (round_core s pk) as Hcore. cbv zeta in Hcore.
  rewrite <- Hq in Hcore. rewrite Hsh in Hq.
  destruct s.
  - (* negative *)
    assert (H0 : (0 <? q) = false) by (rewrite ltb_spec, Hq, C0; reflexivity).
    assert (H1 : (q <? 0) = true) by (rewrite ltb_spec, Hq, C0; reflexivity).
    split.
    + intro Hlt. specialize (Hsmall Hlt).
      assert (Hhalf : (-0.5 <? q) = true).
      { rewrite ltb_spec, Hq, Cnhalf. apply SFltb_negative. left. exact Hsmall. }
      unfold round. cbv zeta. rewrite H0, H1, Hhalf. reflexivity.
    + intro Hge. specialize (Hlarge Hge). specialize (Hcore (conj Hge HK)).
      assert (Hhalf : (-0.5 <? q) = false).
      { rewrite ltb_spec, Hq, Cnhalf.
        destruct (SFltb (SFopp sf_half) (S754_finite true p e)) eqn:E; [| reflexivity].
        apply SFltb_negative in E. contradiction. }
      assert (H2 : (- TWO_MANT_DIG <? q) = true).
      { rewrite ltb_spec, Hq, Cntwo. apply ltb_neg_two52_true. exact He. }
      rewrite (round_negative_path q H0 H1 Hhalf H2).
      assert (E1 : Prim2SF (q - 0.5) = sf_away true (Prim2SF q) sf_half)
        by (rewrite sub_spec, Chalf; reflexivity).
      assert (E2 : Prim2SF (q - 0.5 - TWO_MANT_DIG)
                   = sf_away true (sf_away true (Prim2SF q) sf_half) sf_two52)
        by (rewrite sub_spec, E1, Ctwo; reflexivity).
      assert (E3 : Prim2SF (q - 0.5 - TWO_MANT_DIG + TWO_MANT_DIG)
                   = sf_toward true (sf_away true (sf_away true (Prim2SF q) sf_half)
                                       sf_two52) sf_two52)
        by (rewrite add_spec, E2, Ctwo; reflexivity).
      rewrite ltb_spec, E3, E1.
      destruct (SFltb _ _).
      * rewrite add_spec, E3, Cone, sf_toward_neg. exact Hcore.
      * rewrite E3. exact Hcore.
  - (* positive *)
    assert (H0 : (0 <? q) = true) by (rewrite ltb_spec, Hq, C0; reflexivity).
    split.
    + intro Hlt. specialize (Hsmall Hlt).
      assert (Hhalf : (q <? 0.5) = true).
      { rewrite ltb_spec, Hq, Chalf. apply SFltb_positive. left. exact Hsmall. }
      unfold round. cbv zeta. rewrite H0, Hhalf. reflexivity.
    + intro Hge. specialize (Hlarge Hge). specialize (Hcore (conj Hge HK)).
      assert (Hhalf : (q <? 0.5) = false).
      { rewrite ltb_spec, Hq, Chalf.
        destruct (SFltb (S754_finite false p e) sf_half) eqn:E; [| reflexivity].
        apply SFltb_positive in E. contradiction. }
      assert (H2 : (q <? TWO_MANT_DIG) = true).
      { rewrite ltb_spec, Hq, Ctwo. apply ltb_two52_true. exact He. }
      rewrite (round_positive_path q H0 Hhalf H2).
      assert (E1 : Prim2SF (q + 0.5) = sf_away false (Prim2SF q) sf_half)
        by (rewrite add_spec, Chalf; reflexivity).
      assert (E2 : Prim2SF (q + 0.5 + TWO_MANT_DIG)
                   = sf_away false (sf_away false (Prim2SF q) sf_half) sf_two52)
        by (rewrite add_spec, E1, Ctwo; reflexivity).
      assert (E3 : Prim2SF (q + 0.5 + TWO_MANT_DIG - TWO_MANT_DIG)
                   = sf_toward false (sf_away false (sf_away false (Prim2SF q) sf_half)
                                        sf_two52) sf_two52)
        by (rewrite sub_spec, E2, Ctwo; reflexivity).
      rewrite ltb_spec, E1, E3.
      destruct (SFltb _ _).
      * rewrite sub_spec, E3, Cone, sf_toward_pos. exact Hcore.
      * rewrite E3. exact Hcore.
Qed.

(** [round] on the multiples of [1/256] of magnitude from [0.5] to [8192]:
    the nearest integer, ties away from zero. *)
Lemma round_multiple_of_256th (k : Z) :
  (- 2 ^ 21 <= k <= 2 ^ 21)%Z -> (128 <= Z.abs k)%Z ->
  round (double_of_int k * (1.0 / 256.0)) = double_of_int (nearest_away k).
Proof.
  intros Hk Habs.
  assert (Hsk : exists s pk, k = cond_Zopp s (Zpos pk)
                             /\ nearest_away k = cond_Zopp s ((Zpos pk + 128) / 256)).
  { destruct k as [| pk | pk]; [cbn in Habs; lia | |].
    - exists false, pk. split; reflexivity.
    - exists true, pk. split; reflexivity. }
  destruct Hsk as (s & pk & Ek & En).
  assert (HK : (128 <= Zpos pk <= 2 ^ 21)%Z) by (rewrite Ek in Hk, Habs; destruct s; cbn in *; lia).
  assert (Hnm : Prim2SF (double_of_int k) = int_sf s (Zpos pk)).
  { rewrite Ek. apply double_of_int_sf. change (2 ^ 53)%Z with (2 ^ 21 * 2 ^ 32)%Z. lia. }
  assert (HK22 : (Zpos pk <= 2 ^ 22)%Z) by (change (2 ^ 22)%Z with (2 ^ 21 + 2 ^ 21)%Z; lia).
  destruct (round_of_quotient (double_of_int k) s pk Hnm HK22) as [_ Hlarge].
  cbv zeta in Hlarge.
  apply Prim2SF_inj. rewrite (Hlarge (proj1 HK)), En. symmetry.
  apply double_of_int_sf.
  assert (0 <= (Zpos pk + 128) / 256 <= Zpos pk + 128)%Z.
  { split; [apply Z.div_pos; lia | apply Z.div_le_upper_bound; lia]. }
  change (2 ^ 53)%Z with (2 ^ 21 * 2 ^ 32)%Z. change (2 ^ 21)%Z with 2097152%Z in *. lia.
Qed.

Lemma TWO_MANT_DIG_value : TWO_MANT_DIG = 4503599627370496.
Proof. reflexivity. Qed.

(** C6: ties are resolved away from zero: [round 0.5 = 1.0],
    [round (-0.5) = -1.0], [round 2.5 = 3.0] and [round (-2.5) = -3.0]; more
    generally [round] maps every multiple [k / 256] of magnitude from [0.5] to
    [8192] to the nearest integer, the ties [k = 256 j + 128] away from
    zero. *)
Theorem round_ties_away_from_zero :
  (round 0.5 = 1.0 /\ round (-0.5) = -1.0 /\
   round 2.5 = 3.0 /\ round (-2.5) = -3.0) /\
  forall k : Z,
    (- 2 ^ 21 <= k <= 2 ^ 21)%Z -> (128 <= Z.abs k)%Z ->
    round (double_of_int k * (1.0 / 256.0)) = double_of_int (nearest_away k).
Proof.
  split; [| exact round_multiple_of_256th].
  split; [| split; [| split]]; vm_compute; reflexivity.
Qed.

Lemma round_ties_away_from_zero_witness :
  round (double_of_int 640 * (1.0 / 256.0)) = 3.0 /\
  round (double_of_int (-640) * (1.0 / 256.0)) = -3.0.
Proof.
  split.
  - apply (proj2 round_ties_away_from_zero 640%Z); cbn; lia.
  - apply (proj2 round_ties_away_from_zero (-640)%Z); cbn; lia.
Defined.

(** *** [round] on every double *)

(** [round] on a finite double of magnitude below one half. *)
Lemma round_of_small (v : float) (s : bool) (m : positive) (e : Z) :
  Prim2SF v = S754_finite s m e -> (e < -53)%Z ->
  Prim2SF (round v) = S754_zero s.
Proof.
  intros Hv He. destruct Prim2SF_constants as (C0 & Chalf & Cnhalf & _).
  unfold round. cbv zeta. destruct s.
  - assert (H0 : (0 <? v) = false) by (rewrite ltb_spec, Hv, C0; reflexivity).
    assert (H1 : (v <? 0) = true) by (rewrite ltb_spec, Hv, C0; reflexivity).
    assert (H2 : (-0.5 <? v) = true).
    { rewrite ltb_spec, Hv, Cnhalf. apply SFltb_negative. left. exact He. }
    rewrite H0, H1, H2. reflexivity.
  - assert (H0 : (0 <? v) = true) by (rewrite ltb_spec, Hv, C0; reflexivity).
    assert (H2 : (v <? 0.5) = true).
    { rewrite ltb_spec, Hv, Chalf. apply SFltb_positive. left. exact He. }
    rewrite H0, H2. exact C0.
Qed.

(** [round] on a double of magnitude [2^52] or more. *)
Lemma round_of_large (v : float) (s : bool) (m : positive) (e : Z) :
  Prim2SF v = S754_finite s m e -> (0 <= e)%Z -> round v = v.
Proof.
  intros Hv He. destruct Prim2SF_constants as (C0 & Chalf & Cnhalf & Ctwo & Cntwo & _).
  pose proof (Prim2SF_valid v) as Hvalid. rewrite Hv in Hvalid.
  destruct (valid_mantissa_bound _ _ _ Hvalid) as (Hm & _ & Hnormal).
  specialize (Hnormal ltac:(lia)).
  unfold round. cbv zeta. destruct s.
  - assert (H0 : (0 <? v) = false) by (rewrite ltb_spec, Hv, C0; reflexivity).
    assert (H1 : (v <? 0) = true) by (rewrite ltb_spec, Hv, C0; reflexivity).
    assert (H2 : (-0.5 <? v) = false).
    { rewrite ltb_spec, Hv, Cnhalf.
      destruct (SFltb (SFopp sf_half) (S754_finite true m e)) eqn:E; [| reflexivity].
      apply SFltb_negative in E. destruct E as [E | [E _]]; lia. }
    assert (H3 : (- TWO_MANT_DIG <? v) = false).
    { rewrite ltb_spec, Hv, Cntwo.
      destruct (SFltb (SFopp sf_two52) (S754_finite true m e)) eqn:E; [| reflexivity].
      apply SFltb_negative in E. destruct E as [E | [_ E]]; [lia |].
      change (Zpos 4503599627370496) with (2 ^ 52)%Z in E. lia. }
    rewrite H0, H1, H2, H3. reflexivity.
  - assert (H0 : (0 <? v) = true) by (rewrite ltb_spec, Hv, C0; reflexivity).
    assert (H2 : (v <? 0.5) = false).
    { rewrite ltb_spec, Hv, Chalf.
      destruct (SFltb (S754_finite false m e) sf_half) eqn:E; [| reflexivity].
      apply SFltb_positive in E. destruct E as [E | [E _]]; lia. }
    assert (H3 : (v <? TWO_MANT_DIG) = false).
    { rewrite ltb_spec, Hv, Ctwo.
      destruct (SFltb (S754_finite false m e) sf_two52) eqn:E; [| reflexivity].
      apply SFltb_positive in E. destruct E as [E | [_ E]]; [lia |].
      change (Zpos 4503599627370496) with (2 ^ 52)%Z in E. lia. }
    rewrite H0, H2, H3. reflexivity.
Qed.

(** [round] on a double of magnitude in [[0.5, 2^52)]. *)
Lemma round_of_middle (v : float) (s : bool) (m : positive) (u : Z) :
  Prim2SF v = S754_finite s m (- u) -> (1 <= u <= 53)%Z ->
  Prim2SF (round v) = int_sf s ((Zpos m + 2 ^ (u - 1)) / 2 ^ u).
Proof.
  intros Hv Hu. destruct Prim2SF_constants as (C0 & Chalf & Cnhalf & Ctwo & Cntwo & Cone).
  pose proof (Prim2SF_valid v) as Hvalid. rewrite Hv in Hvalid.
  destruct (valid_mantissa_bound _ _ _ Hvalid) as (Hm & _ & Hnormal).
  specialize (Hnormal ltac:(lia)).
  pose proof (round_arith s m u (conj Hnormal Hm) Hu) as Hcore. cbv zeta in Hcore.
  rewrite <- Hv in Hcore.
  destruct s.
  - assert (H0 : (0 <? v) = false) by (rewrite ltb_spec, Hv, C0; reflexivity).
    assert (H1 : (v <? 0) = true) by (rewrite ltb_spec, Hv, C0; reflexivity).
    assert (Hhalf : (-0.5 <? v) = false).
    { rewrite ltb_spec, Hv, Cnhalf.
      destruct (SFltb (SFopp sf_half) (S754_finite true m (- u))) eqn:E; [| reflexivity].
      apply SFltb_negative in E. destruct E as [E | [_ E]]; [lia |].
      change (Zpos 4503599627370496) with (2 ^ 52)%Z in E. lia. }
    assert (H2 : (- TWO_MANT_DIG <? v) = true).
    { rewrite ltb_spec, Hv, Cntwo. apply ltb_neg_two52_true. lia. }
    rewrite (round_negative_path v H0 H1 Hhalf H2).
    assert (E1 : Prim2SF (v - 0.5) = sf_away true (Prim2SF v) sf_half)
      by (rewrite sub_spec, Chalf; reflexivity).
    assert (E2 : Prim2SF (v - 0.5 - TWO_MANT_DIG)
                 = sf_away true (sf_away true (Prim2SF v) sf_half) sf_two52)
      by (rewrite sub_spec, E1, Ctwo; reflexivity).
    assert (E3 : Prim2SF (v - 0.5 - TWO_MANT_DIG + TWO_MANT_DIG)
                 = sf_toward true (sf_away true (sf_away true (Prim2SF v) sf_half)
                                     sf_two52) sf_two52)
      by (rewrite add_spec, E2, Ctwo; reflexivity).
    rewrite ltb_spec, E3, E1.
    destruct (SFltb _ _).
    + rewrite add_spec, E3, Cone, sf_toward_neg. exact Hcore.
    + rewrite E3. exact Hcore.
  - assert (H0 : (0 <? v) = true) by (rewrite ltb_spec, Hv, C0; reflexivity).
    assert (Hhalf : (v <? 0.5) = false).
    { rewrite ltb_spec, Hv, Chalf.
      destruct (SFltb (S754_finite false m (- u)) sf_half) eqn:E; [| reflexivity].
      apply SFltb_positive in E. destruct E as [E | [_ E]]; [lia |].
      change (Zpos 4503599627370496) with (2 ^ 52)%Z in E. lia. }
    assert (H2 : (v <? TWO_MANT_DIG) = true).
    { rewrite ltb_spec, Hv, Ctwo. apply ltb_two52_true. lia. }
    rewrite (round_positive_path v H0 Hhalf H2).
    assert (E1 : Prim2SF (v + 0.5) = sf_away false (Prim2SF v) sf_half)
      by (rewrite add_spec, Chalf; reflexivity).
    assert (E2 : Prim2SF (v + 0.5 + TWO_MANT_DIG)
                 = sf_away false (sf_away false (Prim2SF v) sf_half) sf_two52)
      by (rewrite add_spec, E1, Ctwo; reflexivity).
    assert (E3 : Prim2SF (v + 0.5 + TWO_MANT_DIG - TWO_MANT_DIG)
                 = sf_toward false (sf_away false (sf_away false (Prim2SF v) sf_half)
                                      sf_two52) sf_two52)
      by (rewrite sub_spec, E2, Ctwo; reflexivity).
    rewrite ltb_spec, E1, E3.
    destruct (SFltb _ _).
    + rewrite sub_spec, E3, Cone, sf_toward_pos. exact Hcore.
    + rewrite E3. exact Hcore.
Qed.

(** NaN, the infinities and the zeros fail the tests of both branches. *)
Lemma round_of_special (v : float) :
  (forall s m e, Prim2SF v <> S754_finite s m e) -> round v = v.
Proof.
  intro Hv. destruct Prim2SF_constants as (C0 & Chalf & Cnhalf & Ctwo & Cntwo & _).
  unfold round. cbv zeta. rewrite !ltb_spec, C0, Chalf, Cnhalf, Ctwo, Cntwo.
  destruct (Prim2SF v) as [s | s | | s m e];
    [destruct s; reflexivity | destruct s; reflexivity | reflexivity |].
  destruct (Hv s m e eq_refl).
Qed.

Close Scope float_scope.

(** [round] computes [round_value]. *)
Lemma round_value_of (v : float) : Prim2SF (round v) = round_value (Prim2SF v).
Proof.
  destruct (Prim2SF v) as [s | s | | s m e] eqn:Hv; cbn [round_value];
    try (rewrite round_of_special; [exact Hv | intros s' m' e'; rewrite Hv; discriminate]).
  pose proof (Prim2SF_valid v) as Hvalid. rewrite Hv in Hvalid.
  destruct (valid_mantissa_bound _ _ _ Hvalid) as (Hm & _ & Hnormal).
  destruct (Z_lt_le_dec e (-53)) as [Hsmall | Hlo].
  - rewrite (half_away_small m e Hm Hsmall). cbn [Z.eqb].
    exact (round_of_small v s m e Hv Hsmall).
  - destruct (Z_lt_le_dec e 0) as [Hneg | Hhi].
    + replace e with (- (- e)) in Hv |- * by lia.
      rewrite half_away_below_one by lia.
      specialize (Hnormal ltac:(lia)).
      destruct (away_half_floor s m (- e) (conj Hnormal Hm) ltac:(lia)) as (HF & _).
      cbv zeta in HF.
      replace ((Zpos m + 2 ^ (- e - 1)) / 2 ^ (- e) =? 0) with false
        by (symmetry; apply Z.eqb_neq; lia).
      apply round_of_middle; [exact Hv | lia].
    + destruct (half_away_large m e Hhi) as [Eh Hne].
      replace (half_away m e =? 0) with false by (symmetry; apply Z.eqb_neq; exact Hne).
      rewrite Eh, (int_sf_large s m e Hvalid Hhi).
      rewrite (round_of_large v s m e Hv Hhi). exact Hv.
Qed.

(** [round] leaves the double of an integer below [2^53] as it is. *)
Lemma round_of_integral (v : float) (s : bool) (K : Z) :
  Prim2SF v = int_sf s K -> 0 <= K < 2 ^ 53 -> round v = v.
Proof.
  intros Hv HK. apply Prim2SF_inj. rewrite round_value_of, Hv.
  apply round_value_of_integer. exact HK.
Qed.

Open Scope float_scope.

(** X1: [round] on every double.  NaN, the infinities and the zeros are
    returned as they are; a finite [x] of sign [s] and magnitude [m * 2^e]
    gives the double of the integer [floor (m * 2^e + 1/2)] with the sign
    [s], which is the zero of that sign when the magnitude is below one
    half. *)
Theorem round_half_away_from_zero (v : float) :
  match Prim2SF v with
  | S754_finite s m e =>
      Prim2SF (round v)
      = if (half_away m e =? 0)%Z then S754_zero s else int_sf s (half_away m e)
  | _ => round v = v
  end.
Proof.
  pose proof (round_value_of v) as H.
  destruct (Prim2SF v) as [s | s | | s m e] eqn:Hv; try exact H;
    apply Prim2SF_inj; rewrite H, Hv; reflexivity.
Qed.

(** X2: [round] is idempotent: its result is an integer, a zero, an infinity
    or NaN, and a second call returns it unchanged. *)
Theorem round_idempotent (v : float) : round (round v) = round v.
Proof.
  apply Prim2SF_inj. rewrite !round_value_of.
  apply round_value_idempotent. apply Prim2SF_valid.
Qed.

(** X3: [round] is odd: the branch for negative arguments mirrors the one
    for positive arguments, the sign of a zero result included. *)
Theorem round_odd (v : float) : round (- v) = - round v.
Proof.
  apply Prim2SF_inj. rewrite opp_spec, !round_value_of, opp_spec.
  apply round_value_opp.
Qed.

(** X4: [round] returns the double of an integer of magnitude below [2^53]
    unchanged. *)
Theorem round_fixes_integers (k : Z) :
  (- 2 ^ 53 < k < 2 ^ 53)%Z -> round (double_of_int k) = double_of_int k.
Proof.
  intro Hk.
  assert (Hsk : exists s K, k = cond_Zopp s K /\ (0 <= K < 2 ^ 53)%Z).
  { destruct (Z_le_gt_dec 0 k) as [H | H].
    - exists false, k. split; [reflexivity | lia].
    - exists true, (- k)%Z. split; [cbn; lia | lia]. }
  destruct Hsk as (s & K & -> & HK).
  apply (round_of_integral _ s K); [apply double_of_int_sf |]; exact HK.
Qed.

Lemma round_fixes_integers_witness :
  round (double_of_int (-12345)) = double_of_int (-12345) /\
  round (double_of_int 9007199254740991) = double_of_int 9007199254740991.
Proof.
  split.
  - apply (round_fixes_integers (-12345)). lia.
  - apply (round_fixes_integers 9007199254740991). lia.
Defined.

End Round.

(** * Properties of [exp2] *)

Section Exp2.
Open Scope float_scope.

Lemma exp_table_length : List.length exp_table = 257%nat.
Proof. reflexivity. Qed.

Lemma exp_table_middle : table_at 128 = Ret 1.0.
Proof. reflexivity. Qed.

(** C8: [exp2 0.0] is exactly [1.0]: [nm], [n] and [m] are zero and the table
    entry at index 128 that is read is exactly [1.0]. *)
Theorem exp2_zero :
  exp2 0.0 = Ret 1.0 /\
  round (0.0 * 256.0) = 0.0 /\
  decompose (round (0.0 * 256.0)) = Ret (0%Z, 0%Z) /\
  table_at 128 = Ret 1.0.
Proof. split; [| split; [| split]]; vm_compute; reflexivity. Qed.

Lemma ltb_above_not_below (x : float) :
  (double_of_int DBL_MAX_EXP <? x) = true ->
  (x <? double_of_int (DBL_MIN_EXP - 1 - DBL_MANT_DIG)) = true -> False.
Proof.
  rewrite !ltb_spec.
  set (hi := Prim2SF (double_of_int DBL_MAX_EXP)).
  set (lo := Prim2SF (double_of_int (DBL_MIN_EXP - 1 - DBL_MANT_DIG))).
  vm_compute in hi, lo. subst hi lo.
  destruct (Prim2SF x) as [s | s | | s m e]; try destruct s;
    cbv [SFltb SFcompare]; discriminate.
Qed.

(** C4: [exp2] saturates: above [DBL_MAX_EXP] it returns [+infinity], below
    [DBL_MIN_EXP - 1 - DBL_MANT_DIG] it returns [0.0]. *)
Theorem exp2_saturates (x : float) :
  ((double_of_int DBL_MAX_EXP <? x) = true -> exp2 x = Ret infinity) /\
  ((x <? double_of_int (DBL_MIN_EXP - 1 - DBL_MANT_DIG)) = true ->
   exp2 x = Ret 0.0).
Proof.
  split; intro H; unfold exp2.
  - rewrite H. reflexivity.
  - destruct (double_of_int DBL_MAX_EXP <? x) eqn:Habove.
    + destruct (ltb_above_not_below x Habove H).
    + rewrite H. reflexivity.
Qed.

Lemma exp2_saturates_witness :
  exp2 1025 = Ret infinity /\ exp2 (-1076) = Ret 0.0 /\
  exp2 infinity = Ret infinity /\ exp2 neg_infinity = Ret 0.0.
Proof.
  split; [| split; [| split]].
  - apply (proj1 (exp2_saturates 1025)). reflexivity.
  - apply (proj2 (exp2_saturates (-1076))). reflexivity.
  - apply (proj1 (exp2_saturates infinity)). reflexivity.
  - apply (proj2 (exp2_saturates neg_infinity)). reflexivity.
Defined.

(** For [0 <= n <= 20] the result is the exact power of two. *)
Lemma exp2_nonnegative_integers :
  Forall (fun n => exp2 (double_of_int n) = Ret (pow2 n)) (int_range 0 21).
Proof.
  repeat (apply Forall_cons; [vm_compute; reflexivity |]). apply Forall_nil.
Qed.

(** For [-20 <= n <= -1] the scaling loop does not run and the result stays
    [1.0]. *)
Lemma exp2_negative_integers :
  Forall (fun n => exp2 (double_of_int n) = Ret 1.0) (int_range (-20) 20).
Proof.
  repeat (apply Forall_cons; [vm_compute; reflexivity |]). apply Forall_nil.
Qed.

(** C1, at [n = -1]: the loop [for (i = 0; i < n; i++)] does not run for a
    negative [n], and [exp2 (-1.0)] is [1.0], not [2.0^(-1) = 0.5]. *)
Theorem exp2_minus_one :
  exp2 (-1.0) = Ret 1.0 /\ pow2 (-1) = 0.5 /\ exp2 (-1.0) <> Ret (pow2 (-1)).
Proof.
  split; [| split]; try (vm_compute; reflexivity).
  vm_compute. intro H. inversion H.
Qed.

Close Scope float_scope.
Open Scope Z_scope.

(** ** The decomposition [x = n + m/256 + y/log(2)] *)

(** [n] and [m] from an integral [nm]: [n] is [k / 256] rounded to nearest,
    ties away from zero, and [m] the remainder. *)
Lemma decompose_integer (k : Z) :
  - 2 ^ 21 <= k <= 2 ^ 21 ->
  exists n m, decompose (double_of_int k) = Ret (n, m) /\ -128 <= m <= 128.
Proof.
  intro Hk.
  assert (Hsk : exists s K, k = cond_Zopp s K /\ 0 <= K <= 2 ^ 21).
  { destruct (Z_le_gt_dec 0 k) as [H | H].
    - exists false, k. split; [reflexivity | lia].
    - exists true, (- k). split; [cbn; lia | lia]. }
  destruct Hsk as (s & K & Ek & HK).
  destruct K as [| pk | pk]; [| | lia].
  { exists 0, 0. replace k with 0 by (rewrite Ek; destruct s; reflexivity).
    split; [reflexivity | lia]. }
  assert (HK53 : 0 <= Zpos pk < 2 ^ 53) by (change (2 ^ 53) with (2 ^ 21 * 2 ^ 32); lia).
  assert (Hnm : Prim2SF (double_of_int k) = int_sf s (Zpos pk))
    by (rewrite Ek; apply double_of_int_sf; exact HK53).
  assert (HK22 : Zpos pk <= 2 ^ 22) by (change (2 ^ 22) with (2 ^ 21 + 2 ^ 21); lia).
  destruct (round_of_quotient (double_of_int k) s pk Hnm HK22) as [Hsmall Hlarge].
  cbv zeta in Hsmall, Hlarge.
  assert (Hint : int_of_double (double_of_int k) = Ret k).
  { apply int_of_double_of_int. change (2 ^ 30) with (2 ^ 21 * 2 ^ 9). lia. }
  assert (Hwrap : forall n, -2 ^ 14 <= n <= 2 ^ 14 ->
                            int_sub k (int_mul 256 n) = k - 256 * n).
  { intros n Hn. unfold int_sub, int_mul.
    rewrite (wrap_int_small (256 * n)), wrap_int_small; [reflexivity | |];
      unfold INT_MIN, INT_MAX; change (2 ^ 31) with 2147483648;
      change (2 ^ 14) with 16384 in *; change (2 ^ 21) with 2097152 in *; lia. }
  destruct (Z_lt_le_dec (Zpos pk) 128) as [Hlt | Hge].
  - exists 0, k. unfold decompose. rewrite (Hsmall Hlt).
    replace (int_of_double (if s then MINUS_ZERO else 0%float)) with (Ret 0)
      by (destruct s; reflexivity).
    cbn [bind]. rewrite Hint. cbn [bind].
    rewrite (Hwrap 0) by (change (2 ^ 14) with 16384; lia).
    split; [repeat f_equal; lia |].
    rewrite Ek. destruct s; cbn [cond_Zopp]; lia.
  - set (F := (Zpos pk + 128) / 256).
    assert (HF : 256 * F <= Zpos pk + 128 < 256 * (F + 1)).
    { unfold F. pose proof (Z.div_mod (Zpos pk + 128) 256).
      pose proof (Z.mod_pos_bound (Zpos pk + 128) 256). lia. }
    assert (HF14 : 0 <= F <= 2 ^ 14).
    { change (2 ^ 21) with (256 * 2 ^ 13) in HK. change (2 ^ 14) with (2 ^ 13 + 2 ^ 13).
      change (2 ^ 13) with 8192 in *. lia. }
    assert (Hr : round (double_of_int k * (1.0 / 256.0))%float
                 = double_of_int (cond_Zopp s F)).
    { apply Prim2SF_inj. rewrite (Hlarge Hge). symmetry. apply double_of_int_sf.
      change (2 ^ 53) with (2 ^ 14 * 2 ^ 39). lia. }
    exists (cond_Zopp s F), (k - 256 * cond_Zopp s F).
    unfold decompose. rewrite Hr.
    rewrite int_of_double_of_int
      by (change (2 ^ 30) with (2 ^ 14 * 2 ^ 16); destruct s; cbn [cond_Zopp]; lia).
    cbn [bind]. rewrite Hint. cbn [bind].
    rewrite Hwrap by (destruct s; cbn [cond_Zopp]; lia).
    split; [reflexivity |].
    rewrite Ek. destruct s; cbn [cond_Zopp]; lia.
Qed.

(** *** The product [x * 256.0] *)

Lemma mul_256 (x : float) (s : bool) (mx : positive) (ex : Z) :
  Prim2SF x = S754_finite s mx ex -> ex <= -42 ->
  exists mv ev, Prim2SF (x * 256.0)%float = S754_finite s mv ev /\ ev <= -34.
Proof.
  intros Hx Hex.
  pose proof (Prim2SF_valid x) as Hvalid. rewrite Hx in Hvalid.
  destruct (valid_mantissa_bound _ _ _ Hvalid) as (Hmx & (Hmin & _) & _).
  pose proof (digits_below_2_53 mx Hmx) as Hd.
  rewrite mul_spec, Hx.
  replace (Prim2SF 256.0%float) with (S754_finite false 4503599627370496 (-44))
    by reflexivity.
  unfold SF64mul, SFmul. rewrite xorb_false_r.
  set (M := Zpos (mx * 4503599627370496)).
  assert (HMv : M = Zpos mx * 2 ^ 52) by reflexivity.
  assert (HdM : Zdigits2 M = Zpos (digits2_pos mx) + 52).
  { unfold M. rewrite Zdigits2_pos. apply digits2_shift; [lia | exact HMv]. }
  set (d := Zpos (digits2_pos mx)) in *.
  set (er := fexp64 (Zdigits2 M + (ex + -44))).
  assert (Her : ex - 44 <= er <= ex + 8) by (unfold er, fexp64; rewrite HdM; lia).
  assert (HM : 0 < M) by (unfold M; lia).
  assert (H1 : ex + -44 <= fexp64 (Zdigits2 M + (ex + -44))) by (fold er; lia).
  assert (H2 : fexp64 (Zdigits2 M + (ex + -44)) <= 971) by (fold er; lia).
  assert (H3 : M mod 2 ^ (fexp64 (Zdigits2 M + (ex + -44)) - (ex + -44)) = 0).
  { fold er. rewrite HMv.
    replace 52 with ((52 - (er - (ex + -44))) + (er - (ex + -44))) at 1 by lia.
    rewrite Z.pow_add_r, Z.mul_assoc by lia. apply Z.mod_mul.
    pose proof (pow2_pos (er - (ex + -44))). lia. }
  destruct (binary_round_aux_exact s M (ex + -44) HM H1 H2 H3) as (p & Hres & _).
  fold er in Hres. exists p, er. split; [exact Hres | lia].
Qed.

Open Scope float_scope.

(** *** The non-saturating range *)

Lemma not_above_max (x : float) (mx : positive) (ex : Z) :
  Prim2SF x = S754_finite false mx ex ->
  (double_of_int DBL_MAX_EXP <? x) = false -> (ex <= -42)%Z.
Proof.
  intros Hx. rewrite ltb_spec, Hx.
  replace (Prim2SF (double_of_int DBL_MAX_EXP))
    with (S754_finite false 4503599627370496 (-42)) by reflexivity.
  unfold SFltb, SFcompare.
  destruct (Z.compare_spec (-42) ex) as [H | H | H]; [lia | discriminate | lia].
Qed.

Lemma not_below_min (x : float) (mx : positive) (ex : Z) :
  Prim2SF x = S754_finite true mx ex ->
  (x <? double_of_int (DBL_MIN_EXP - 1 - DBL_MANT_DIG)) = false -> (ex <= -42)%Z.
Proof.
  intros Hx. rewrite ltb_spec, Hx.
  replace (Prim2SF (double_of_int (DBL_MIN_EXP - 1 - DBL_MANT_DIG)))
    with (S754_finite true 4727899999436800 (-42)) by reflexivity.
  unfold SFltb, SFcompare.
  destruct (Z.compare_spec ex (-42)) as [H | H | H]; [lia | lia | discriminate].
Qed.

Lemma round_of_zero (v : float) (s : bool) :
  Prim2SF v = S754_zero s -> round v = v.
Proof.
  intro Hv. unfold round. cbv zeta.
  assert (H0 : (0 <? v) = false).
  { rewrite ltb_spec, Hv. destruct s; reflexivity. }
  assert (H1 : (v <? 0) = false).
  { rewrite ltb_spec, Hv. destruct s; reflexivity. }
  rewrite H0, H1. reflexivity.
Qed.

(** [nm = round (x * 256.0)] for a finite [x] in the non-saturating range:
    minus zero, or the double of an integer of [[-2^21, 2^21]]. *)
Lemma rounded_product_is_integer (x : float) :
  is_nan x = false ->
  (double_of_int DBL_MAX_EXP <? x) = false ->
  (x <? double_of_int (DBL_MIN_EXP - 1 - DBL_MANT_DIG)) = false ->
  round (x * 256.0) = MINUS_ZERO \/
  exists k : Z, (- 2 ^ 21 <= k <= 2 ^ 21)%Z /\ round (x * 256.0) = double_of_int k.
Proof.
  intros Hnan Hmax Hmin.
  destruct (Prim2SF x) as [s | s | | s mx ex] eqn:Hx.
  - (* zero *)
    assert (Hv : Prim2SF (x * 256.0) = S754_zero s).
    { rewrite mul_spec, Hx. destruct s; reflexivity. }
    rewrite (round_of_zero _ s Hv).
    destruct s.
    + left. apply Prim2SF_inj. rewrite Hv. reflexivity.
    + right. exists 0%Z. split; [lia |]. apply Prim2SF_inj. rewrite Hv. reflexivity.
  - (* infinity *)
    exfalso. destruct s.
    + rewrite ltb_spec, Hx in Hmin. discriminate Hmin.
    + rewrite ltb_spec, Hx in Hmax. discriminate Hmax.
  - (* NaN *)
    exfalso. unfold is_nan in Hnan. rewrite eqb_spec, Hx in Hnan. discriminate Hnan.
  - (* finite *)
    assert (Hex : (ex <= -42)%Z).
    { destruct s; [exact (not_below_min x mx ex Hx Hmin) | exact (not_above_max x mx ex Hx Hmax)]. }
    destruct (mul_256 x s mx ex Hx Hex) as (mv & ev & Hv & Hev).
    destruct s.
    + destruct (round_of_negative _ mv ev Hv Hev) as [Hz | (K & HK & HR)]; [left; exact Hz |].
      right. exists (cond_Zopp true K). split; [cbn [cond_Zopp]; lia |].
      apply Prim2SF_inj. rewrite HR. symmetry. apply double_of_int_sf.
      change (2 ^ 53)%Z with (2 ^ 21 * 2 ^ 32)%Z. lia.
    + destruct (round_of_positive _ mv ev Hv Hev) as (K & HK & HR).
      right. exists (cond_Zopp false K). split; [cbn [cond_Zopp]; lia |].
      apply Prim2SF_inj. rewrite HR. symmetry. apply double_of_int_sf.
      change (2 ^ 53)%Z with (2 ^ 21 * 2 ^ 32)%Z. lia.
Qed.

Lemma table_at_in_bounds (i : Z) :
  (0 <= i <= 256)%Z -> exists e, table_at i = Ret e.
Proof.
  intro Hi. unfold table_at.
  replace (i <? 0)%Z with false by (symmetry; apply Z.ltb_ge; lia).
  destruct (nth_error exp_table (Z.to_nat i)) as [e |] eqn:E; [eauto |].
  apply nth_error_None in E. change (List.length exp_table) with 257%nat in E. lia.
Qed.

(** C9: for every finite [x] outside the two saturating ranges the
    decomposition yields integers [n] and [m] with [-128 <= m <= 128], the
    index [128 + m] is within the 257 entries of [exp_table], and [exp2]
    returns a double. *)
Theorem exp2_table_index_in_bounds (x : float) :
  is_finite x = true ->
  (double_of_int DBL_MAX_EXP <? x) = false ->
  (x <? double_of_int (DBL_MIN_EXP - 1 - DBL_MANT_DIG)) = false ->
  exists (n m : Z) (e r : float),
    decompose (round (x * 256.0)) = Ret (n, m) /\
    (-128 <= m <= 128)%Z /\
    (0 <= int_add 128 m <= 256)%Z /\
    table_at (int_add 128 m) = Ret e /\
    exp2 x = Ret r.
Proof.
  intros Hfin Hmax Hmin.
  assert (Hnan : is_nan x = false).
  { unfold is_finite in Hfin. destruct (is_nan x); [discriminate Hfin | reflexivity]. }
  assert (Hdec : exists n m, decompose (round (x * 256.0)) = Ret (n, m)
                             /\ (-128 <= m <= 128)%Z).
  { destruct (rounded_product_is_integer x Hnan Hmax Hmin) as [Hz | (k & Hk & Hr)].
    - rewrite Hz. exists 0%Z, 0%Z. split; [reflexivity | lia].
    - rewrite Hr. apply decompose_integer. exact Hk. }
  destruct Hdec as (n & m & Hdec & Hm).
  assert (Hidx : int_add 128 m = (128 + m)%Z).
  { unfold int_add. apply wrap_int_small. unfold INT_MIN, INT_MAX.
    change (2 ^ 31)%Z with 2147483648%Z. lia. }
  destruct (table_at_in_bounds (128 + m)) as [e He]; [lia |].
  assert (Hexp : exists r, exp2 x = Ret r).
  { unfold exp2. cbv zeta. rewrite Hmax, Hmin, Hdec. cbn [bind].
    rewrite Hidx, He. cbn [bind]. eexists. reflexivity. }
  destruct Hexp as [r Hr].
  exists n, m, e, r. rewrite Hidx.
  split; [exact Hdec |]. split; [exact Hm |]. split; [lia |].
  split; [exact He | exact Hr].
Qed.

Lemma exp2_table_index_in_bounds_witness :
  exists (n m : Z) (e r : float),
    decompose (round (0.5 * 256.0)) = Ret (n, m) /\
    (-128 <= m <= 128)%Z /\
    (0 <= int_add 128 m <= 256)%Z /\
    table_at (int_add 128 m) = Ret e /\
    exp2 0.5 = Ret r.
Proof.
  apply (exp2_table_index_in_bounds 0.5); reflexivity.
Defined.

Close Scope float_scope.

(** *** [exp2] on integers and on multiples of [1/256] *)

Lemma int_range_In (k : nat) :
  forall lo n, lo <= n < lo + Z.of_nat k -> In n (int_range lo k).
Proof.
  induction k as [| k IH]; intros lo n Hn; [lia |].
  cbn [int_range]. destruct (Z.eq_dec n lo) as [-> | Hne]; [left; reflexivity |].
  right. apply IH. lia.
Qed.

Lemma exact_on_integers :
  forallb exact_on_integer (int_range (-1075) 2100) = true.
Proof. vm_compute. reflexivity. Qed.



(** The product [x * 256.0] of a normal [x] is exact: the mantissa stays and
    the exponent grows by 8; that of a subnormal [x] stays tiny. *)
Lemma mul_256_shape (x : float) (s : bool) (mx : positive) (ex : Z) :
  Prim2SF x = S754_finite s mx ex -> ex <= -42 ->
  exists mv ev,
    Prim2SF (x * 256.0)%float = S754_finite s mv ev /\ ev <= ex + 8 /\
    Zpos mv < 2 ^ 53 /\
    (2 ^ 52 <= Zpos mx -> mv = mx /\ ev = ex + 8).
Proof.
  intros Hx Hex.
  pose proof (Prim2SF_valid x) as Hvalid. rewrite Hx in Hvalid.
  destruct (valid_mantissa_bound _ _ _ Hvalid) as (Hmx & (Hmin & _) & _).
  pose proof (digits_below_2_53 mx Hmx) as Hd.
  pose proof (Prim2SF_valid (x * 256.0)%float) as Hvalid'.
  rewrite mul_spec, Hx in Hvalid' |- *.
  replace (Prim2SF 256.0%float) with (S754_finite false 4503599627370496 (-44))
    in Hvalid' |- * by reflexivity.
  unfold SF64mul, SFmul in Hvalid' |- *. rewrite xorb_false_r in Hvalid' |- *.
  set (M := Zpos (mx * 4503599627370496)) in *.
  assert (HMv : M = Zpos mx * 2 ^ 52) by reflexivity.
  assert (HdM : Zdigits2 M = Zpos (digits2_pos mx) + 52).
  { unfold M. rewrite Zdigits2_pos. apply digits2_shift; [lia | exact HMv]. }
  set (d := Zpos (digits2_pos mx)) in *.
  set (er := fexp64 (Zdigits2 M + (ex + -44))).
  assert (Her : ex - 44 <= er <= ex + 8) by (unfold er, fexp64; rewrite HdM; lia).
  assert (HM : 0 < M) by (unfold M; lia).
  assert (H1 : ex + -44 <= fexp64 (Zdigits2 M + (ex + -44))) by (fold er; lia).
  assert (H2 : fexp64 (Zdigits2 M + (ex + -44)) <= 971) by (fold er; lia).
  assert (H3 : M mod 2 ^ (fexp64 (Zdigits2 M + (ex + -44)) - (ex + -44)) = 0).
  { fold er. rewrite HMv.
    replace 52 with ((52 - (er - (ex + -44))) + (er - (ex + -44))) at 1 by lia.
    rewrite Z.pow_add_r, Z.mul_assoc by lia. apply Z.mod_mul.
    pose proof (pow2_pos (er - (ex + -44))). lia. }
  destruct (binary_round_aux_exact s M (ex + -44) HM H1 H2 H3) as (p & Hres & Hp).
  fold er in Hres, Hp. rewrite Hres in Hvalid' |- *.
  destruct (valid_mantissa_bound _ _ _ Hvalid') as (Hp53 & _ & _).
  exists p, er. split; [reflexivity |]. split; [lia |]. split; [exact Hp53 |].
  intro Hnormal.
  assert (Hd53 : d = 53) by (apply digits2_pos_unique; lia).
  assert (Eer : er = ex + 8) by (unfold er, fexp64; rewrite HdM, Hd53; lia).
  split; [| exact Eer].
  rewrite Eer in Hp. replace (ex + 8 - (ex + -44)) with 52 in Hp by lia.
  apply Pos2Z.inj. lia.
Qed.

Open Scope float_scope.

Lemma is_nan_spec (x : float) : is_nan x = true <-> x = nan.
Proof.
  split.
  - intro H. unfold is_nan in H. rewrite eqb_spec in H.
    apply Prim2SF_inj. change (Prim2SF nan) with S754_nan.
    destruct (Prim2SF x) as [s | s | | s m e]; try reflexivity; exfalso.
    + destruct s; discriminate H.
    + destruct s; discriminate H.
    + unfold SFeqb, SFcompare in H.
      rewrite Z.compare_refl in H.
      destruct s; rewrite Pos.compare_cont_refl in H; discriminate H.
  - intros ->. reflexivity.
Qed.


(** Every double but NaN is in the domain of [exp2]. *)
Lemma exp2_returns (x : float) :
  is_nan x = false -> exists r, exp2 x = Ret r.
Proof.
  intro Hnan. unfold exp2. cbv zeta.
  destruct (double_of_int DBL_MAX_EXP <? x) eqn:Hmax; [eexists; reflexivity |].
  destruct (x <? double_of_int (DBL_MIN_EXP - 1 - DBL_MANT_DIG)) eqn:Hmin;
    [eexists; reflexivity |].
  assert (Hdec : exists n m, decompose (round (x * 256.0)) = Ret (n, m)
                             /\ (-128 <= m <= 128)%Z).
  { destruct (rounded_product_is_integer x Hnan Hmax Hmin) as [Hz | (k & Hk & Hr)].
    - rewrite Hz. exists 0%Z, 0%Z. split; [reflexivity | lia].
    - rewrite Hr. apply decompose_integer. exact Hk. }
  destruct Hdec as (n & m & Hdec & Hm). rewrite Hdec. cbn [bind].
  assert (Hidx : int_add 128 m = (128 + m)%Z).
  { unfold int_add. apply wrap_int_small. unfold INT_MIN, INT_MAX.
    change (2 ^ 31)%Z with 2147483648%Z. lia. }
  destruct (table_at_in_bounds (128 + m)) as [e He]; [lia |].
  rewrite Hidx, He. cbn [bind]. eexists. reflexivity.
Qed.


(** The argument of the series: [|tanh_z| < 1/2] when [|x * 256 - nm| < 2]. *)
Lemma tanh_z_below (d : float) :
  below_pow2 1 (Prim2SF d) ->
  let z := d * (LOG2_BY_256 * 0.5) in
  let z2 := z * z in
  let tanh_z := ((TANH_COEFF_5 * z2 + TANH_COEFF_3) * z2 + TANH_COEFF_1) * z in
  below_pow2 (-1) (Prim2SF tanh_z).
Proof.
  intros Hd z z2 tanh_z.
  assert (Hc : below_pow2 (-9) (Prim2SF (LOG2_BY_256 * 0.5))) by (vm_compute; discriminate).
  assert (H5 : below_pow2 (-2) (Prim2SF TANH_COEFF_5)) by (vm_compute; discriminate).
  assert (H3 : below_pow2 (-1) (Prim2SF TANH_COEFF_3)) by (vm_compute; discriminate).
  assert (H1 : below_pow2 1 (Prim2SF TANH_COEFF_1)) by (vm_compute; discriminate).
  assert (Hz : below_pow2 (-7) (Prim2SF z)).
  { unfold z. rewrite mul_spec.
    apply (SF64mul_below _ _ 1 (-9)); try apply Prim2SF_valid; try assumption; lia. }
  assert (Hz2 : below_pow2 (-13) (Prim2SF z2)).
  { unfold z2. rewrite mul_spec.
    apply (SF64mul_below _ _ (-7) (-7)); try apply Prim2SF_valid; try assumption; lia. }
  assert (Ha : below_pow2 (-1) (Prim2SF (TANH_COEFF_5 * z2))).
  { rewrite mul_spec. apply (below_pow2_le (-14)); [| lia].
    apply (SF64mul_below _ _ (-2) (-13)); try apply Prim2SF_valid; try assumption; lia. }
  assert (Hb : below_pow2 1 (Prim2SF (TANH_COEFF_5 * z2 + TANH_COEFF_3))).
  { rewrite add_spec. apply (SF64add_below _ _ (-1)); [assumption | assumption | lia]. }
  assert (Hc' : below_pow2 1 (Prim2SF ((TANH_COEFF_5 * z2 + TANH_COEFF_3) * z2))).
  { rewrite mul_spec. apply (below_pow2_le (-11)); [| lia].
    apply (SF64mul_below _ _ 1 (-13)); try apply Prim2SF_valid; try assumption; lia. }
  assert (Hp : below_pow2 3
                 (Prim2SF ((TANH_COEFF_5 * z2 + TANH_COEFF_3) * z2 + TANH_COEFF_1))).
  { rewrite add_spec. apply (SF64add_below _ _ 1); [assumption | assumption | lia]. }
  unfold tanh_z. rewrite mul_spec. apply (below_pow2_le (-3)); [| lia].
  apply (SF64mul_below _ _ 3 (-7)); try apply Prim2SF_valid; try assumption; lia.
Qed.

Lemma exp_y_nonnegative (t : float) :
  below_pow2 (-1) (Prim2SF t) -> nonnegative (Prim2SF ((1.0 + t) / (1.0 - t))).
Proof.
  intro Ht.
  destruct (one_and_small (Prim2SF t) (Prim2SF_valid t) Ht)
    as ((m1 & e1 & Hnum & _) & (m2 & e2 & Hden & _)).
  rewrite div_spec, add_spec, sub_spec.
  change (Prim2SF 1.0) with sf_one. rewrite Hnum, Hden.
  apply SF64div_nonnegative.
Qed.

Lemma table_entry_positive (i : Z) (e : float) :
  table_at i = Ret e -> exists m ee, Prim2SF e = S754_finite false m ee.
Proof.
  intro H. unfold table_at in H.
  destruct (i <? 0)%Z; [discriminate H |].
  destruct (nth_error exp_table (Z.to_nat i)) as [e' |] eqn:E; [| discriminate H].
  injection H as ->. apply nth_error_In in E.
  assert (Hall : forallb (fun e => match Prim2SF e with
                                   | S754_finite false _ _ => true
                                   | _ => false
                                   end) exp_table = true)
    by (vm_compute; reflexivity).
  rewrite forallb_forall in Hall. specialize (Hall e E).
  destruct (Prim2SF e) as [s | s | | [] m ee]; try discriminate Hall.
  exists m, ee. reflexivity.
Qed.

Lemma scale_loop_nonnegative (k : nat) :
  forall ret, nonnegative (Prim2SF ret) -> nonnegative (Prim2SF (scale_loop k ret)).
Proof.
  induction k as [| k IH]; intros ret H; [exact H |].
  cbn [scale_loop]. apply IH. rewrite mul_spec.
  change (Prim2SF 2) with (S754_finite false 4503599627370496 (-51)).
  apply SF64mul_nonnegative. exact H.
Qed.

Lemma nonnegative_float (r : float) :
  nonnegative (Prim2SF r) -> is_nan r = false /\ (r <? 0) = false.
Proof.
  intro H. unfold is_nan. rewrite eqb_spec, ltb_spec.
  change (Prim2SF 0) with (S754_zero false).
  destruct (Prim2SF r) as [s | s | | s m e]; cbn [nonnegative] in H;
    try contradiction; try subst s.
  - destruct s; split; reflexivity.
  - split; reflexivity.
  - split; [| reflexivity].
    unfold SFeqb, SFcompare. rewrite Z.compare_refl, Pos.compare_cont_refl. reflexivity.
Qed.

(** The residue [x * 256.0 - nm] in the non-saturating range. *)
Lemma residue_below (x : float) :
  is_nan x = false ->
  (double_of_int DBL_MAX_EXP <? x) = false ->
  (x <? double_of_int (DBL_MIN_EXP - 1 - DBL_MANT_DIG)) = false ->
  below_pow2 1 (Prim2SF (x * 256.0 - round (x * 256.0))).
Proof.
  intros Hnan Hmax Hmin.
  rewrite sub_spec, round_value_of.
  apply SF64sub_round_value; [apply Prim2SF_valid |].
  destruct (Prim2SF x) as [s | s | | s mx ex] eqn:Hx.
  - rewrite mul_spec, Hx. destruct s; exact I.
  - exfalso. destruct s.
    + rewrite ltb_spec, Hx in Hmin. discriminate Hmin.
    + rewrite ltb_spec, Hx in Hmax. discriminate Hmax.
  - exfalso. unfold is_nan in Hnan. rewrite eqb_spec, Hx in Hnan. discriminate Hnan.
  - assert (Hex : (ex <= -42)%Z).
    { destruct s; [exact (not_below_min x mx ex Hx Hmin) | exact (not_above_max x mx ex Hx Hmax)]. }
    destruct (mul_256_shape x s mx ex Hx Hex) as (mv & ev & Hv & Hev & _).
    rewrite Hv. lia.
Qed.

(** [exp_y = (1.0 + tanh_z) / (1.0 - tanh_z)] is at least [1/8]. *)
Lemma exp_y_at_least (t : float) :
  below_pow2 (-1) (Prim2SF t) -> at_least (-3) (Prim2SF ((1.0 + t) / (1.0 - t))).
Proof.
  intro Ht.
  destruct (one_and_small (Prim2SF t) (Prim2SF_valid t) Ht)
    as ((m1 & e1 & Hnum & Hn) & (m2 & e2 & Hden & Hd)).
  rewrite div_spec, add_spec, sub_spec.
  change (Prim2SF 1.0) with sf_one. rewrite Hnum, Hden.
  apply SF64div_at_least; lia.
Qed.

(** Every entry of [exp_table] is at least [1/2]. *)
Lemma table_entry_at_least (i : Z) (e : float) :
  table_at i = Ret e -> at_least (-1) (Prim2SF e).
Proof.
  intro H. unfold table_at in H.
  destruct (i <? 0)%Z; [discriminate H |].
  destruct (nth_error exp_table (Z.to_nat i)) as [e' |] eqn:E; [| discriminate H].
  injection H as ->. apply nth_error_In in E.
  assert (Hall : forallb (fun e => match Prim2SF e with
                                   | S754_finite false m ee =>
                                       (0 <=? Zpos (digits2_pos m) + ee)%Z
                                   | _ => false
                                   end) exp_table = true)
    by (vm_compute; reflexivity).
  rewrite forallb_forall in Hall. specialize (Hall e E).
  destruct (Prim2SF e) as [s | s | | [] m ee]; try discriminate Hall.
  apply Z.leb_le in Hall. cbn [at_least]. split; [reflexivity | lia].
Qed.

(** Doubling does not take a number below a bound it has reached. *)
Lemma scale_loop_at_least (j : Z) (k : nat) :
  (-1022 <= j)%Z ->
  forall ret, at_least j (Prim2SF ret) -> at_least j (Prim2SF (scale_loop k ret)).
Proof.
  intro Hj. induction k as [| k IH]; intros ret H; [exact H |].
  cbn [scale_loop]. apply IH. rewrite mul_spec.
  apply (at_least_le (j + 1)); [| lia].
  apply SF64mul_at_least; try apply Prim2SF_valid; try assumption; [| lia].
  change (Prim2SF 2) with (S754_finite false 4503599627370496 (-51)).
  cbn [at_least]. split; [reflexivity |]. cbn. lia.
Qed.

Lemma at_least_float (r : float) :
  at_least (-4) (Prim2SF r) -> (0.0625 <=? r) = true.
Proof.
  intro H. rewrite leb_spec.
  change (Prim2SF 0.0625) with (S754_finite false 4503599627370496 (-56)).
  pose proof (Prim2SF_valid r) as V.
  destruct (Prim2SF r) as [s | s | | s m e]; cbn [at_least] in H; try contradiction.
  - subst s. reflexivity.
  - destruct H as [-> H].
    destruct (valid_mantissa_bound _ _ _ V) as (Hm & (He & _) & Hn).
    pose proof (digits_at_most m 53 Hm) as Hd.
    unfold SFleb, SFcompare.
    destruct (Z.compare_spec (-56) e) as [E | E | E]; [| reflexivity | lia].
    subst e. specialize (Hn ltac:(lia)).
    change (2 ^ 52)%Z with (Zpos 4503599627370496) in Hn.
    fold (Pos.compare 4503599627370496 m).
    destruct (Pos.compare_spec 4503599627370496 m) as [C | C | C]; try reflexivity.
    apply Pos2Z.pos_lt_pos in C.
    exact (False_ind _ (Z.lt_irrefl _ (Z.le_lt_trans _ _ _ Hn C))).
Qed.

(** X5: [exp2] returns a double for every argument but NaN; for NaN, which
    passes both range tests, the conversion [(int) nm] is applied to a
    NaN. *)
Theorem exp2_defined_iff_not_nan (x : float) :
  (is_nan x = false -> exists r, exp2 x = Ret r) /\
  (is_nan x = true -> exp2 x = Undefined CastOutOfRange).
Proof.
  split.
  - apply exp2_returns.
  - intro H. apply is_nan_spec in H. subst x. reflexivity.
Qed.

(** X6: [exp2] on the integers of [[-1075, 1024]], the non-saturating range:
    [exp2 n] is exactly [2^n] for [0 <= n], with [2^1024] the infinity, and
    it is [1.0] for every [n < 0], where the scaling loop does not run. *)
Theorem exp2_exact_on_integers (n : Z) :
  (-1075 <= n <= 1024)%Z -> exp2 (double_of_int n) = Ret (pow2 (Z.max n 0)).
Proof.
  intro Hn. pose proof exact_on_integers as Hall.
  rewrite forallb_forall in Hall.
  specialize (Hall n (int_range_In 2100 (-1075) n ltac:(lia))).
  unfold exact_on_integer in Hall.
  destruct (exp2 (double_of_int n)) as [r | f |]; try discriminate Hall.
  apply Leibniz.eqb_spec in Hall. rewrite Hall. reflexivity.
Qed.

Lemma exp2_exact_on_integers_witness :
  exp2 (double_of_int 10) = Ret 1024 /\ exp2 (double_of_int (-10)) = Ret 1.
Proof.
  split.
  - apply (exp2_exact_on_integers 10). lia.
  - apply (exp2_exact_on_integers (-10)). lia.
Defined.





(** X17: [exp2] returns no NaN and no negative number: the residue
    [x * 256.0 - nm] is below 2 in magnitude, so [tanh_z] is below [1/2],
    [1.0 + tanh_z] and [1.0 - tanh_z] are positive, and the table entries
    are positive. *)
Theorem exp2_not_negative (x r : float) :
  exp2 x = Ret r -> is_nan r = false /\ (r <? 0) = false.
Proof.
  intro H. apply nonnegative_float.
  destruct (is_nan x) eqn:Hnan.
  { apply is_nan_spec in Hnan. subst x. discriminate H. }
  unfold exp2 in H. cbv zeta in H.
  destruct (double_of_int DBL_MAX_EXP <? x) eqn:Hmax.
  { injection H as <-. reflexivity. }
  destruct (x <? double_of_int (DBL_MIN_EXP - 1 - DBL_MANT_DIG)) eqn:Hmin.
  { injection H as <-. exact I. }
  pose proof (residue_below x Hnan Hmax Hmin) as Hd.
  pose proof (tanh_z_below _ Hd) as Ht. cbv zeta in Ht.
  pose proof (exp_y_nonnegative _ Ht) as Hy.
  destruct (decompose (round (x * 256.0))) as [[n m] | f |]; cbn [bind] in H;
    try discriminate H.
  destruct (table_at (int_add 128 m)) as [e | f |] eqn:He; cbn [bind] in H;
    try discriminate H.
  injection H as <-.
  destruct (table_entry_positive _ _ He) as (me & ee & Hee).
  apply scale_loop_nonnegative. rewrite mul_spec, Hee.
  apply SF64mul_nonnegative_l. exact Hy.
Qed.

Lemma exp2_not_negative_witness :
  is_nan 1.2311444133449161 = false /\ (1.2311444133449161 <? 0) = false.
Proof.
  apply (exp2_not_negative 0.3 1.2311444133449161). reflexivity.
Defined.

(** X18: in the range where [exp2] does not return zero at once, the value
    returned is at least [1/16]: [for (int i = 0; i < n; i++) ret *= 2;]
    scales by no power of two for a negative [n]. *)
Theorem exp2_at_least_sixteenth (x r : float) :
  exp2 x = Ret r ->
  (x <? double_of_int (DBL_MIN_EXP - 1 - DBL_MANT_DIG)) = false ->
  (0.0625 <=? r) = true.
Proof.
  intros H Hmin. apply at_least_float.
  destruct (is_nan x) eqn:Hnan.
  { apply is_nan_spec in Hnan. subst x. discriminate H. }
  unfold exp2 in H. cbv zeta in H. rewrite Hmin in H.
  destruct (double_of_int DBL_MAX_EXP <? x) eqn:Hmax.
  { injection H as <-. reflexivity. }
  pose proof (residue_below x Hnan Hmax Hmin) as Hd.
  pose proof (tanh_z_below _ Hd) as Ht. cbv zeta in Ht.
  pose proof (exp_y_at_least _ Ht) as Hy.
  destruct (decompose (round (x * 256.0))) as [[n m] | f |]; cbn [bind] in H;
    try discriminate H.
  destruct (table_at (int_add 128 m)) as [e | f |] eqn:He; cbn [bind] in H;
    try discriminate H.
  injection H as <-.
  apply scale_loop_at_least; [lia |]. rewrite mul_spec.
  apply (SF64mul_at_least _ _ (-1) (-3)); try apply Prim2SF_valid; try lia.
  - exact (table_entry_at_least _ _ He).
  - exact Hy.
Qed.

Lemma exp2_at_least_sixteenth_witness :
  (0.0625 <=? 1.4142135623730951) = true.
Proof.
  exact (exp2_at_least_sixteenth (-10.5) 1.4142135623730951 eq_refl eq_refl).
Defined.

End Exp2.

(** * Properties of the z-base-32 encoder *)

Section Encoder.
Open Scope Z_scope.

(** The alphabet has one symbol for each 5-bit index, and none is NUL. *)
Lemma alpha_at_index (x : Z) :
  exists c, alpha_at (Z.land x 31) = Ret c /\ c <> Ascii.zero.
Proof.
  assert (Hv : 0 <= Z.land x 31 < 32).
  { change 31 with (Z.ones 5). rewrite Z.land_ones by lia.
    apply Z.mod_pos_bound. reflexivity. }
  remember (Z.land x 31) as v eqn:Ev. clear Ev.
  replace v with (Z.of_nat (Z.to_nat v)) by lia.
  assert (Hn : (Z.to_nat v < 32)%nat) by lia.
  remember (Z.to_nat v) as n eqn:En. clear En Hv v.
  do 32 (destruct n as [| n];
         [eexists; split; [vm_compute; reflexivity | discriminate] |]).
  lia.
Qed.

Lemma poke_at_end_of (done rest : list ascii) (x c : ascii) :
  poke (done ++ x :: rest) (List.length done) c = Ret (done ++ c :: rest).
Proof.
  induction done as [| a done IH]; cbn; [reflexivity |].
  rewrite IH. reflexivity.
Qed.

Lemma byte_at_defined (value : list Z) (i : nat) :
  (i < List.length value)%nat -> exists b, byte_at value i = Ret b.
Proof.
  intro H. unfold byte_at.
  destruct (nth_error value i) as [b |] eqn:E; [eauto |].
  apply nth_error_None in E. lia.
Qed.

Lemma refill_step (value : list Z) (pos : nat) (bits tmp : Z) :
  0 <= bits <= 8 ->
  0 < bits_left value pos bits ->
  exists tmp' pos' bits',
    refill value pos bits tmp = Ret (tmp', pos', bits') /\
    5 <= bits' <= 12 /\
    (bits_left value pos' bits' + 4) / 5 = (bits_left value pos bits + 4) / 5.
Proof.
  intros Hbits Hleft. unfold refill, bits_left in *.
  destruct (bits <? 5) eqn:E5.
  - apply Z.ltb_lt in E5.
    destruct (pos <? List.length value)%nat eqn:Ep.
    + apply Nat.ltb_lt in Ep.
      destruct (byte_at_defined value pos Ep) as [b Hb]. rewrite Hb. cbn [bind].
      destruct (small_int_arith bits 8) as [Hadd _]; [lia | lia |].
      rewrite Hadd. do 3 eexists. split; [reflexivity |].
      split; [lia |].
      f_equal. lia.
    + apply Nat.ltb_ge in Ep.
      do 3 eexists. split; [reflexivity |].
      split; [lia |].
      replace (List.length value - pos)%nat with 0%nat in * by lia.
      cbn [Z.of_nat] in *.
      assert (Hb : bits = 1 \/ bits = 2 \/ bits = 3 \/ bits = 4) by lia.
      destruct Hb as [-> | [-> | [-> | ->]]]; reflexivity.
  - apply Z.ltb_ge in E5.
    do 3 eexists. split; [reflexivity |].
    split; [lia |]. reflexivity.
Qed.

(** One run of the loop from any of its states: it leaves through the loop
    guard with [&stack[0]], having written [groups_left] symbols from
    [stack[ret]] on and nothing else. *)
Lemma encode_loop_run (fuel : nat) :
  forall (value : list Z) (pos : nat) (bits tmp : Z) (done rest : list ascii),
    (List.length done + List.length rest = sizeof_stack)%nat ->
    0 <= bits <= 8 ->
    (List.length rest < fuel)%nat ->
    exists out,
      List.length out = groups_left value pos bits (List.length rest) /\
      Forall (fun c => c <> Ascii.zero) out /\
      encode_loop fuel value (List.length done) pos bits tmp (done ++ rest)
      = Ret (Some (done ++ out ++ skipn (List.length out) rest)).
Proof.
  induction fuel as [| fuel IH]; intros value pos bits tmp done rest Hsz Hbits Hfuel;
    [lia |].
  cbn [encode_loop].
  destruct ((List.length done <? sizeof_stack)%nat
            && ((0 <? bits) || (pos <? List.length value)%nat)) eqn:Eguard.
  - apply andb_true_iff in Eguard. destruct Eguard as [Eroom Emore].
    apply Nat.ltb_lt in Eroom.
    assert (Hleft : 0 < bits_left value pos bits).
    { unfold bits_left. apply orb_true_iff in Emore.
      destruct Emore as [Eb | Ep]; [apply Z.ltb_lt in Eb | apply Nat.ltb_lt in Ep]; lia. }
    destruct (refill_step value pos bits tmp Hbits Hleft)
      as (tmp' & pos' & bits' & Hrefill & Hbits' & Hgroups).
    rewrite Hrefill. cbn [bind].
    destruct (small_int_arith bits' 5) as [_ Hsub]; [lia | lia |].
    rewrite Hsub.
    assert (Eroom' : (List.length done <? sizeof_stack)%nat = true)
      by (apply Nat.ltb_lt; exact Eroom).
    rewrite Eroom'.
    destruct (alpha_at_index (int_shr tmp' (bits' - 5))) as (c & Hc & Hcz).
    rewrite Hc. cbn [bind].
    destruct rest as [| x rest]; [cbn in Hsz; lia |].
    rewrite poke_at_end_of. cbn [bind].
    specialize (IH value pos' (bits' - 5) tmp' (done ++ [c]) rest).
    rewrite length_app in IH. cbn [List.length] in *.
    replace (List.length done + 1)%nat with (S (List.length done)) in IH by lia.
    destruct IH as (out & Hlen & Hnz & Hrun); try lia.
    exists (c :: out). split; [| split].
    + cbn [List.length]. rewrite Hlen. unfold groups_left.
      assert (Hg : (bits_left value pos' (bits' - 5) + 4) / 5
                   = (bits_left value pos bits + 4) / 5 - 1).
      { rewrite <- Hgroups. unfold bits_left.
        replace (bits' - 5 + 8 * Z.of_nat (List.length value - pos') + 4)
          with (bits' + 8 * Z.of_nat (List.length value - pos') + 4 + (-1) * 5) by lia.
        rewrite Z.div_add by lia. lia. }
      rewrite Hg.
      assert (Hpos1 : 1 <= (bits_left value pos bits + 4) / 5).
      { apply Z.div_le_lower_bound; lia. }
      lia.
    + constructor; assumption.
    + rewrite <- (app_assoc done [c] rest) in Hrun. cbn [app] in Hrun.
      rewrite Hrun. rewrite <- app_assoc. reflexivity.
  - exists []. split; [| split; [constructor | rewrite app_nil_l; reflexivity]].
    cbn [List.length]. unfold groups_left, bits_left.
    apply andb_false_iff in Eguard. destruct Eguard as [Eroom | Emore].
    + apply Nat.ltb_ge in Eroom.
      assert (List.length rest = 0)%nat by lia.
      assert (0 <= (bits + 8 * Z.of_nat (List.length value - pos) + 4) / 5)
        by (apply Z.div_pos; lia).
      lia.
    + apply orb_false_iff in Emore. destruct Emore as [Eb Ep].
      apply Z.ltb_ge in Eb. apply Nat.ltb_ge in Ep.
      replace (List.length value - pos)%nat with 0%nat by lia.
      replace bits with 0 by lia. cbn. lia.
Qed.

Lemma skipn_zero_buf (k : nat) :
  (k <= sizeof_stack)%nat ->
  skipn k zero_buf = List.repeat Ascii.zero (sizeof_stack - k).
Proof.
  unfold zero_buf. generalize sizeof_stack. intros n.
  revert k. induction n as [| n IH]; intros [| k] Hk; cbn; try reflexivity; try lia.
  apply IH. lia.
Qed.

Lemma c_str_terminated (out rest : list ascii) :
  Forall (fun c => c <> Ascii.zero) out ->
  c_str (out ++ Ascii.zero :: rest) = Ret (string_of_list_ascii out).
Proof.
  induction 1 as [| c out Hc _ IH]; cbn; [reflexivity |].
  apply Ascii.eqb_neq in Hc. rewrite Hc, IH. reflexivity.
Qed.

Lemma c_str_unterminated (out : list ascii) :
  Forall (fun c => c <> Ascii.zero) out ->
  c_str out = Undefined NoTerminator.
Proof.
  induction 1 as [| c out Hc _ IH]; cbn; [reflexivity |].
  apply Ascii.eqb_neq in Hc. rewrite Hc, IH. reflexivity.
Qed.

Lemma length_string_of_list (l : list ascii) :
  String.length (string_of_list_ascii l) = List.length l.
Proof. induction l as [| c l IH]; cbn; congruence. Qed.

Lemma length_list_of_string (s : string) :
  List.length (list_ascii_of_string s) = String.length s.
Proof. induction s as [| c s IH]; cbn; congruence. Qed.

Lemma decode_hex_length (src : string) :
  List.length (decode_hex src) = String.length src.
Proof. unfold decode_hex. rewrite length_map. apply length_list_of_string. Qed.

Lemma groups_from_start (value : list Z) :
  value <> [] ->
  groups_left value 1 8 sizeof_stack = symbols_written (List.length value).
Proof.
  intro Hne. unfold groups_left, bits_left, symbols_written, ceil_8N_over_5.
  destruct value as [| b value]; [congruence |]. cbn [List.length].
  replace (8 + 8 * Z.of_nat (S (List.length value) - 1) + 4)
    with (Z.of_nat (8 * S (List.length value) + 4)) by lia.
  change 5 with (Z.of_nat 5). rewrite <- Nat2Z.inj_div, <- Nat2Z.inj_min.
  apply Nat2Z.id.
Qed.

(** [base32z_encode] on a non-empty vector and the zeroed buffer: it returns
    [&stack[0]] (never [nullptr]), with [symbols_written] symbols at the front
    of the buffer and the rest of it untouched. *)
Lemma base32z_encode_run (value : list Z) :
  value <> [] ->
  exists out,
    List.length out = symbols_written (List.length value) /\
    Forall (fun c => c <> Ascii.zero) out /\
    base32z_encode value zero_buf
    = Ret (Some (out ++ List.repeat Ascii.zero (sizeof_stack - List.length out))).
Proof.
  intro Hne. unfold base32z_encode.
  destruct value as [| b bytes]; [congruence |]. cbn [byte_at nth_error bind].
  assert (Hsz : (List.length (@nil ascii) + List.length zero_buf = sizeof_stack)%nat)
    by reflexivity.
  assert (Hbits : 0 <= 8 <= 8) by lia.
  assert (Hfuel : (List.length zero_buf < S sizeof_stack)%nat) 
    by (unfold zero_buf; rewrite repeat_length; lia).
  destruct (encode_loop_run (S sizeof_stack) (b :: bytes) 1 8 b [] zero_buf
              Hsz Hbits Hfuel) as (out & Hlen & Hnz & Hrun).
  cbn [List.length app] in Hrun. cbn [List.length] in Hlen.
  replace (List.length zero_buf) with sizeof_stack in Hlen by reflexivity.
  rewrite groups_from_start in Hlen by exact Hne.
  exists out. split; [exact Hlen |]. split; [exact Hnz |].
  rewrite Hrun. rewrite skipn_zero_buf; [reflexivity |].
  rewrite Hlen. unfold symbols_written. lia.
Qed.

Lemma ceil_8N_over_5_bounds (N : nat) :
  ((1 <= N -> 1 <= ceil_8N_over_5 N) /\
   (N <= 39 -> ceil_8N_over_5 N < sizeof_stack) /\
   (40 <= N -> sizeof_stack <= ceil_8N_over_5 N))%nat.
Proof.
  unfold ceil_8N_over_5, sizeof_stack. repeat split; intro H.
  - apply Nat.div_le_lower_bound; lia.
  - apply Nat.Div0.div_lt_upper_bound; lia.
  - apply Nat.div_le_lower_bound; lia.
Qed.

(** What [hex64_to_base32z] does, by the length [N] of its argument. *)
Lemma hex64_to_base32z_cases (src : string) :
  let N := String.length src in
  (N = 0%nat -> hex64_to_base32z src = inr (Undefined ReadOutOfBounds)) /\
  ((1 <= N <= 39)%nat ->
   exists s, hex64_to_base32z src = inr (Ret s) /\
             String.length s = ceil_8N_over_5 N) /\
  ((40 <= N <= 64)%nat -> hex64_to_base32z src = inr (Undefined NoTerminator)) /\
  ((64 < N)%nat -> hex64_to_base32z src = inl AssertionFailed).
Proof.
  intro N. unfold hex64_to_base32z. fold N.
  assert (Hdec : List.length (decode_hex src) = N) by apply decode_hex_length.
  destruct (ceil_8N_over_5_bounds N) as (Hlo & Hfit & Hfull).
  split; [| split; [| split]]; intro HN.
  - destruct src; [reflexivity | discriminate HN].
  - replace (N <=? 64)%nat with true by (symmetry; apply Nat.leb_le; lia).
    destruct (base32z_encode_run (decode_hex src)) as (out & Hlen & Hnz & Hrun).
    { intro E. rewrite E in Hdec. cbn in Hdec. lia. }
    rewrite Hrun. cbn [bind]. rewrite Hdec in Hlen.
    unfold symbols_written in Hlen.
    destruct (sizeof_stack - List.length out)%nat as [| j] eqn:Ej; [lia |].
    cbn [List.repeat]. rewrite c_str_terminated by exact Hnz.
    eexists. split; [reflexivity |]. rewrite length_string_of_list. lia.
  - replace (N <=? 64)%nat with true by (symmetry; apply Nat.leb_le; lia).
    destruct (base32z_encode_run (decode_hex src)) as (out & Hlen & Hnz & Hrun).
    { intro E. rewrite E in Hdec. cbn in Hdec. lia. }
    rewrite Hrun. cbn [bind]. rewrite Hdec in Hlen.
    unfold symbols_written in Hlen.
    replace (sizeof_stack - List.length out)%nat with 0%nat by lia.
    cbn [List.repeat]. rewrite app_nil_r.
    rewrite c_str_unterminated by exact Hnz. reflexivity.
  - replace (N <=? 64)%nat with false by (symmetry; apply Nat.leb_gt; lia).
    reflexivity.
Qed.

(** [base32z_encode] has no path to its [return nullptr]: the loop guard
    already asked for [ret < sizeof(stack)]. *)
Lemma base32z_encode_never_null (value : list Z) :
  base32z_encode value zero_buf <> Ret None.
Proof.
  destruct value as [| b bytes]; [discriminate |].
  destruct (base32z_encode_run (b :: bytes)) as (out & _ & _ & Hrun);
    [discriminate |].
  rewrite Hrun. discriminate.
Qed.

(** Every write of [base32z_encode] lands inside the 64 bytes of the
    buffer. *)
Lemma base32z_encode_writes_in_bounds (value : list Z) :
  base32z_encode value zero_buf <> Undefined WriteOutOfBounds /\
  base32z_encode value zero_buf <> OutOfFuel.
Proof.
  destruct value as [| b bytes]; [split; discriminate |].
  destruct (base32z_encode_run (b :: bytes)) as (out & _ & _ & Hrun);
    [discriminate |].
  rewrite Hrun. split; discriminate.
Qed.

(** An argument of 40 to 64 characters fills the buffer, and the string is
    then read from a buffer without terminator. *)
Lemma hex64_to_base32z_long_input (src : string) :
  (40 <= String.length src <= 64)%nat ->
  hex64_to_base32z src = inr (Undefined NoTerminator).
Proof. apply hex64_to_base32z_cases. Qed.

(** *** The symbols that [base32z_encode] writes *)

Lemma be_number_app (l1 l2 : list Z) (acc : Z) :
  be_number acc (l1 ++ l2) = be_number (be_number acc l1) l2.
Proof.
  revert acc. induction l1 as [| b l1 IH]; intro acc; cbn; [reflexivity | apply IH].
Qed.

Lemma be_number_acc (l : list Z) (acc : Z) :
  be_number acc l = acc * 2 ^ (8 * Z.of_nat (List.length l)) + be_number 0 l.
Proof.
  revert acc. induction l as [| b l IH]; intro acc.
  - cbn. lia.
  - cbn [be_number List.length]. rewrite (IH (acc * 256 + b)), (IH (0 * 256 + b)).
    replace (8 * Z.of_nat (S (List.length l))) with (8 + 8 * Z.of_nat (List.length l)) by lia.
    rewrite Z.pow_add_r by lia. change (2 ^ 8) with 256. ring.
Qed.

Lemma be_number_bounds (l : list Z) :
  Forall is_byte l -> 0 <= be_number 0 l < 2 ^ (8 * Z.of_nat (List.length l)).
Proof.
  induction 1 as [| b l Hb _ IH].
  - cbn. lia.
  - cbn [be_number List.length]. rewrite be_number_acc.
    replace (8 * Z.of_nat (S (List.length l))) with (8 + 8 * Z.of_nat (List.length l)) by lia.
    rewrite Z.pow_add_r by lia. change (2 ^ 8) with 256.
    unfold is_byte in Hb. nia.
Qed.

(** The number of the first [p] bytes is the number of all of them without
    the bits of the others. *)
Lemma be_number_firstn (l : list Z) (p : nat) :
  Forall is_byte l -> (p <= List.length l)%nat ->
  be_number 0 (firstn p l)
  = Z.shiftr (be_number 0 l) (8 * Z.of_nat (List.length l - p)).
Proof.
  intros Hb Hp.
  rewrite <- (firstn_skipn p l) at 2.
  rewrite be_number_app, (be_number_acc (skipn p l)).
  assert (Hlen : List.length (skipn p l) = (List.length l - p)%nat)
    by apply length_skipn.
  rewrite Hlen.
  assert (Hrest : 0 <= be_number 0 (skipn p l) < 2 ^ (8 * Z.of_nat (List.length l - p))).
  { rewrite <- Hlen. apply be_number_bounds.
    rewrite <- (firstn_skipn p l) in Hb. apply Forall_app in Hb. apply Hb. }
  rewrite Z.shiftr_div_pow2 by lia.
  rewrite Z.div_add_l by lia.
  rewrite Z.div_small by exact Hrest. lia.
Qed.

Lemma agree32_wrap (v : Z) : agree32 (wrap_int v) v.
Proof.
  intros i Hi. unfold wrap_int.
  rewrite <- (Z.mod_pow2_bits_low _ 32 i) by lia.
  rewrite <- (Z.mod_pow2_bits_low v 32 i) by lia.
  f_equal.
  replace ((v + 2 ^ 31) mod 2 ^ 32 - 2 ^ 31)
    with ((v + 2 ^ 31) mod 2 ^ 32 + (-1) * 2 ^ 31) by lia.
  rewrite <- Zplus_mod_idemp_l. rewrite Zmod_mod.
  rewrite Zplus_mod_idemp_l.
  replace (v + 2 ^ 31 + -1 * 2 ^ 31) with v by lia. reflexivity.
Qed.

Lemma agree32_group (x y k : Z) :
  agree32 x y -> 0 <= k <= 27 ->
  Z.land (Z.shiftr x k) 31 = Z.land (Z.shiftr y k) 31.
Proof.
  intros H Hk. apply Z.bits_inj'. intros n Hn.
  rewrite !Z.land_spec, !Z.shiftr_spec by lia.
  change 31 with (Z.ones 5). rewrite Z.testbit_ones_nonneg by lia.
  destruct (n <? 5) eqn:E; [| rewrite !andb_false_r; reflexivity].
  apply Z.ltb_lt in E. rewrite (H (n + k)) by lia. reflexivity.
Qed.

Lemma agree32_shiftl (x y s : Z) :
  agree32 x y -> 0 <= s -> agree32 (Z.shiftl x s) (Z.shiftl y s).
Proof.
  intros H Hs i Hi. rewrite !Z.shiftl_spec by lia.
  destruct (Z_lt_le_dec (i - s) 0) as [Hneg | Hpos].
  - rewrite !Z.testbit_neg_r by lia. reflexivity.
  - apply H. lia.
Qed.

Lemma agree32_trans (x y z : Z) : agree32 x y -> agree32 y z -> agree32 x z.
Proof. intros H1 H2 i Hi. rewrite (H1 i Hi). apply H2. exact Hi. Qed.

Lemma push_byte (P b : Z) :
  is_byte b -> P * 256 + b = Z.lor (Z.shiftl P 8) (Z.land b 255).
Proof.
  intro Hb. unfold is_byte in Hb.
  assert (Eb : Z.land b 255 = b).
  { change 255 with (Z.ones 8). rewrite Z.land_ones by lia. apply Z.mod_small. lia. }
  rewrite Eb.
  assert (Hdisj : Z.land (Z.shiftl P 8) b = 0).
  { apply Z.bits_inj'. intros n Hn. rewrite Z.land_spec, Z.bits_0, Z.shiftl_spec by lia.
    destruct (Z_lt_le_dec n 8) as [Hlo | Hhi].
    - rewrite Z.testbit_neg_r by lia. reflexivity.
    - rewrite <- Eb. change 255 with (Z.ones 8).
      rewrite Z.land_spec, Z.ones_spec_high by lia.
      rewrite !andb_false_r. reflexivity. }
  pose proof (Z.add_lor_land (Z.shiftl P 8) b) as Hsum.
  rewrite Hdisj, Z.shiftl_mul_pow2 in Hsum by lia.
  rewrite Z.shiftl_mul_pow2 by lia.
  change (2 ^ 8) with 256 in *. lia.
Qed.

Lemma agree32_push (tmp P b : Z) :
  agree32 tmp P -> is_byte b ->
  agree32 (Z.lor (int_shl tmp 8) (Z.land b 255)) (P * 256 + b).
Proof.
  intros H Hb i Hi. rewrite (push_byte P b Hb).
  rewrite !Z.lor_spec. f_equal.
  unfold int_shl. rewrite (agree32_wrap _ i Hi).
  apply agree32_shiftl; [exact H | lia | exact Hi].
Qed.

Lemma firstn_succ_nth (l : list Z) (p : nat) (b : Z) :
  nth_error l p = Some b -> firstn (S p) l = firstn p l ++ [b].
Proof.
  revert p. induction l as [| a l IH]; intros [| p] H; cbn in *; try discriminate.
  - injection H as ->. reflexivity.
  - rewrite (IH p H). reflexivity.
Qed.

Lemma alpha_at_symbol (x : Z) :
  alpha_at (Z.land x 31) = Ret (nth (Z.to_nat (Z.land x 31)) zbase32_alpha "y"%char).
Proof.
  assert (Hv : 0 <= Z.land x 31 < 32).
  { change 31 with (Z.ones 5). rewrite Z.land_ones by lia.
    apply Z.mod_pos_bound. reflexivity. }
  unfold alpha_at.
  replace (Z.land x 31 <? 0) with false by (symmetry; apply Z.ltb_ge; lia).
  destruct (nth_error zbase32_alpha (Z.to_nat (Z.land x 31))) as [c |] eqn:E.
  - rewrite (nth_error_nth _ _ _ E). reflexivity.
  - apply nth_error_None in E. change (List.length zbase32_alpha) with 32%nat in E. lia.
Qed.

Lemma refill_group (value : list Z) (ret pos : nat) (bits tmp : Z) :
  Forall is_byte value ->
  0 <= bits <= 8 ->
  0 < bits_left value pos bits ->
  live value ret pos bits tmp ->
  exists tmp' pos' bits',
    refill value pos bits tmp = Ret (tmp', pos', bits') /\
    5 <= bits' <= 12 /\
    (bits_left value pos' bits' + 4) / 5 = (bits_left value pos bits + 4) / 5 /\
    Z.land (int_shr tmp' (bits' - 5)) 31 = group value ret /\
    (bits_left value pos' (bits' - 5) = 0 \/ live value (S ret) pos' (bits' - 5) tmp').
Proof.
  intros Hbytes Hbits Hleft (Hpos & Hacc & Hagree).
  set (N := List.length value) in *.
  assert (Hgroup : forall pos' bits' tmp',
             (pos' <= N)%nat -> 5 <= bits' <= 12 ->
             5 * Z.of_nat ret + bits' = 8 * Z.of_nat pos' ->
             agree32 tmp' (be_number 0 (firstn pos' value)) ->
             Z.land (int_shr tmp' (bits' - 5)) 31 = group value ret).
  { intros pos' bits' tmp' Hp Hb Ha Hag. unfold int_shr, group. fold N.
    rewrite (agree32_group _ _ (bits' - 5) Hag) by lia.
    rewrite be_number_firstn by assumption. fold N.
    rewrite Z.shiftr_shiftr by lia. f_equal. f_equal. lia. }
  unfold refill, bits_left in *. fold N in Hleft |- *.
  destruct (bits <? 5) eqn:E5.
  - apply Z.ltb_lt in E5.
    destruct (pos <? N)%nat eqn:Ep.
    + apply Nat.ltb_lt in Ep.
      destruct (byte_at_defined value pos Ep) as [b Hb]. rewrite Hb. cbn [bind].
      destruct (small_int_arith bits 8) as [Hadd _]; [lia | lia |].
      rewrite Hadd.
      assert (Hnth : nth_error value pos = Some b).
      { unfold byte_at in Hb. destruct (nth_error value pos); [congruence | discriminate]. }
      assert (Hbyte : is_byte b).
      { rewrite Forall_forall in Hbytes. apply Hbytes. eapply nth_error_In. exact Hnth. }
      assert (Hag' : agree32 (Z.lor (int_shl tmp 8) (Z.land b 255))
                       (be_number 0 (firstn (S pos) value))).
      { rewrite (firstn_succ_nth value pos b Hnth), be_number_app. cbn [be_number].
        apply agree32_push; assumption. }
      do 3 eexists. split; [reflexivity |].
      split; [lia |]. split; [f_equal; lia |].
      split.
      * apply (Hgroup (S pos)); [lia | lia | lia | exact Hag'].
      * right. split; [lia |]. split; [lia | exact Hag'].
    + apply Nat.ltb_ge in Ep.
      assert (Epos : pos = N) by lia. subst pos.
      replace (N - N)%nat with 0%nat in * by lia. cbn [Z.of_nat] in *.
      destruct (small_int_arith 5 bits) as [_ Hsub]; [lia | lia |].
      rewrite Hsub.
      do 3 eexists. split; [reflexivity |].
      split; [lia |]. split.
      { rewrite Nat.sub_diag.
        assert (Hb : bits = 1 \/ bits = 2 \/ bits = 3 \/ bits = 4) by lia.
        destruct Hb as [-> | [-> | [-> | ->]]]; reflexivity. }
      split; [| left; rewrite Nat.sub_diag; lia].
      unfold int_shr, group. fold N. change (5 - 5) with 0.
      unfold N in Hagree. rewrite firstn_all in Hagree.
      assert (Hag' : agree32 (int_shl tmp (5 - bits))
                       (Z.shiftl (be_number 0 value) (5 - bits))).
      { unfold int_shl. eapply agree32_trans; [apply agree32_wrap |].
        apply agree32_shiftl; [exact Hagree | lia]. }
      rewrite (agree32_group _ _ 0 Hag') by lia.
      rewrite Z.shiftr_0_r. f_equal.
      rewrite <- Z.shiftr_opp_r. f_equal. lia.
  - apply Z.ltb_ge in E5.
    do 3 eexists. split; [reflexivity |].
    split; [lia |]. split; [reflexivity |].
    split.
    + apply (Hgroup pos); [lia | lia | lia | exact Hagree].
    + right. split; [lia |]. split; [lia | exact Hagree].
Qed.

Lemma encode_loop_symbols (fuel : nat) :
  forall (value : list Z) (pos : nat) (bits tmp : Z) (done rest : list ascii),
    Forall is_byte value ->
    (List.length done + List.length rest = sizeof_stack)%nat ->
    0 <= bits <= 8 ->
    (List.length rest < fuel)%nat ->
    bits_left value pos bits = 0 \/ live value (List.length done) pos bits tmp ->
    let k := groups_left value pos bits (List.length rest) in
    encode_loop fuel value (List.length done) pos bits tmp (done ++ rest)
    = Ret (Some (done ++ List.map (symbol value) (seq (List.length done) k)
                      ++ skipn k rest)).
Proof.
  induction fuel as [| fuel IH];
    intros value pos bits tmp done rest Hbytes Hsz Hbits Hfuel Hinv k; [lia |].
  cbn [encode_loop].
  destruct ((List.length done <? sizeof_stack)%nat
            && ((0 <? bits) || (pos <? List.length value)%nat)) eqn:Eguard.
  - apply andb_true_iff in Eguard. destruct Eguard as [Eroom Emore].
    assert (Hleft : 0 < bits_left value pos bits).
    { unfold bits_left. apply orb_true_iff in Emore.
      destruct Emore as [Eb | Ep]; [apply Z.ltb_lt in Eb | apply Nat.ltb_lt in Ep]; lia. }
    destruct Hinv as [Hzero | Hlive]; [lia |].
    destruct (refill_group value (List.length done) pos bits tmp Hbytes Hbits Hleft Hlive)
      as (tmp' & pos' & bits' & Hrefill & Hbits' & Hgroups & Hind & Hnext).
    rewrite Hrefill. cbn [bind].
    destruct (small_int_arith bits' 5) as [_ Hsub]; [lia | lia |].
    rewrite Hsub, Eroom, Hind.
    unfold group at 1. rewrite alpha_at_symbol. cbn [bind].
    fold (group value (List.length done)). fold (symbol value (List.length done)).
    apply Nat.ltb_lt in Eroom.
    destruct rest as [| x rest]; [cbn in Hsz; lia |].
    rewrite poke_at_end_of. cbn [bind].
    specialize (IH value pos' (bits' - 5) tmp' (done ++ [symbol value (List.length done)]) rest).
    rewrite length_app in IH. cbn [List.length] in *.
    replace (List.length done + 1)%nat with (S (List.length done)) in IH by lia.
    rewrite <- (app_assoc done [_] rest) in IH. cbn [app] in IH.
    rewrite IH; [| exact Hbytes | lia | lia | lia | exact Hnext].
    assert (Hk : k = S (groups_left value pos' (bits' - 5) (List.length rest))).
    { unfold k, groups_left.
      assert (Hg : (bits_left value pos' (bits' - 5) + 4) / 5
                   = (bits_left value pos bits + 4) / 5 - 1).
      { rewrite <- Hgroups. unfold bits_left.
        replace (bits' - 5 + 8 * Z.of_nat (List.length value - pos') + 4)
          with (bits' + 8 * Z.of_nat (List.length value - pos') + 4 + (-1) * 5) by lia.
        rewrite Z.div_add by lia. lia. }
      rewrite Hg.
      assert (Hpos1 : 1 <= (bits_left value pos bits + 4) / 5).
      { apply Z.div_le_lower_bound; lia. }
      lia. }
    rewrite Hk. cbn [seq List.map skipn app].
    rewrite <- app_assoc. reflexivity.
  - assert (Hk : k = 0%nat).
    { unfold k, groups_left, bits_left.
      apply andb_false_iff in Eguard. destruct Eguard as [Eroom | Emore].
      + apply Nat.ltb_ge in Eroom.
        assert (List.length rest = 0)%nat by lia.
        assert (0 <= (bits + 8 * Z.of_nat (List.length value - pos) + 4) / 5)
          by (apply Z.div_pos; lia).
        lia.
      + apply orb_false_iff in Emore. destruct Emore as [Eb Ep].
        apply Z.ltb_ge in Eb. apply Nat.ltb_ge in Ep.
        replace (List.length value - pos)%nat with 0%nat by lia.
        replace bits with 0 by lia. cbn. lia. }
    rewrite Hk. reflexivity.
Qed.

Lemma firstn_of_seq (k : nat) :
  forall s n : nat, firstn k (seq s n) = seq s (Nat.min k n).
Proof.
  induction k as [| k IH]; intros s [| n]; cbn; try reflexivity.
  rewrite IH. reflexivity.
Qed.

Lemma firstn_zbase32 (value : list Z) (k : nat) :
  firstn k (zbase32 value)
  = List.map (symbol value) (seq 0 (Nat.min k (ceil_8N_over_5 (List.length value)))).
Proof. unfold zbase32. rewrite firstn_map, firstn_of_seq. reflexivity. Qed.

Lemma base32z_encode_groups (value : list Z) (stack : list ascii) :
  value <> [] -> Forall is_byte value -> List.length stack = sizeof_stack ->
  base32z_encode value stack
  = Ret (Some (firstn sizeof_stack (zbase32 value)
               ++ skipn (symbols_written (List.length value)) stack)).
Proof.
  intros Hne Hbytes Hlen. unfold base32z_encode.
  destruct value as [| b bytes]; [congruence |]. cbn [byte_at nth_error bind].
  assert (Hb : is_byte b) by (inversion Hbytes; assumption).
  pose proof (encode_loop_symbols (S sizeof_stack) (b :: bytes) 1 8 b [] stack Hbytes)
    as Hrun.
  cbn [List.length app Nat.add] in Hrun.
  rewrite Hlen in Hrun. rewrite groups_from_start in Hrun by discriminate.
  rewrite Hrun; [| reflexivity | lia | lia |].
  - rewrite firstn_zbase32. unfold symbols_written.
    rewrite (Nat.min_comm sizeof_stack). reflexivity.
  - right. split; [cbn; lia |]. split; [lia |].
    cbn. intros i _. reflexivity.
Qed.

Lemma group_range (value : list Z) (j : nat) : 0 <= group value j < 32.
Proof.
  unfold group. change 31 with (Z.ones 5). rewrite Z.land_ones by lia.
  apply Z.mod_pos_bound. reflexivity.
Qed.

Lemma symbol_in_alphabet (value : list Z) (j : nat) :
  In (symbol value j) zbase32_alpha /\ symbol value j <> Ascii.zero.
Proof.
  unfold symbol. pose proof (group_range value j) as Hr.
  assert (Hn : (Z.to_nat (group value j) < 32)%nat) by lia.
  remember (Z.to_nat (group value j)) as n eqn:En. clear En Hr.
  split.
  - apply nth_In. exact Hn.
  - do 32 (destruct n as [| n]; [discriminate |]). lia.
Qed.

Lemma zbase32_symbols (value : list Z) :
  Forall (fun c => In c zbase32_alpha) (zbase32 value) /\
  Forall (fun c => c <> Ascii.zero) (zbase32 value).
Proof.
  unfold zbase32. split; apply Forall_map, Forall_forall; intros j _;
    apply symbol_in_alphabet.
Qed.

Lemma length_zbase32 (value : list Z) :
  List.length (zbase32 value) = ceil_8N_over_5 (List.length value).
Proof. unfold zbase32. rewrite length_map, length_seq. reflexivity. Qed.

Lemma hex_nibble_range (ch : ascii) : 0 <= hex_nibble ch <= 15.
Proof. destruct ch as [[] [] [] [] [] [] [] []]; vm_compute; split; discriminate. Qed.

Lemma decode_hex_bytes (src : string) : Forall is_byte (decode_hex src).
Proof.
  unfold decode_hex. apply Forall_map, Forall_forall. intros ch _.
  pose proof (hex_nibble_range ch). unfold is_byte. lia.
Qed.

Lemma decode_hex_nonempty (src : string) :
  (1 <= String.length src)%nat -> decode_hex src <> [].
Proof.
  intros H E. apply (f_equal (@List.length Z)) in E.
  rewrite decode_hex_length in E. cbn in E. lia.
Qed.

(** The string of a short argument. *)
Lemma hex64_to_base32z_value (src : string) :
  (1 <= String.length src <= 39)%nat ->
  hex64_to_base32z src
  = inr (Ret (string_of_list_ascii (zbase32 (decode_hex src)))).
Proof.
  intro HN. unfold hex64_to_base32z.
  replace (String.length src <=? 64)%nat with true by (symmetry; apply Nat.leb_le; lia).
  rewrite base32z_encode_groups;
    [| apply decode_hex_nonempty; lia | apply decode_hex_bytes | reflexivity].
  cbn [bind]. rewrite decode_hex_length.
  destruct (ceil_8N_over_5_bounds (String.length src)) as (_ & Hfit & _).
  specialize (Hfit ltac:(lia)).
  rewrite firstn_all2 by (rewrite length_zbase32, decode_hex_length; lia).
  unfold symbols_written. rewrite Nat.min_l by lia.
  rewrite skipn_zero_buf by lia.
  destruct (sizeof_stack - ceil_8N_over_5 (String.length src))%nat as [| r] eqn:Er; [lia |].
  cbn [List.repeat]. rewrite c_str_terminated by apply zbase32_symbols.
  reflexivity.
Qed.

Lemma hex64_to_base32z_returned (src : string) (s : string) :
  hex64_to_base32z src = inr (Ret s) ->
  (1 <= String.length src <= 39)%nat /\
  s = string_of_list_ascii (zbase32 (decode_hex src)).
Proof.
  intro Hs.
  destruct (hex64_to_base32z_cases src) as (Hempty & _ & Hlong & Hfail).
  cbv zeta in Hempty, Hlong, Hfail.
  assert (HN : (1 <= String.length src <= 39)%nat).
  { destruct (Nat.eq_dec (String.length src) 0) as [E0 | Hpos].
    { rewrite (Hempty E0) in Hs. discriminate Hs. }
    destruct (le_lt_dec (String.length src) 39) as [H39 | H40]; [lia |].
    destruct (le_lt_dec (String.length src) 64) as [H64 | H65].
    - rewrite Hlong in Hs by lia. discriminate Hs.
    - rewrite (Hfail H65) in Hs. discriminate Hs. }
  split; [exact HN |].
  rewrite (hex64_to_base32z_value src HN) in Hs. injection Hs as <-. reflexivity.
Qed.

Lemma group_of_prefix (value : list Z) (p j : nat) :
  Forall is_byte value -> (p <= List.length value)%nat ->
  5 * (Z.of_nat j + 1) <= 8 * Z.of_nat p ->
  group value j = group (firstn p value) j.
Proof.
  intros Hb Hp Hj. unfold group.
  rewrite be_number_firstn by assumption.
  rewrite length_firstn, Nat.min_l by exact Hp.
  rewrite Z.shiftr_shiftr by lia.
  f_equal. f_equal. lia.
Qed.

Lemma map_seq_ext (f g : nat -> ascii) (n : nat) :
  forall s, (forall j, (s <= j < s + n)%nat -> f j = g j) ->
            List.map f (seq s n) = List.map g (seq s n).
Proof.
  induction n as [| n IH]; intros s H; cbn; [reflexivity |].
  rewrite (H s) by lia. rewrite (IH (S s)); [reflexivity |].
  intros j Hj. apply H. lia.
Qed.

Lemma map_seq_inv (f g : nat -> ascii) (n : nat) :
  forall s, List.map f (seq s n) = List.map g (seq s n) ->
            forall j, (s <= j < s + n)%nat -> f j = g j.
Proof.
  induction n as [| n IH]; intros s H j Hj; [lia |].
  cbn in H. injection H as H0 H1.
  destruct (Nat.eq_dec j s) as [-> | Hne]; [exact H0 |].
  apply (IH (S s) H1). lia.
Qed.

(** The symbols that fit a full buffer come from the first 40 bytes. *)
Lemma full_buffer_of_prefix (value : list Z) :
  Forall is_byte value -> (40 <= List.length value)%nat ->
  firstn sizeof_stack (zbase32 value) = zbase32 (firstn 40 value).
Proof.
  intros Hb HN. rewrite firstn_zbase32.
  destruct (ceil_8N_over_5_bounds (List.length value)) as (_ & _ & Hfull).
  rewrite Nat.min_l by (apply Hfull; exact HN).
  unfold zbase32. rewrite length_firstn, Nat.min_l by exact HN.
  change (ceil_8N_over_5 40) with sizeof_stack.
  apply map_seq_ext. intros j Hj. unfold symbol.
  rewrite (group_of_prefix value 40 j); [reflexivity | exact Hb | exact HN |].
  unfold sizeof_stack in Hj. lia.
Qed.

Lemma first_group_of_nibbles (src : string) :
  (1 <= String.length src)%nat ->
  group (decode_hex src) 0 = 0 \/ group (decode_hex src) 0 = 1.
Proof.
  intro HN.
  rewrite (group_of_prefix (decode_hex src) 1 0);
    [| apply decode_hex_bytes | rewrite decode_hex_length; exact HN | lia].
  destruct src as [| ch rest]; [cbn in HN; lia |].
  unfold decode_hex. cbn [list_ascii_of_string List.map firstn].
  pose proof (hex_nibble_range ch) as Hr.
  unfold group. cbn [be_number List.length]. 
  change (8 * Z.of_nat 1 - 5 * (Z.of_nat 0 + 1)) with 3.
  change (0 * 256 + hex_nibble ch) with (hex_nibble ch).
  change 31 with (Z.ones 5). rewrite Z.land_ones, Z.shiftr_div_pow2 by lia.
  change (2 ^ 3) with 8. change (2 ^ 5) with 32.
  assert (Hq : 0 <= hex_nibble ch / 8 < 2).
  { split; [apply Z.div_pos; lia | apply Z.div_lt_upper_bound; lia]. }
  rewrite Z.mod_small by lia. lia.
Qed.

Lemma rank_of_symbol (n : nat) :
  (n < 32)%nat ->
  rank_in (nth n zbase32_alpha "y"%char) zbase32_alpha = Some (Z.of_nat n).
Proof.
  intro Hn. do 32 (destruct n as [| n]; [reflexivity |]). lia.
Qed.

Lemma symbol_inj (v1 v2 : list Z) (j1 j2 : nat) :
  symbol v1 j1 = symbol v2 j2 -> group v1 j1 = group v2 j2.
Proof.
  unfold symbol. intro H.
  pose proof (group_range v1 j1) as H1. pose proof (group_range v2 j2) as H2.
  apply (f_equal (fun c => rank_in c zbase32_alpha)) in H.
  rewrite !rank_of_symbol in H by lia.
  injection H as H. lia.
Qed.

Lemma ceil_8N_over_5_inj (N M : nat) :
  ceil_8N_over_5 N = ceil_8N_over_5 M -> N = M.
Proof.
  unfold ceil_8N_over_5. intro H.
  pose proof (Nat.div_mod_eq (8 * N + 4) 5) as HN.
  pose proof (Nat.div_mod_eq (8 * M + 4) 5) as HM.
  pose proof (Nat.mod_upper_bound (8 * N + 4) 5 ltac:(discriminate)).
  pose proof (Nat.mod_upper_bound (8 * M + 4) 5 ltac:(discriminate)).
  lia.
Qed.

Lemma bits_of_groups (v1 v2 : list Z) :
  List.length v1 = List.length v2 ->
  (forall j, (j < ceil_8N_over_5 (List.length v1))%nat -> group v1 j = group v2 j) ->
  forall i, 0 <= i < 8 * Z.of_nat (List.length v1) ->
            Z.testbit (be_number 0 v1) i = Z.testbit (be_number 0 v2) i.
Proof.
  intros Hlen Hg i Hi.
  set (N := Z.of_nat (List.length v1)) in *.
  set (j := Z.to_nat ((8 * N - 1 - i) / 5)).
  assert (Hq : 5 * ((8 * N - 1 - i) / 5) <= 8 * N - 1 - i < 5 * ((8 * N - 1 - i) / 5) + 5).
  { pose proof (Z.div_mod (8 * N - 1 - i) 5 ltac:(lia)).
    pose proof (Z.mod_pos_bound (8 * N - 1 - i) 5 ltac:(lia)). lia. }
  assert (Hq0 : 0 <= (8 * N - 1 - i) / 5) by (apply Z.div_pos; lia).
  assert (Hj : (j < ceil_8N_over_5 (List.length v1))%nat).
  { unfold ceil_8N_over_5. apply Nat2Z.inj_lt.
    rewrite Nat2Z.inj_div. unfold j. rewrite Z2Nat.id by lia.
    replace (Z.of_nat (8 * List.length v1 + 4)) with (8 * N + 4) by (unfold N; lia).
    change (Z.of_nat 5) with 5.
    apply Z.div_lt_upper_bound; [lia |].
    pose proof (Z.div_mod (8 * N + 4) 5 ltac:(lia)).
    pose proof (Z.mod_pos_bound (8 * N + 4) 5 ltac:(lia)). lia. }
  specialize (Hg j Hj). unfold group in Hg. rewrite <- Hlen in Hg. fold N in Hg.
  set (r := 8 * N - 5 * (Z.of_nat j + 1)) in *.
  assert (Hr : 0 <= i - r < 5) by (unfold r, j; rewrite Z2Nat.id by lia; lia).
  apply (f_equal (fun x => Z.testbit x (i - r))) in Hg.
  rewrite !Z.land_spec, !Z.shiftr_spec in Hg by lia.
  change 31 with (Z.ones 5) in Hg.
  rewrite Z.ones_spec_low, !andb_true_r in Hg by lia.
  replace (i - r + r) with i in Hg by lia. exact Hg.
Qed.

Lemma be_number_inj (l1 : list Z) :
  forall l2, Forall is_byte l1 -> Forall is_byte l2 ->
             List.length l1 = List.length l2 ->
             be_number 0 l1 = be_number 0 l2 -> l1 = l2.
Proof.
  induction l1 as [| a l1 IH]; intros [| b l2] H1 H2 Hlen E; try discriminate Hlen;
    [reflexivity |].
  inversion H1 as [| ? ? Ha H1']. inversion H2 as [| ? ? Hb H2']. subst.
  cbn [List.length] in Hlen. injection Hlen as Hlen.
  cbn [be_number] in E.
  rewrite (be_number_acc l1), (be_number_acc l2), <- Hlen in E.
  pose proof (be_number_bounds l1 H1') as B1.
  pose proof (be_number_bounds l2 H2') as B2. rewrite <- Hlen in B2.
  unfold is_byte in Ha, Hb.
  set (W := 2 ^ (8 * Z.of_nat (List.length l1))) in *.
  assert (Eab : a = b) by nia.
  subst b. f_equal. apply IH; try assumption. lia.
Qed.

Lemma zbase32_inj (v1 v2 : list Z) :
  Forall is_byte v1 -> Forall is_byte v2 ->
  zbase32 v1 = zbase32 v2 -> v1 = v2.
Proof.
  intros H1 H2 E.
  assert (Hlen : List.length v1 = List.length v2).
  { apply ceil_8N_over_5_inj. rewrite <- !length_zbase32, E. reflexivity. }
  apply be_number_inj; try assumption.
  pose proof (be_number_bounds v1 H1) as B1.
  pose proof (be_number_bounds v2 H2) as B2. rewrite <- Hlen in B2.
  rewrite <- (Z.mod_small _ _ B1), <- (Z.mod_small _ _ B2).
  apply Z.bits_inj'. intros i Hi.
  rewrite !Z.testbit_mod_pow2 by lia.
  destruct (i <? 8 * Z.of_nat (List.length v1)) eqn:Ei; [| reflexivity].
  apply Z.ltb_lt in Ei. cbn [andb].
  apply bits_of_groups; [exact Hlen | | lia].
  intros j Hj. apply symbol_inj.
  unfold zbase32 in E. rewrite <- Hlen in E.
  apply (map_seq_inv _ _ _ 0%nat E). lia.
Qed.

(** Behind a whole number of 40-bit blocks the groups are those of the rest
    of the vector. *)
Lemma group_of_suffix (v1 v2 : list Z) (L1 j : nat) :
  8 * Z.of_nat (List.length v1) = 5 * Z.of_nat L1 ->
  (1 <= List.length v2)%nat ->
  group (v1 ++ v2) (L1 + j) = group v2 j.
Proof.
  intros Hblock HN2. unfold group.
  rewrite be_number_app, be_number_acc, length_app.
  set (N2 := Z.of_nat (List.length v2)).
  set (B1 := be_number 0 v1). set (B2 := be_number 0 v2).
  replace (8 * Z.of_nat (List.length v1 + List.length v2) - 5 * (Z.of_nat (L1 + j) + 1))
    with (8 * N2 - 5 * (Z.of_nat j + 1)) by (unfold N2; lia).
  set (r := 8 * N2 - 5 * (Z.of_nat j + 1)).
  assert (HN2' : 1 <= N2) by (unfold N2; lia).
  assert (Hr : r + 5 <= 8 * N2) by (unfold r; lia).
  change 31 with (Z.ones 5). rewrite !Z.land_ones by lia.
  destruct (Z_le_gt_dec 0 r) as [Hpos | Hneg].
  - rewrite !Z.shiftr_div_pow2 by lia.
    replace (8 * N2) with ((8 * N2 - r - 5) + 5 + r) by lia.
    rewrite !Z.pow_add_r by lia.
    replace (B1 * (2 ^ (8 * N2 - r - 5) * 2 ^ 5 * 2 ^ r) + B2)
      with (B1 * 2 ^ (8 * N2 - r - 5) * 2 ^ 5 * 2 ^ r + B2) by ring.
    rewrite Z.div_add_l by (pose proof (pow2_pos r Hpos); lia).
    rewrite Z.add_comm, Z.mod_add by lia. reflexivity.
  - rewrite <- !Z.shiftl_opp_r, !Z.shiftl_mul_pow2 by lia.
    assert (E : 2 ^ (8 * N2) * 2 ^ (- r) = 2 ^ (8 * N2 - r - 5) * 2 ^ 5).
    { rewrite <- !Z.pow_add_r by lia. f_equal. lia. }
    transitivity ((B2 * 2 ^ (- r) + B1 * 2 ^ (8 * N2 - r - 5) * 2 ^ 5) mod 2 ^ 5);
      [f_equal | apply Z.mod_add; lia].
    rewrite Z.mul_add_distr_r, <- (Z.mul_assoc B1), E. ring.
Qed.

Lemma map_seq_shift (f g : nat -> ascii) (n : nat) :
  forall s t, (forall j, (j < n)%nat -> f (s + j)%nat = g (t + j)%nat) ->
              List.map f (seq s n) = List.map g (seq t n).
Proof.
  induction n as [| n IH]; intros s t H; cbn; [reflexivity |].
  pose proof (H 0%nat ltac:(lia)) as H0. rewrite !Nat.add_0_r in H0. rewrite H0.
  f_equal. apply IH. intros j Hj.
  replace (S s + j)%nat with (s + S j)%nat by lia.
  replace (S t + j)%nat with (t + S j)%nat by lia.
  apply H. lia.
Qed.

(** The encoding of a whole number of 5-byte blocks followed by more bytes
    is the encoding of the blocks followed by that of the other bytes. *)
Lemma zbase32_app (v1 v2 : list Z) (a : nat) :
  Forall is_byte v1 -> Forall is_byte v2 ->
  List.length v1 = (5 * a)%nat -> (1 <= List.length v2)%nat ->
  zbase32 (v1 ++ v2) = zbase32 v1 ++ zbase32 v2.
Proof.
  intros H1 H2 Ha HN2. unfold zbase32.
  assert (HL1 : ceil_8N_over_5 (List.length v1) = (8 * a)%nat).
  { unfold ceil_8N_over_5. rewrite Ha.
    replace (8 * (5 * a) + 4)%nat with (4 + (8 * a) * 5)%nat by lia.
    rewrite Nat.div_add by lia. reflexivity. }
  assert (HL : ceil_8N_over_5 (List.length (v1 ++ v2))
               = (8 * a + ceil_8N_over_5 (List.length v2))%nat).
  { unfold ceil_8N_over_5. rewrite length_app, Ha.
    replace (8 * (5 * a + List.length v2) + 4)%nat
      with (8 * List.length v2 + 4 + (8 * a) * 5)%nat by lia.
    rewrite Nat.div_add by lia. lia. }
  rewrite HL, HL1, seq_app, map_app. cbn [Nat.add]. f_equal.
  - apply map_seq_ext. intros j Hj. unfold symbol.
    rewrite (group_of_prefix (v1 ++ v2) (List.length v1) j).
    + rewrite firstn_app, Nat.sub_diag, firstn_all. cbn [firstn].
      rewrite app_nil_r. reflexivity.
    + apply Forall_app. split; assumption.
    + rewrite length_app. lia.
    + lia.
  - apply map_seq_shift. intros j Hj. unfold symbol.
    rewrite (group_of_suffix v1 v2 (8 * a) j); [reflexivity | lia | exact HN2].
Qed.

Lemma list_ascii_of_string_app (s1 s2 : string) :
  list_ascii_of_string (s1 ++ s2)%string
  = list_ascii_of_string s1 ++ list_ascii_of_string s2.
Proof. induction s1 as [| c s1 IH]; cbn; [reflexivity | rewrite IH; reflexivity]. Qed.

Lemma string_of_list_ascii_app (l1 l2 : list ascii) :
  string_of_list_ascii (l1 ++ l2)
  = (string_of_list_ascii l1 ++ string_of_list_ascii l2)%string.
Proof. induction l1 as [| c l1 IH]; cbn; [reflexivity | rewrite IH; reflexivity]. Qed.

Lemma string_length_app (s1 s2 : string) :
  String.length (s1 ++ s2)%string = (String.length s1 + String.length s2)%nat.
Proof. induction s1 as [| c s1 IH]; cbn; [reflexivity | rewrite IH; reflexivity]. Qed.

(** X9: on a non-empty byte vector [base32z_encode] returns the buffer,
    never [nullptr] and with no write outside it; the buffer then starts
    with the z-base-32 symbols of the vector, one for each group of five
    bits, as many as fit its 64 bytes, and is unchanged behind them. *)
Theorem base32z_encode_packs_groups (value : list Z) (stack : list ascii) :
  value <> [] -> Forall is_byte value -> List.length stack = sizeof_stack ->
  let k := symbols_written (List.length value) in
  exists buf,
    base32z_encode value stack = Ret (Some buf) /\
    List.length buf = sizeof_stack /\
    firstn k buf = firstn sizeof_stack (zbase32 value) /\
    skipn k buf = skipn k stack.
Proof.
  intros Hne Hbytes Hlen k.
  rewrite (base32z_encode_groups value stack Hne Hbytes Hlen). fold k.
  assert (Hk : List.length (firstn sizeof_stack (zbase32 value)) = k).
  { rewrite length_firstn, length_zbase32. unfold k, symbols_written. lia. }
  assert (Hk64 : (k <= sizeof_stack)%nat) by (unfold k, symbols_written; lia).
  eexists. split; [reflexivity |]. split; [| split].
  - rewrite length_app, Hk, length_skipn. lia.
  - rewrite <- Hk at 1. rewrite firstn_app, Nat.sub_diag, firstn_all. cbn [firstn].
    apply app_nil_r.
  - rewrite <- Hk at 1. rewrite skipn_app, Nat.sub_diag, skipn_all. reflexivity.
Qed.

Lemma base32z_encode_packs_groups_witness :
  exists buf,
    base32z_encode [255; 16] zero_buf = Ret (Some buf) /\
    List.length buf = 64%nat /\
    firstn 4 buf = ["9"; "h"; "e"; "y"]%char /\
    skipn 4 buf = List.repeat Ascii.zero 60.
Proof.
  assert (Hne : [255; 16] <> []) by discriminate.
  assert (Hbytes : Forall is_byte [255; 16])
    by (repeat (apply Forall_cons; [unfold is_byte; lia |]); apply Forall_nil).
  exact (base32z_encode_packs_groups [255; 16] zero_buf Hne Hbytes eq_refl).
Defined.

(** X10: from 40 bytes on the buffer is full, and what [base32z_encode]
    wrote depends on the first 40 bytes only: two vectors that agree on
    these leave the same buffer. *)
Theorem base32z_encode_reads_40_bytes (v1 v2 : list Z) (stack : list ascii) :
  Forall is_byte v1 -> Forall is_byte v2 ->
  (40 <= List.length v1)%nat -> (40 <= List.length v2)%nat ->
  firstn 40 v1 = firstn 40 v2 ->
  List.length stack = sizeof_stack ->
  base32z_encode v1 stack = base32z_encode v2 stack /\
  base32z_encode v1 stack = Ret (Some (zbase32 (firstn 40 v1))).
Proof.
  intros H1 H2 HN1 HN2 Hpre Hlen.
  assert (Hrun : forall v, Forall is_byte v -> (40 <= List.length v)%nat ->
                           base32z_encode v stack = Ret (Some (zbase32 (firstn 40 v)))).
  { intros v Hv HN.
    rewrite base32z_encode_groups; [| intros ->; cbn in HN; lia | exact Hv | exact Hlen].
    rewrite (full_buffer_of_prefix v Hv HN).
    destruct (ceil_8N_over_5_bounds (List.length v)) as (_ & _ & Hfull).
    unfold symbols_written. rewrite Nat.min_r by (apply Hfull; exact HN).
    rewrite <- Hlen, skipn_all, app_nil_r. reflexivity. }
  split; [| exact (Hrun v1 H1 HN1)].
  rewrite (Hrun v1 H1 HN1), (Hrun v2 H2 HN2), Hpre. reflexivity.
Qed.

Lemma base32z_encode_reads_40_bytes_witness :
  let k1 := string_of_list_ascii (List.repeat "0"%char 64) in
  let k2 := string_of_list_ascii (List.repeat "0"%char 40 ++ List.repeat "f"%char 24) in
  base32z_encode (decode_hex k1) zero_buf = base32z_encode (decode_hex k2) zero_buf /\
  base32z_encode (decode_hex k1) zero_buf
  = Ret (Some (zbase32 (firstn 40 (decode_hex k1)))).
Proof.
  intros k1 k2.
  apply (base32z_encode_reads_40_bytes (decode_hex k1) (decode_hex k2) zero_buf).
  - apply decode_hex_bytes.
  - apply decode_hex_bytes.
  - rewrite decode_hex_length. vm_compute. lia.
  - rewrite decode_hex_length. vm_compute. lia.
  - reflexivity.
  - reflexivity.
Defined.

(** X11: [hex64_to_base32z] returns a string for the arguments of 1 to 39
    characters and for no other: the empty argument reads [value[0]] of an
    empty vector, 40 to 64 characters leave the buffer without terminator,
    and more fail the assertion. *)
Theorem hex64_to_base32z_returns_iff (src : string) :
  (exists s, hex64_to_base32z src = inr (Ret s))
  <-> (1 <= String.length src <= 39)%nat.
Proof.
  split.
  - intros [s Hs]. apply (hex64_to_base32z_returned src s Hs).
  - intro HN. eexists. apply (hex64_to_base32z_value src HN).
Qed.

(** X12: for an argument of 1 to 39 characters [hex64_to_base32z] returns
    the z-base-32 symbols of the decoded vector, which holds one byte for
    each character of the argument. *)
Theorem hex64_to_base32z_spells_nibbles (src : string) :
  (1 <= String.length src <= 39)%nat ->
  hex64_to_base32z src
  = inr (Ret (string_of_list_ascii (zbase32 (decode_hex src)))) /\
  List.length (decode_hex src) = String.length src.
Proof.
  intro HN. split; [exact (hex64_to_base32z_value src HN) | apply decode_hex_length].
Qed.

Lemma hex64_to_base32z_spells_nibbles_witness :
  hex64_to_base32z "ff" = inr (Ret "bh8o"%string) /\
  List.length (decode_hex "ff") = 2%nat.
Proof.
  assert (HN : (1 <= String.length "ff" <= 39)%nat) by (cbn; lia).
  exact (hex64_to_base32z_spells_nibbles "ff" HN).
Defined.

(** X13: for an argument of 1 to 39 characters [hex64_to_base32z] returns
    a string, and the string consists of symbols of [zbase32_alpha]. *)
Theorem hex64_to_base32z_alphabet (src : string) :
  (1 <= String.length src <= 39)%nat ->
  exists s,
    hex64_to_base32z src = inr (Ret s) /\
    Forall (fun c => In c zbase32_alpha) (list_ascii_of_string s).
Proof.
  intro HN. exists (string_of_list_ascii (zbase32 (decode_hex src))).
  split; [exact (hex64_to_base32z_value src HN) |].
  rewrite list_ascii_of_string_of_list_ascii. apply zbase32_symbols.
Qed.

Lemma hex64_to_base32z_alphabet_witness :
  exists s,
    hex64_to_base32z "ff" = inr (Ret s) /\
    Forall (fun c => In c zbase32_alpha) (list_ascii_of_string s).
Proof.
  assert (HN : (1 <= String.length "ff" <= 39)%nat) by (cbn; lia).
  exact (hex64_to_base32z_alphabet "ff" HN).
Defined.

(** X14: the decoded bytes are below 16, so the first five bits encoded are
    [0000x]: every string that [hex64_to_base32z] returns starts with [y] or
    with [b]. *)
Theorem hex64_to_base32z_first_symbol (src s : string) :
  hex64_to_base32z src = inr (Ret s) ->
  exists rest, s = String "y" rest \/ s = String "b" rest.
Proof.
  intro Hs. destruct (hex64_to_base32z_returned src s Hs) as [HN ->].
  unfold zbase32. rewrite decode_hex_length.
  destruct (ceil_8N_over_5_bounds (String.length src)) as (Hlo & _ & _).
  specialize (Hlo ltac:(lia)).
  destruct (ceil_8N_over_5 (String.length src)) as [| L]; [lia |].
  cbn [seq List.map string_of_list_ascii].
  assert (Hsym : symbol (decode_hex src) 0 = "y"%char \/ symbol (decode_hex src) 0 = "b"%char).
  { unfold symbol.
    destruct (first_group_of_nibbles src ltac:(lia)) as [-> | ->]; [left | right];
      reflexivity. }
  eexists. destruct Hsym as [-> | ->]; [left | right]; reflexivity.
Qed.

Lemma hex64_to_base32z_first_symbol_witness :
  exists rest, "bh8o"%string = String "y" rest \/ "bh8o"%string = String "b" rest.
Proof.
  apply (hex64_to_base32z_first_symbol "ff" "bh8o"). reflexivity.
Defined.

(** X15: on arguments of 1 to 39 characters [hex64_to_base32z] loses
    nothing of the decoded bytes: two arguments with the same result decode
    to the same vector. *)
Theorem hex64_to_base32z_injective (src1 src2 : string) :
  (1 <= String.length src1 <= 39)%nat -> (1 <= String.length src2 <= 39)%nat ->
  hex64_to_base32z src1 = hex64_to_base32z src2 ->
  decode_hex src1 = decode_hex src2.
Proof.
  intros HN1 HN2 E.
  rewrite (hex64_to_base32z_value src1 HN1), (hex64_to_base32z_value src2 HN2) in E.
  injection E as E.
  apply (f_equal list_ascii_of_string) in E.
  rewrite !list_ascii_of_string_of_list_ascii in E.
  apply zbase32_inj; [apply decode_hex_bytes | apply decode_hex_bytes | exact E].
Qed.

Lemma hex64_to_base32z_injective_witness :
  decode_hex "1f" = decode_hex "1F".
Proof.
  apply (hex64_to_base32z_injective "1f" "1F"); [cbn; lia | cbn; lia | reflexivity].
Defined.

(** X16: the encoding works on blocks.  When the first part of the argument
    has a multiple of five characters, the string returned for the whole
    argument is the one returned for the first part followed by the one
    returned for the rest. *)
Theorem hex64_to_base32z_blocks (s1 s2 : string) (a : nat) :
  String.length s1 = (5 * a)%nat -> (1 <= a)%nat -> (1 <= String.length s2)%nat ->
  (String.length s1 + String.length s2 <= 39)%nat ->
  exists r1 r2,
    hex64_to_base32z s1 = inr (Ret r1) /\
    hex64_to_base32z s2 = inr (Ret r2) /\
    hex64_to_base32z (String.append s1 s2) = inr (Ret (String.append r1 r2)) /\
    String.length r1 = (8 * a)%nat.
Proof.
  intros Ha Ha1 HN2 Hsum.
  exists (string_of_list_ascii (zbase32 (decode_hex s1))),
         (string_of_list_ascii (zbase32 (decode_hex s2))).
  split; [apply hex64_to_base32z_value; lia |].
  split; [apply hex64_to_base32z_value; lia |].
  split.
  - rewrite hex64_to_base32z_value by (rewrite string_length_app; lia).
    unfold decode_hex at 1. rewrite list_ascii_of_string_app, map_app.
    fold (decode_hex s1). fold (decode_hex s2).
    rewrite (zbase32_app (decode_hex s1) (decode_hex s2) a);
      [| apply decode_hex_bytes | apply decode_hex_bytes
       | rewrite decode_hex_length; exact Ha | rewrite decode_hex_length; exact HN2].
    rewrite string_of_list_ascii_app. reflexivity.
  - rewrite length_string_of_list, length_zbase32, decode_hex_length, Ha.
    unfold ceil_8N_over_5.
    replace (8 * (5 * a) + 4)%nat with (4 + (8 * a) * 5)%nat by lia.
    rewrite Nat.div_add by lia. reflexivity.
Qed.

Lemma hex64_to_base32z_blocks_witness :
  exists r1 r2,
    hex64_to_base32z "01234" = inr (Ret r1) /\
    hex64_to_base32z "abc" = inr (Ret r2) /\
    hex64_to_base32z "01234abc" = inr (Ret (String.append r1 r2)) /\
    String.length r1 = 8%nat.
Proof.
  apply (hex64_to_base32z_blocks "01234" "abc" 1); cbn; lia.
Defined.

Open Scope string_scope.

(** C7: the decoder maps each character on its own: a digit to its value, a
    letter of [A-F] or [a-f] to 10 to 15, and anything else to 0; the result
    is a plain byte vector, with no error case. *)
Theorem decode_hex_nibbles :
  (forall ch : ascii, hex_nibble ch = nibble_of_char ch) /\
  (forall src : string,
     decode_hex src = List.map nibble_of_char (list_ascii_of_string src)) /\
  decode_hex "0123456789" = [0; 1; 2; 3; 4; 5; 6; 7; 8; 9] /\
  decode_hex "ABCDEF" = [10; 11; 12; 13; 14; 15] /\
  decode_hex "abcdef" = [10; 11; 12; 13; 14; 15] /\
  decode_hex "/:@G`g xyz" = [0; 0; 0; 0; 0; 0; 0; 0; 0; 0].
Proof.
  assert (H : forall ch : ascii, hex_nibble ch = nibble_of_char ch).
  { intros [[] [] [] [] [] [] [] []]; reflexivity. }
  split; [exact H |]. split; [| repeat split].
  intro src. unfold decode_hex. apply map_ext. exact H.
Qed.

(** The length of the result: whenever [hex64_to_base32z] returns a string,
    its length is [ceil (8 * N / 5)] for the [N] decoded bytes, and it does
    return one for every argument of 1 to 39 characters. *)
Theorem hex64_to_base32z_length (src : string) :
  ((1 <= String.length src <= 39)%nat ->
   exists s, hex64_to_base32z src = inr (Ret s)) /\
  (forall s, hex64_to_base32z src = inr (Ret s) ->
             String.length s = ceil_8N_over_5 (List.length (decode_hex src))).
Proof.
  destruct (hex64_to_base32z_cases src) as (Hempty & Hshort & Hlong & Hfail).
  split.
  - intro HN. destruct (Hshort HN) as (s & Hs & _). exists s. exact Hs.
  - intros s Hs. rewrite decode_hex_length.
    destruct (Nat.eq_dec (String.length src) 0) as [E0 | Hpos].
    { rewrite (Hempty E0) in Hs. discriminate Hs. }
    destruct (le_lt_dec (String.length src) 39) as [H39 | H40].
    + destruct Hshort as (s' & Hs' & Hlen); [lia |].
      rewrite Hs' in Hs. injection Hs as <-. exact Hlen.
    + destruct (le_lt_dec (String.length src) 64) as [H64 | H65].
      * rewrite Hlong in Hs by lia. discriminate Hs.
      * rewrite (Hfail H65) in Hs. discriminate Hs.
Qed.

Lemma hex64_to_base32z_length_witness :
  exists s, hex64_to_base32z "ff" = inr (Ret s) /\ String.length s = 4%nat.
Proof.
  destruct (hex64_to_base32z_length "ff") as [Hret Hlen].
  destruct Hret as [s Hs]; [cbn; lia |].
  exists s. split; [exact Hs | exact (Hlen s Hs)].
Defined.

(** C5, at the arguments of 40 characters: the encoding completes, the
    encoder consumes the 40 decoded bytes and writes all
    [ceil (8 * 40 / 5) = 64] symbols of them; these fill the 64 bytes of the
    buffer and leave no NUL behind them, so that no string of 64 characters,
    nor any other, is returned. *)
Theorem hex64_to_base32z_length_at_capacity (src : string) :
  String.length src = 40%nat ->
  let bin := decode_hex src in
  ceil_8N_over_5 (List.length bin) = sizeof_stack /\
  List.length (zbase32 bin) = ceil_8N_over_5 (List.length bin) /\
  base32z_encode bin zero_buf = Ret (Some (zbase32 bin)) /\
  hex64_to_base32z src = inr (Undefined NoTerminator) /\
  (forall s, hex64_to_base32z src <> inr (Ret s)).
Proof.
  intros HN bin.
  assert (Hlen : List.length bin = 40%nat) by (unfold bin; rewrite decode_hex_length; exact HN).
  assert (Hlong : hex64_to_base32z src = inr (Undefined NoTerminator))
    by (apply hex64_to_base32z_long_input; lia).
  split; [rewrite Hlen; reflexivity |].
  split; [apply length_zbase32 |].
  split; [| split; [exact Hlong | intros s Hs; rewrite Hlong in Hs; discriminate Hs]].
  rewrite base32z_encode_groups;
    [| intro E; rewrite E in Hlen; discriminate Hlen
     | apply decode_hex_bytes | reflexivity].
  rewrite firstn_all2 by (rewrite length_zbase32, Hlen; exact (Nat.le_refl 64)).
  rewrite Hlen. change (symbols_written 40) with (List.length zero_buf).
  rewrite skipn_all, app_nil_r. reflexivity.
Qed.

Lemma hex64_to_base32z_length_at_capacity_witness :
  let src := "0123456789abcdef0123456789ABCDEF01234567"%string in
  let bin := decode_hex src in
  ceil_8N_over_5 (List.length bin) = sizeof_stack /\
  List.length (zbase32 bin) = ceil_8N_over_5 (List.length bin) /\
  base32z_encode bin zero_buf = Ret (Some (zbase32 bin)) /\
  hex64_to_base32z src = inr (Undefined NoTerminator) /\
  (forall s, hex64_to_base32z src <> inr (Ret s)).
Proof.
  intro src.
  exact (hex64_to_base32z_length_at_capacity src eq_refl).
Defined.

(** C2, at the key of 64 zero digits: its encoding has 103 symbols, the
    encoder stops after 64 of them and still returns the buffer, not
    [nullptr]; the caller does not get the empty string. *)
Theorem capacity_exhaustion_not_signalled :
  ceil_8N_over_5 (List.length (decode_hex zero_key)) = 103%nat /\
  base32z_encode (decode_hex zero_key) zero_buf
  = Ret (Some (List.repeat "y"%char 64)) /\
  hex64_to_base32z zero_key <> inr (Ret "").
Proof.
  split; [reflexivity |]. split; [vm_compute; reflexivity |].
  vm_compute. discriminate.
Qed.

(** C10, at an argument of 40 zero digits: its 64 symbols fit the buffer
    exactly and fill it, bytes 0 to 63, so the buffer holds no NUL and the
    [const char*] handed to [std::string] is not a terminated string. *)
Theorem full_buffer_has_no_terminator :
  let src := string_of_list_ascii (List.repeat "0"%char 40) in
  ceil_8N_over_5 (List.length (decode_hex src)) = 64%nat /\
  base32z_encode (decode_hex src) zero_buf
  = Ret (Some (List.repeat "y"%char 64)) /\
  hex64_to_base32z src = inr (Undefined NoTerminator).
Proof.
  split; [reflexivity |]. split; vm_compute; reflexivity.
Qed.

(** C3: on the empty string the encoder reads [value[0]] of an empty vector;
    whatever that read yields, the loop then writes two symbols, so the result
    is never the empty string. *)
Theorem hex64_to_base32z_empty :
  hex64_to_base32z "" = inr (Undefined ReadOutOfBounds) /\
  forall tmp : Z,
  exists c1 c2,
    c1 <> Ascii.zero /\ c2 <> Ascii.zero /\
    encode_loop (S sizeof_stack) [] 0 1 8 tmp zero_buf
    = Ret (Some (c1 :: c2 :: List.repeat Ascii.zero 62)).
Proof.
  split; [reflexivity |]. intro tmp.
  assert (Hsz : (List.length (@nil ascii) + List.length zero_buf = sizeof_stack)%nat)
    by reflexivity.
  assert (Hbits : (0 <= 8 <= 8)%Z) by lia.
  assert (Hfuel : (List.length zero_buf < S sizeof_stack)%nat)
    by (unfold zero_buf; rewrite repeat_length; lia).
  destruct (encode_loop_run (S sizeof_stack) [] 1 8 tmp [] zero_buf
              Hsz Hbits Hfuel) as (out & Hlen & Hnz & Hrun).
  change (groups_left [] 1 8 (List.length zero_buf)) with 2%nat in Hlen.
  destruct out as [| c1 [| c2 [| c3 out]]]; try discriminate Hlen.
  inversion Hnz as [| ? ? Hc1 Hnz']. inversion Hnz' as [| ? ? Hc2 _].
  exists c1, c2. split; [exact Hc1 |]. split; [exact Hc2 |].
  exact Hrun.
Qed.

End Encoder.
